(** * Camera frame acquisition of the printer bot (BambuCamera.js)

    A shallow embedding of [PrinterCameraNode] and of
    [captureSingleFrameFromPrinter]: the fields of the class are a record,
    every method and every socket or timer callback is a function on the
    state of the program, and the sockets, timers, console and file system
    the callbacks talk to are explicit components of that state. *)

From Stdlib Require Import ZArith Lia Ascii.
From Stdlib.Strings Require Import Byte.
From stdpp Require Import base list strings.

Local Open Scope Z_scope.

(** ** Bytes and Node buffers *)

(** A [Buffer] is the list of its bytes. *)
Abbreviation Buffer := (list byte).

Definition byte_val (b : byte) : Z := Z.of_N (Byte.to_N b).

(** The byte holding the low eight bits of [v]. *)
Definition byte_of_Z (v : Z) : byte :=
  match Byte.of_N (Z.to_N (Z.land v 255)) with
  | Some b => b
  | None => x00
  end.

(** [Buffer.alloc(n)]: [n] zero bytes. *)
Definition Buffer_alloc (n : nat) : Buffer := replicate n x00.

(** [Buffer.from(s, 'ascii')]: one byte per character. *)
Definition Buffer_from_ascii (s : string) : Buffer := String.list_byte_of_string s.

(** [a.equals(b)] *)
Fixpoint Buffer_equals (a b : Buffer) : bool :=
  match a, b with
  | [], [] => true
  | x :: a', y :: b' => Byte.eqb x y && Buffer_equals a' b'
  | _, _ => false
  end.

(** [buf.subarray(start, end)] with the clamping Node applies: a negative
    index counts from the end, and both ends are clamped to the buffer. *)
Definition clamp_index (len i : Z) : Z :=
  if i <? 0 then Z.max (len + i) 0 else Z.min i len.

Definition subarray (buf : Buffer) (start : Z) (stop : option Z) : Buffer :=
  let len := Z.of_nat (length buf) in
  let s := clamp_index len start in
  let e := match stop with Some e => clamp_index len e | None => len end in
  take (Z.to_nat (e - s)) (drop (Z.to_nat s) buf).

(** [buf.readUInt32LE(0)] on a buffer of at least four bytes. *)
Definition readUInt32LE (buf : Buffer) : Z :=
  match buf with
  | b0 :: b1 :: b2 :: b3 :: _ =>
      byte_val b0 + Z.shiftl (byte_val b1) 8 + Z.shiftl (byte_val b2) 16
      + Z.shiftl (byte_val b3) 24
  | _ => 0
  end.

Definition JPEG_START_MARKER : Buffer := [xff; xd8; xff; xe0].
Definition JPEG_END_MARKER : Buffer := [xff; xd9].

(** ** Errors and exceptions *)

(** The [err] object a socket hands to its ['error'] listener. *)
Record SocketError := { err_code : string; err_message : string }.

(** The errors the program creates or passes on; each constructor carries
    the values interpolated in its message. *)
Inductive JsError :=
| ErrAlreadyInProgress
| ErrOperationTimeout (host : string) (timeoutMs : Z)
| ErrAborted
| ErrSocket (err : SocketError)
| ErrClosedUnexpectedly (host : string)
| ErrConnectFailed (host : string) (attempts : Z)
| ErrRequired
| ErrOutOfRange (offset : nat)
| ErrNullSocket
| ErrHost (message : string).

(** A computation that may throw. *)
Inductive Completion (A : Type) :=
| Normal (a : A)
| Throw (e : JsError).
Arguments Normal {A} a.
Arguments Throw {A} e.

#[export] Instance Completion_ret : MRet Completion := fun A a => Normal a.
#[export] Instance Completion_bind : MBind Completion := fun A B f c =>
  match c with
  | Normal a => f a
  | Throw e => Throw e
  end.

(** ** The authentication record *)

(** [buf.writeUInt8(v, offset)]: throws outside the buffer. *)
Definition writeUInt8 (v : byte) (offset : nat) (buf : Buffer) : Completion Buffer :=
  if decide (offset < length buf)%nat
  then Normal (<[offset := v]> buf)
  else Throw (ErrOutOfRange offset).

(** [buf.writeUInt32LE(v, offset)]: throws unless four bytes fit. *)
Definition writeUInt32LE (v : Z) (offset : nat) (buf : Buffer) : Completion Buffer :=
  if decide (offset + 4 <= length buf)%nat
  then Normal (<[offset + 3 := byte_of_Z (Z.shiftr v 24)]>
              (<[offset + 2 := byte_of_Z (Z.shiftr v 16)]>
              (<[offset + 1 := byte_of_Z (Z.shiftr v 8)]>
              (<[offset := byte_of_Z v]> buf))))%nat
  else Throw (ErrOutOfRange offset).

(** [src.copy(target, targetStart)]: copies as many bytes as fit and never
    throws for a [targetStart] that is not negative. *)
Fixpoint Buffer_copy (src target : Buffer) (targetStart : nat) : Buffer :=
  match src with
  | [] => target
  | b :: src' => Buffer_copy src' (<[targetStart := b]> target) (S targetStart)
  end.

(** [for (let i = len; i < 32; i++) authBuffer.writeUInt8(0x00, offset++)],
    with [count] the number of iterations left; returns the buffer and the
    final [offset]. *)
Fixpoint zero_pad (count offset : nat) (buf : Buffer) : Completion (Buffer * nat) :=
  match count with
  | O => Normal (buf, offset)
  | S count' =>
      buf' ← writeUInt8 x00 offset buf;
      zero_pad count' (S offset) buf'
  end.

Definition _buildAuthData (username accessCode : string) : Completion Buffer :=
  let authBuffer := Buffer_alloc 80 in
  let offset := 0%nat in
  authBuffer ← writeUInt32LE 0x40 offset authBuffer; let offset := (offset + 4)%nat in
  authBuffer ← writeUInt32LE 0x3000 offset authBuffer; let offset := (offset + 4)%nat in
  authBuffer ← writeUInt32LE 0 offset authBuffer; let offset := (offset + 4)%nat in
  authBuffer ← writeUInt32LE 0 offset authBuffer; let offset := (offset + 4)%nat in
  let userBytes := Buffer_from_ascii username in
  let authBuffer := Buffer_copy userBytes authBuffer offset in
  let offset := (offset + length userBytes)%nat in
  '(authBuffer, offset) ← zero_pad (32 - length userBytes) offset authBuffer;
  let accessCodeBytes := Buffer_from_ascii accessCode in
  let authBuffer := Buffer_copy accessCodeBytes authBuffer offset in
  let offset := (offset + length accessCodeBytes)%nat in
  '(authBuffer, offset) ← zero_pad (32 - length accessCodeBytes) offset authBuffer;
  mret authBuffer.

(** A field of the record: the bytes, zero-padded on the right to 32. *)
Definition pad32 (l : Buffer) : Buffer := l ++ replicate (32 - length l) x00.

Definition auth_magic : Buffer := [x40; x00; x00; x00].
Definition auth_message_type : Buffer := [x00; x30; x00; x00].

(** The layout of the 80-byte record. *)
Definition auth_record (username accessCode : string) : Buffer :=
  auth_magic ++ auth_message_type ++ replicate 8 x00
  ++ pad32 (Buffer_from_ascii username) ++ pad32 (Buffer_from_ascii accessCode).

(** Every character of [s] is below 128. *)
Definition is_ascii (s : string) : bool :=
  forallb (fun b => byte_val b <? 128) (Buffer_from_ascii s).

(** ** The state of the program *)

(** [this.options] of a camera node. *)
Record Options := { frameProcessingMode : string; timeoutMs : Z }.

(** The [options] argument of the constructor, before the defaults. *)
Record OptionsArg := {
  arg_frameProcessingMode : option string;
  arg_timeoutMs : option Z }.

(** The fields of a [PrinterCameraNode].  Sockets and timers are handles
    into the tables of the runtime, [None] is JavaScript's [null]. *)
Record Node := {
  hostname : string;
  accessCode : string;
  port : Z;
  username : string;
  options : Options;
  lastFrameData : option Buffer;
  alive : bool;
  socket : option nat;
  reconnectTimeout : option nat;
  currentFrameBuffer : Buffer;
  expectedPayloadSize : Z;
  isReceivingImage : bool;
  connectAttempts : Z;
  operationTimeout : option nat;
  hasResolvedOrRejected : bool }.

Definition set_lastFrameData (v : option Buffer) (n : Node) : Node :=
  {| hostname := hostname n; accessCode := accessCode n; port := port n;
     username := username n; options := options n;
     lastFrameData := v; alive := alive n; socket := socket n;
     reconnectTimeout := reconnectTimeout n;
     currentFrameBuffer := currentFrameBuffer n;
     expectedPayloadSize := expectedPayloadSize n;
     isReceivingImage := isReceivingImage n;
     connectAttempts := connectAttempts n;
     operationTimeout := operationTimeout n;
     hasResolvedOrRejected := hasResolvedOrRejected n |}.

Definition set_alive (v : bool) (n : Node) : Node :=
  {| hostname := hostname n; accessCode := accessCode n; port := port n;
     username := username n; options := options n;
     lastFrameData := lastFrameData n; alive := v; socket := socket n;
     reconnectTimeout := reconnectTimeout n;
     currentFrameBuffer := currentFrameBuffer n;
     expectedPayloadSize := expectedPayloadSize n;
     isReceivingImage := isReceivingImage n;
     connectAttempts := connectAttempts n;
     operationTimeout := operationTimeout n;
     hasResolvedOrRejected := hasResolvedOrRejected n |}.

Definition set_socket (v : option nat) (n : Node) : Node :=
  {| hostname := hostname n; accessCode := accessCode n; port := port n;
     username := username n; options := options n;
     lastFrameData := lastFrameData n; alive := alive n; socket := v;
     reconnectTimeout := reconnectTimeout n;
     currentFrameBuffer := currentFrameBuffer n;
     expectedPayloadSize := expectedPayloadSize n;
     isReceivingImage := isReceivingImage n;
     connectAttempts := connectAttempts n;
     operationTimeout := operationTimeout n;
     hasResolvedOrRejected := hasResolvedOrRejected n |}.

Definition set_reconnectTimeout (v : option nat) (n : Node) : Node :=
  {| hostname := hostname n; accessCode := accessCode n; port := port n;
     username := username n; options := options n;
     lastFrameData := lastFrameData n; alive := alive n; socket := socket n;
     reconnectTimeout := v;
     currentFrameBuffer := currentFrameBuffer n;
     expectedPayloadSize := expectedPayloadSize n;
     isReceivingImage := isReceivingImage n;
     connectAttempts := connectAttempts n;
     operationTimeout := operationTimeout n;
     hasResolvedOrRejected := hasResolvedOrRejected n |}.

Definition set_currentFrameBuffer (v : Buffer) (n : Node) : Node :=
  {| hostname := hostname n; accessCode := accessCode n; port := port n;
     username := username n; options := options n;
     lastFrameData := lastFrameData n; alive := alive n; socket := socket n;
     reconnectTimeout := reconnectTimeout n;
     currentFrameBuffer := v;
     expectedPayloadSize := expectedPayloadSize n;
     isReceivingImage := isReceivingImage n;
     connectAttempts := connectAttempts n;
     operationTimeout := operationTimeout n;
     hasResolvedOrRejected := hasResolvedOrRejected n |}.

Definition set_expectedPayloadSize (v : Z) (n : Node) : Node :=
  {| hostname := hostname n; accessCode := accessCode n; port := port n;
     username := username n; options := options n;
     lastFrameData := lastFrameData n; alive := alive n; socket := socket n;
     reconnectTimeout := reconnectTimeout n;
     currentFrameBuffer := currentFrameBuffer n;
     expectedPayloadSize := v;
     isReceivingImage := isReceivingImage n;
     connectAttempts := connectAttempts n;
     operationTimeout := operationTimeout n;
     hasResolvedOrRejected := hasResolvedOrRejected n |}.

Definition set_isReceivingImage (v : bool) (n : Node) : Node :=
  {| hostname := hostname n; accessCode := accessCode n; port := port n;
     username := username n; options := options n;
     lastFrameData := lastFrameData n; alive := alive n; socket := socket n;
     reconnectTimeout := reconnectTimeout n;
     currentFrameBuffer := currentFrameBuffer n;
     expectedPayloadSize := expectedPayloadSize n;
     isReceivingImage := v;
     connectAttempts := connectAttempts n;
     operationTimeout := operationTimeout n;
     hasResolvedOrRejected := hasResolvedOrRejected n |}.

Definition set_connectAttempts (v : Z) (n : Node) : Node :=
  {| hostname := hostname n; accessCode := accessCode n; port := port n;
     username := username n; options := options n;
     lastFrameData := lastFrameData n; alive := alive n; socket := socket n;
     reconnectTimeout := reconnectTimeout n;
     currentFrameBuffer := currentFrameBuffer n;
     expectedPayloadSize := expectedPayloadSize n;
     isReceivingImage := isReceivingImage n;
     connectAttempts := v;
     operationTimeout := operationTimeout n;
     hasResolvedOrRejected := hasResolvedOrRejected n |}.

Definition set_operationTimeout (v : option nat) (n : Node) : Node :=
  {| hostname := hostname n; accessCode := accessCode n; port := port n;
     username := username n; options := options n;
     lastFrameData := lastFrameData n; alive := alive n; socket := socket n;
     reconnectTimeout := reconnectTimeout n;
     currentFrameBuffer := currentFrameBuffer n;
     expectedPayloadSize := expectedPayloadSize n;
     isReceivingImage := isReceivingImage n;
     connectAttempts := connectAttempts n;
     operationTimeout := v;
     hasResolvedOrRejected := hasResolvedOrRejected n |}.

Definition set_hasResolvedOrRejected (v : bool) (n : Node) : Node :=
  {| hostname := hostname n; accessCode := accessCode n; port := port n;
     username := username n; options := options n;
     lastFrameData := lastFrameData n; alive := alive n; socket := socket n;
     reconnectTimeout := reconnectTimeout n;
     currentFrameBuffer := currentFrameBuffer n;
     expectedPayloadSize := expectedPayloadSize n;
     isReceivingImage := isReceivingImage n;
     connectAttempts := connectAttempts n;
     operationTimeout := operationTimeout n;
     hasResolvedOrRejected := v |}.

(** [new PrinterCameraNode(hostname, accessCode, port, username, options)] *)
Definition new_PrinterCameraNode (hostname accessCode : string) (port : Z)
    (username : string) (opts : OptionsArg) : Node :=
  {| hostname := hostname; accessCode := accessCode; port := port;
     username := username;
     options := {| frameProcessingMode := default "single" (arg_frameProcessingMode opts);
                   timeoutMs := default 30000 (arg_timeoutMs opts) |};
     lastFrameData := None; alive := false; socket := None;
     reconnectTimeout := None; currentFrameBuffer := Buffer_alloc 0;
     expectedPayloadSize := 0; isReceivingImage := false;
     connectAttempts := 0; operationTimeout := None;
     hasResolvedOrRejected := false |}.

(** A TLS socket made by [tls.connect]: the options it was opened with,
    the [authData] its connect callback closes over, what [destroy],
    [write] and [setTimeout] did to it. *)
Record Socket := {
  sock_host : string;
  sock_port : Z;
  sock_authData : Buffer;
  sock_destroyed : bool;
  sock_written : list Buffer;
  sock_idleTimeout : option Z }.

Definition sock_destroy (s : Socket) : Socket :=
  {| sock_host := sock_host s; sock_port := sock_port s;
     sock_authData := sock_authData s; sock_destroyed := true;
     sock_written := sock_written s; sock_idleTimeout := sock_idleTimeout s |}.

(** [socket.write(data)]; a destroyed socket sends nothing. *)
Definition sock_write (data : Buffer) (s : Socket) : Socket :=
  {| sock_host := sock_host s; sock_port := sock_port s;
     sock_authData := sock_authData s; sock_destroyed := sock_destroyed s;
     sock_written := if sock_destroyed s then sock_written s
                     else sock_written s ++ [data];
     sock_idleTimeout := sock_idleTimeout s |}.

(** The two callbacks the node hands to [setTimeout]. *)
Inductive TimerKind := OperationTimer | ReconnectTimer.

#[export] Instance TimerKind_eq_dec : EqDecision TimerKind.
Proof. solve_decision. Defined.

Record Timer := { timer_kind : TimerKind; timer_delay : Z; timer_armed : bool }.

Definition timer_disarm (t : Timer) : Timer :=
  {| timer_kind := timer_kind t; timer_delay := timer_delay t; timer_armed := false |}.

(** What the program prints, one constructor per [console] call. *)
Inductive LogEntry :=
| LogAlreadyActive
| LogStarting (host mode : string)
| LogTimedOut (host : string) (ms : Z)
| LogDestroying (host : string)
| LogStopped (host : string)
| LogAttempt (host : string) (attempt : Z)
| LogEstablished (host : string)
| LogHeader (host : string) (size : Z)
| LogInvalidSize (host : string) (size : Z)
| LogCaptured (host : string) (bytes : nat)
| LogInvalidJpeg (host : string)
| LogErrorAfterProcessing (host message : string)
| LogSocketError (host message : string)
| LogClosed (host : string) (hadError : bool)
| LogSocketTimeout (host : string)
| LogConnectFailed (host : string) (attempts : Z)
| LogReconnecting (host : string) (delay : Z)
| LogSaved (printerIp path : string)
| LogSaveError (printerIp : string) (e : JsError)
| LogCaptureFailed (printerIp : string) (e : JsError).

(** What a camera node hands to the [resolve] or [reject] it was started
    with: the outcome of the capture session. *)
Inductive CaptureResult :=
| Success (bytes : Buffer)
| Failure (e : JsError).

(** A value a promise is fulfilled with. *)
Inductive JsValue :=
| VString (s : string)
| VBuffer (b : Buffer).

Inductive Outcome :=
| Fulfilled (v : JsValue)
| Rejected (e : JsError).

(** The functions of the host the capture operation calls: [path.resolve],
    [process.cwd] and the three [fs] calls, over a file system [FS]. *)
Record Platform (FS : Type) := {
  path_resolve : string -> string -> string;
  process_cwd : string;
  fs_existsSync : string -> FS -> bool;
  fs_mkdirSync : string -> FS -> Completion FS;
  fs_writeFileSync : string -> Buffer -> FS -> Completion FS }.
Arguments path_resolve {FS} _ _ _.
Arguments process_cwd {FS} _.
Arguments fs_existsSync {FS} _ _ _.
Arguments fs_mkdirSync {FS} _ _ _.
Arguments fs_writeFileSync {FS} _ _ _ _.

(** Everything the callbacks of one capture can read or change. *)
Record World (FS : Type) := {
  node : Node;
  sockets : list Socket;
  timers : list Timer;
  emitted : list string;
  console : list LogEntry;
  results : list CaptureResult;
  uncaught : list JsError;
  fs : FS;
  promise : option Outcome }.
Arguments node {FS} _.
Arguments sockets {FS} _.
Arguments timers {FS} _.
Arguments emitted {FS} _.
Arguments console {FS} _.
Arguments results {FS} _.
Arguments uncaught {FS} _.
Arguments fs {FS} _.
Arguments promise {FS} _.

Section Camera.
Context {FS : Type}.
Local Abbreviation W := (World FS).

Definition with_node (f : Node -> Node) (w : W) : W :=
  {| node := f (node w); sockets := sockets w; timers := timers w;
     emitted := emitted w; console := console w; results := results w;
     uncaught := uncaught w; fs := fs w; promise := promise w |}.

Definition set_sockets (v : list Socket) (w : W) : W :=
  {| node := node w; sockets := v; timers := timers w;
     emitted := emitted w; console := console w; results := results w;
     uncaught := uncaught w; fs := fs w; promise := promise w |}.

Definition set_timers (v : list Timer) (w : W) : W :=
  {| node := node w; sockets := sockets w; timers := v;
     emitted := emitted w; console := console w; results := results w;
     uncaught := uncaught w; fs := fs w; promise := promise w |}.

(** [this.emit(name)] *)
Definition emit (name : string) (w : W) : W :=
  {| node := node w; sockets := sockets w; timers := timers w;
     emitted := emitted w ++ [name]; console := console w; results := results w;
     uncaught := uncaught w; fs := fs w; promise := promise w |}.

(** [console.log], [console.warn], [console.error], [console.debug] *)
Definition log (e : LogEntry) (w : W) : W :=
  {| node := node w; sockets := sockets w; timers := timers w;
     emitted := emitted w; console := console w ++ [e]; results := results w;
     uncaught := uncaught w; fs := fs w; promise := promise w |}.

Definition push_result (r : CaptureResult) (w : W) : W :=
  {| node := node w; sockets := sockets w; timers := timers w;
     emitted := emitted w; console := console w; results := results w ++ [r];
     uncaught := uncaught w; fs := fs w; promise := promise w |}.

Definition push_uncaught (e : JsError) (w : W) : W :=
  {| node := node w; sockets := sockets w; timers := timers w;
     emitted := emitted w; console := console w; results := results w;
     uncaught := uncaught w ++ [e]; fs := fs w; promise := promise w |}.

Definition set_fs (v : FS) (w : W) : W :=
  {| node := node w; sockets := sockets w; timers := timers w;
     emitted := emitted w; console := console w; results := results w;
     uncaught := uncaught w; fs := v; promise := promise w |}.

Definition set_promise (v : option Outcome) (w : W) : W :=
  {| node := node w; sockets := sockets w; timers := timers w;
     emitted := emitted w; console := console w; results := results w;
     uncaught := uncaught w; fs := fs w; promise := v |}.

(** The state in which a capture begins: a camera that was just made,
    no socket, no timer, a pending promise. *)
Definition new_world (camera : Node) (fs0 : FS) : W :=
  {| node := camera; sockets := []; timers := []; emitted := [];
     console := []; results := []; uncaught := []; fs := fs0;
     promise := None |}.

(** Settling a promise: only the first call has an effect. *)
Definition settle (o : Outcome) (w : W) : W :=
  match promise w with
  | None => set_promise (Some o) w
  | Some _ => w
  end.

(** [setTimeout(callback, delay)]: the handle is the index of the new
    entry of the timer table. *)
Definition setTimeout (kind : TimerKind) (delay : Z) (w : W) : nat * W :=
  (length (timers w),
   set_timers (timers w ++ [{| timer_kind := kind; timer_delay := delay;
                               timer_armed := true |}]) w).

Definition clearTimeout (t : nat) (w : W) : W :=
  set_timers (alter timer_disarm t (timers w)) w.

(** [tls.connect(tlsOptions, callback)] followed by the registration of
    the listeners: a new entry of the socket table. *)
Definition tls_connect (host : string) (port : Z) (authData : Buffer) (w : W) : nat * W :=
  (length (sockets w),
   set_sockets (sockets w ++ [{| sock_host := host; sock_port := port;
                                 sock_authData := authData;
                                 sock_destroyed := false; sock_written := [];
                                 sock_idleTimeout := None |}]) w).

Definition socket_destroy (k : nat) (w : W) : W :=
  set_sockets (alter sock_destroy k (sockets w)) w.

Definition socket_write (k : nat) (data : Buffer) (w : W) : W :=
  set_sockets (alter (sock_write data) k (sockets w)) w.

Definition socket_setTimeout (k : nat) (ms : Z) (w : W) : W :=
  set_sockets (alter (fun s =>
    {| sock_host := sock_host s; sock_port := sock_port s;
       sock_authData := sock_authData s; sock_destroyed := sock_destroyed s;
       sock_written := sock_written s; sock_idleTimeout := Some ms |}) k (sockets w)) w.

(** A method that may throw: the state it leaves is kept either way. *)
Inductive Exec :=
| Done (w : W)
| Raised (e : JsError) (w : W).

(** An exception nobody catches is reported by the runtime. *)
Definition finish (x : Exec) : W :=
  match x with
  | Done w => w
  | Raised e w => push_uncaught e w
  end.

(** How one round of the [while] loop of the data listener ends. *)
Inductive Flow :=
| Continue (w : W)
| Exit (w : W).

(** [PrinterCameraNode.stop] *)
Definition stop (w : W) : W :=
  let w := with_node (set_alive false) w in
  let w := match operationTimeout (node w) with
           | Some t => with_node (set_operationTimeout None) (clearTimeout t w)
           | None => w
           end in
  let w := match reconnectTimeout (node w) with
           | Some t => with_node (set_reconnectTimeout None) (clearTimeout t w)
           | None => w
           end in
  let w := match socket (node w) with
           | Some k =>
               let w := log (LogDestroying (hostname (node w))) w in
               let w := socket_destroy k w in
               with_node (set_socket None) w
           | None => w
           end in
  let w := log (LogStopped (hostname (node w))) w in
  emit "stopped" w.

(** *** Vocabulary for the data listener *)

(** The state [w] with other decoder fields and [logs] printed since. *)
Definition decoder_upd (buf : Buffer) (exp : Z) (recv : bool)
    (logs : list LogEntry) (w : W) : W :=
  {| node := set_currentFrameBuffer buf
               (set_expectedPayloadSize exp (set_isReceivingImage recv (node w)));
     sockets := sockets w; timers := timers w; emitted := emitted w;
     console := console w ++ logs; results := results w;
     uncaught := uncaught w; fs := fs w; promise := promise w |}.

(** A state reached from [w] by changing the decoder fields only. *)
Definition decoded (w w' : W) : Prop :=
  exists buf exp recv logs, w' = decoder_upd buf exp recv logs w.

(** The state [w] with [data] received behind the bytes it holds. *)
Definition append (data : Buffer) (w : W) : W :=
  with_node (fun n => set_currentFrameBuffer (currentFrameBuffer n ++ data) n) w.

(** The size test of the header block. *)
Definition bad_size (L : Z) : bool := (L =? 0) || (15 * 1024 * 1024 <? L).

(** A bound on the rounds the loop of the listener can still make. *)
Definition rounds_left (w : W) : nat :=
  2 * length (currentFrameBuffer (node w)) + (if isReceivingImage (node w) then 1 else 0).

(** The condition of the [while] loop. *)
Definition loop_guard (w : W) : bool :=
  (0 <? Z.of_nat (length (currentFrameBuffer (node w))))
  && alive (node w) && negb (hasResolvedOrRejected (node w)).

(** The number of headers the listener has warned about. *)
Fixpoint invalid_sizes (l : list LogEntry) : nat :=
  match l with
  | [] => 0
  | LogInvalidSize _ _ :: l => S (invalid_sizes l)
  | _ :: l => invalid_sizes l
  end.

(** [n] calls of [stop] in a row. *)
Fixpoint stop_times (n : nat) (w : W) : W :=
  match n with
  | O => w
  | S n => stop (stop_times n w)
  end.

Section Callbacks.
(** The [resolve] and [reject] a node is started with; [None] is a missing
    argument.  A callback may itself change the state of the program.
    Outside this section every function takes the callbacks it calls, so
    [start], [_connect] and [_scheduleReconnect] keep [reject] only. *)
Variable resolve : option (Buffer -> W -> W).
Variable reject : option (JsError -> W -> W).

(** [if (resolve) resolve(v)]: an invocation is a capture result. *)
Definition call_resolve (v : Buffer) (w : W) : W :=
  match resolve with
  | Some f => f v (push_result (Success v) w)
  | None => w
  end.

(** [if (reject) reject(e)] *)
Definition call_reject (e : JsError) (w : W) : W :=
  match reject with
  | Some f => f e (push_result (Failure e) w)
  | None => w
  end.

(** [PrinterCameraNode._connect]; the listeners it registers are the
    [on_] functions below. *)
Definition _connect (w : W) : Exec :=
  if negb (alive (node w)) then
    Done (if bool_decide (is_Some reject) && negb (hasResolvedOrRejected (node w))
          then call_reject ErrAborted (with_node (set_hasResolvedOrRejected true) w)
          else w)
  else
    let w := with_node (fun n => set_connectAttempts (connectAttempts n + 1) n) w in
    let w := log (LogAttempt (hostname (node w)) (connectAttempts (node w))) w in
    match _buildAuthData (username (node w)) (accessCode (node w)) with
    | Throw e => Raised e w
    | Normal authData =>
        let '(k, w) := tls_connect (hostname (node w)) (port (node w)) authData w in
        let w := with_node (set_socket (Some k)) w in
        let w := socket_setTimeout k 20000 w in
        Done w
    end.

(** [PrinterCameraNode._scheduleReconnect] *)
Definition _scheduleReconnect (w : W) : W :=
  if negb (alive (node w)) || hasResolvedOrRejected (node w) then w
  else
    let w := match reconnectTimeout (node w) with
             | Some t => clearTimeout t w
             | None => w
             end in
    if 2 <? connectAttempts (node w) then
      let e := ErrConnectFailed (hostname (node w)) (connectAttempts (node w)) in
      let w := log (LogConnectFailed (hostname (node w)) (connectAttempts (node w))) w in
      if negb (hasResolvedOrRejected (node w)) then
        let w := with_node (set_hasResolvedOrRejected true) w in
        let w := stop w in
        call_reject e w
      else w
    else
      let delay := 3000 in
      let w := log (LogReconnecting (hostname (node w)) delay) w in
      let '(t, w) := setTimeout ReconnectTimer delay w in
      with_node (set_reconnectTimeout (Some t)) w.

(** The callback of the operation timer set by [start]. *)
Definition on_operationTimeout (w : W) : W :=
  if negb (hasResolvedOrRejected (node w)) then
    let e := ErrOperationTimeout (hostname (node w)) (timeoutMs (options (node w))) in
    let w := log (LogTimedOut (hostname (node w)) (timeoutMs (options (node w)))) w in
    let w := with_node (set_hasResolvedOrRejected true) w in
    let w := stop w in
    call_reject e w
  else w.

(** [PrinterCameraNode.start]; its boolean result, which no caller reads,
    is left out. *)
Definition start (w : W) : Exec :=
  if alive (node w) then
    let w := log LogAlreadyActive w in
    Done (if bool_decide (is_Some reject) && negb (hasResolvedOrRejected (node w))
          then call_reject ErrAlreadyInProgress (with_node (set_hasResolvedOrRejected true) w)
          else w)
  else
    let w := with_node (set_alive true) w in
    let w := with_node (set_hasResolvedOrRejected false) w in
    let w := log (LogStarting (hostname (node w)) (frameProcessingMode (options (node w)))) w in
    let w := if 0 <? timeoutMs (options (node w)) then
               let '(t, w) := setTimeout OperationTimer (timeoutMs (options (node w))) w in
               with_node (set_operationTimeout (Some t)) w
             else w in
    _connect w.

(** The callback given to [tls.connect]; [authData] is the record built by
    the call of [_connect] that made the socket. *)
Definition on_connect (authData : Buffer) (w : W) : Exec :=
  let w := log (LogEstablished (hostname (node w))) w in
  match socket (node w) with
  | None => Raised ErrNullSocket w
  | Some k =>
      let w := socket_write k authData w in
      let w := with_node (set_connectAttempts 0) w in
      let w := with_node (set_currentFrameBuffer (Buffer_alloc 0)) w in
      let w := with_node (set_isReceivingImage false) w in
      let w := with_node (set_expectedPayloadSize 0) w in
      Done w
  end.

(** The [if (!this.isReceivingImage)] block of the data listener. *)
Definition header_block (w : W) : Flow :=
  if negb (isReceivingImage (node w)) then
    if 16 <=? Z.of_nat (length (currentFrameBuffer (node w))) then
      let w := with_node (fun n =>
                 set_expectedPayloadSize (readUInt32LE (currentFrameBuffer n)) n) w in
      let w := log (LogHeader (hostname (node w)) (expectedPayloadSize (node w))) w in
      let w := with_node (fun n =>
                 set_currentFrameBuffer (subarray (currentFrameBuffer n) 16 None) n) w in
      let w := with_node (set_isReceivingImage true) w in
      if (expectedPayloadSize (node w) =? 0)
         || (15 * 1024 * 1024 <? expectedPayloadSize (node w)) then
        let w := log (LogInvalidSize (hostname (node w)) (expectedPayloadSize (node w))) w in
        let w := with_node (set_isReceivingImage false) w in
        Continue (with_node (set_currentFrameBuffer (Buffer_alloc 0)) w)
      else Continue w
    else Exit w
  else Continue w.

(** The marker test on a payload. *)
Definition is_jpeg (imageData : Buffer) : bool :=
  (0 <? Z.of_nat (length imageData))
  && Buffer_equals (subarray imageData 0 (Some (Z.of_nat (length JPEG_START_MARKER))))
                   JPEG_START_MARKER
  && Buffer_equals (subarray imageData
                      (Z.of_nat (length imageData) - Z.of_nat (length JPEG_END_MARKER)) None)
                   JPEG_END_MARKER.

(** The branch of the data listener taken for a payload that passes the
    marker test, up to its [return]. *)
Definition capture_frame (imageData : Buffer) (w : W) : W :=
  let w := with_node (set_lastFrameData (Some imageData)) w in
  let w := log (LogCaptured (hostname (node w)) (length imageData)) w in
  let w := if negb (hasResolvedOrRejected (node w)) then
             let w := with_node (set_hasResolvedOrRejected true) w in
             let w := match operationTimeout (node w) with
                      | Some t => clearTimeout t w
                      | None => w
                      end in
             call_resolve imageData w
           else w in
  stop w.

(** The [if (this.isReceivingImage)] block of the data listener; the
    [return] after a captured frame and the [break] both leave the loop. *)
Definition payload_block (w : W) : Flow :=
  if isReceivingImage (node w) then
    if expectedPayloadSize (node w) <=? Z.of_nat (length (currentFrameBuffer (node w))) then
      let imageData := subarray (currentFrameBuffer (node w)) 0
                                (Some (expectedPayloadSize (node w))) in
      let w := with_node (fun n =>
                 set_currentFrameBuffer
                   (subarray (currentFrameBuffer n) (expectedPayloadSize n) None) n) w in
      let w := with_node (set_isReceivingImage false) w in
      if is_jpeg imageData then Exit (capture_frame imageData w)
      else
        let w := if 0 <? Z.of_nat (length imageData)
                 then log (LogInvalidJpeg (hostname (node w))) w
                 else w in
        Continue (with_node (set_expectedPayloadSize 0) w)
    else Exit w
  else Continue w.

(** The [while] loop of the data listener; [fuel] bounds the number of
    rounds, and [data_loop_fuel] shows that the bound used by [on_data] is
    never reached. *)
Fixpoint data_loop (fuel : nat) (w : W) : W :=
  match fuel with
  | O => w
  | S fuel' =>
      if (0 <? Z.of_nat (length (currentFrameBuffer (node w))))
         && alive (node w) && negb (hasResolvedOrRejected (node w)) then
        match header_block w with
        | Exit w => w
        | Continue w =>
            match payload_block w with
            | Exit w => w
            | Continue w => data_loop fuel' w
            end
        end
      else w
  end.

(** The ['data'] listener. *)
Definition on_data (data : Buffer) (w : W) : W :=
  if negb (alive (node w)) || hasResolvedOrRejected (node w) then w
  else
    let w := with_node (fun n =>
               set_currentFrameBuffer (currentFrameBuffer n ++ data) n) w in
    data_loop (2 + 2 * length (currentFrameBuffer (node w))) w.

(** The ['error'] listener. *)
Definition on_error (err : SocketError) (w : W) : W :=
  if hasResolvedOrRejected (node w)
     && (bool_decide (err_code err = "ECONNRESET")
         || bool_decide (err_code err = "ERR_STREAM_DESTROYED")) then
    log (LogErrorAfterProcessing (hostname (node w)) (err_message err)) w
  else
    let w := log (LogSocketError (hostname (node w)) (err_message err)) w in
    let w := match socket (node w) with
             | Some k => socket_destroy k w
             | None => w
             end in
    if alive (node w) && negb (hasResolvedOrRejected (node w)) then _scheduleReconnect w
    else if negb (hasResolvedOrRejected (node w)) then
      let w := with_node (set_hasResolvedOrRejected true) w in
      call_reject (ErrSocket err) w
    else w.

(** The ['close'] listener. *)
Definition on_close (hadError : bool) (w : W) : W :=
  let w := log (LogClosed (hostname (node w)) hadError) w in
  if alive (node w) && negb (hasResolvedOrRejected (node w)) then _scheduleReconnect w
  else if negb (alive (node w)) && negb (hasResolvedOrRejected (node w)) && hadError then
    let w := with_node (set_hasResolvedOrRejected true) w in
    call_reject (ErrClosedUnexpectedly (hostname (node w))) w
  else w.

(** The ['timeout'] listener of the socket. *)
Definition on_timeout (w : W) : W :=
  let w := log (LogSocketTimeout (hostname (node w))) w in
  match socket (node w) with
  | Some k => socket_destroy k w
  | None => w
  end.

(** ** The events of a session *)

(** What the runtime can deliver to a started node: an event of a socket
    it made, the expiry of a timer it set, or a call of [stop] from
    outside. *)
Inductive Event :=
| SockConnect (k : nat)
| SockData (k : nat) (data : Buffer)
| SockError (k : nat) (err : SocketError)
| SockClose (k : nat) (hadError : bool)
| SockTimeout (k : nat)
| TimerFire (t : nat)
| CallStop.

(** One event.  A socket that was never made has no listeners, and a timer
    runs its callback once, if it was not cleared before. *)
Definition step (ev : Event) (w : W) : W :=
  match ev with
  | SockConnect k =>
      match sockets w !! k with
      | Some s => finish (on_connect (sock_authData s) w)
      | None => w
      end
  | SockData k data =>
      match sockets w !! k with
      | Some _ => on_data data w
      | None => w
      end
  | SockError k err =>
      match sockets w !! k with
      | Some _ => on_error err w
      | None => w
      end
  | SockClose k hadError =>
      match sockets w !! k with
      | Some _ => on_close hadError w
      | None => w
      end
  | SockTimeout k =>
      match sockets w !! k with
      | Some _ => on_timeout w
      | None => w
      end
  | TimerFire t =>
      match timers w !! t with
      | Some tm =>
          if timer_armed tm then
            let w := clearTimeout t w in
            match timer_kind tm with
            | OperationTimer => on_operationTimeout w
            | ReconnectTimer => finish (_connect w)
            end
          else w
      | None => w
      end
  | CallStop => stop w
  end.

Definition run (evs : list Event) (w : W) : W := foldl (fun w ev => step ev w) w evs.

(** What the attempt counter is after an event: the connect callback of
    a socket the node made, run while the node holds a socket, sets it to
    zero; the expiry of an armed reconnect timer on a live node adds one;
    nothing else touches it. *)
Definition attempts_after (ev : Event) (w : W) : Z :=
  match ev with
  | SockConnect k =>
      match sockets w !! k, socket (node w) with
      | Some _, Some _ => 0
      | _, _ => connectAttempts (node w)
      end
  | TimerFire t =>
      match timers w !! t with
      | Some tm =>
          if timer_armed tm && bool_decide (timer_kind tm = ReconnectTimer)
             && alive (node w)
          then connectAttempts (node w) + 1
          else connectAttempts (node w)
      | None => connectAttempts (node w)
      end
  | _ => connectAttempts (node w)
  end.

(** Feeding the data listener one chunk per call. *)
Definition feed_chunks (chunks : list Buffer) (w : W) : W :=
  foldl (fun w c => on_data c w) w chunks.

(** *** A transport that fails *)





(** One round of the loop. *)
Definition one_round (w : W) : Flow :=
  match header_block w with
  | Exit w => Exit w
  | Continue w => payload_block w
  end.

(** The loop as [on_data] runs it. *)
Definition drain (w : W) : W :=
  data_loop (2 + 2 * length (currentFrameBuffer (node w))) w.

(** A round from [w] either leaves the loop or goes on from a state that
    is closer to the end, with an expected size that is not negative. *)
Inductive Round (w : W) : Flow -> Prop :=
| round_exit w' :
    Round w (Exit w')
| round_continue w' :
    (rounds_left w' < rounds_left w)%nat ->
    0 <= expectedPayloadSize (node w') ->
    Round w (Continue w').

(** How a round on the buffer of [w] relates to the round on the same
    buffer with the bytes [b] behind it: the short round waits for bytes,
    both capture the same frame, both go on in step, or both meet a bad
    header and empty the buffer. *)
Inductive Lockstep (b : Buffer) (w : W) : Flow -> Flow -> Prop :=
| lockstep_wait w' long :
    alive (node w') = alive (node w) ->
    hasResolvedOrRejected (node w') = hasResolvedOrRejected (node w) ->
    invalid_sizes (console w') = invalid_sizes (console w) ->
    0 <= expectedPayloadSize (node w') ->
    match long with Exit x => x | Continue x => drain x end = drain (append b w') ->
    Lockstep b w (Exit w') long
| lockstep_frame img wd :
    hasResolvedOrRejected (node wd) = false ->
    Lockstep b w (Exit (capture_frame img wd))
                 (Exit (capture_frame img (append b wd)))
| lockstep_next w' :
    alive (node w') = alive (node w) ->
    hasResolvedOrRejected (node w') = hasResolvedOrRejected (node w) ->
    invalid_sizes (console w') = invalid_sizes (console w) ->
    0 <= expectedPayloadSize (node w') ->
    (rounds_left w' < rounds_left w)%nat ->
    Lockstep b w (Continue w') (Continue (append b w'))
| lockstep_reset w' :
    currentFrameBuffer (node w') = [] ->
    0 <= expectedPayloadSize (node w') ->
    invalid_sizes (console w') = S (invalid_sizes (console w)) ->
    Lockstep b w (Continue w') (Continue w').

End Callbacks.

(** ** The public operation *)

Variable P : Platform FS.

(** The [options] argument of [captureSingleFrameFromPrinter]. *)
Record CaptureOptions := {
  opt_port : option Z;
  opt_username : option string;
  opt_outputDir : option string;
  opt_timeoutMs : option Z }.

(** [printerIp.replace(/[.:]/g, '_')] *)
Fixpoint safe_name (s : string) : string :=
  match s with
  | EmptyString => EmptyString
  | String c s' =>
      String (if bool_decide (c = "."%char) || bool_decide (c = ":"%char)
              then "_"%char else c) (safe_name s')
  end.

(** The [resolve] callback given to [camera.start]. *)
Definition capture_resolve (printerIp outputDir : string)
    (imageBuffer : Buffer) (w : W) : W :=
  let safePrinterName := safe_name printerIp in
  let outputFilename := safePrinterName +:+ ".jpg" in
  let fullImagePath := path_resolve P outputDir outputFilename in
  let catch e w :=
    let w := log (LogSaveError printerIp e) w in
    settle (Rejected e) w in
  let w :=
    match (if negb (fs_existsSync P outputDir (fs w))
           then fs_mkdirSync P outputDir (fs w) else Normal (fs w)) with
    | Throw e => catch e w
    | Normal fs1 =>
        let w := set_fs fs1 w in
        match fs_writeFileSync P fullImagePath imageBuffer (fs w) with
        | Throw e => catch e w
        | Normal fs2 =>
            let w := set_fs fs2 w in
            let w := log (LogSaved printerIp fullImagePath) w in
            settle (Fulfilled (VString fullImagePath)) w
        end
    end in
  stop w.

(** What the [try] block of [capture_resolve] amounts to: the file system
    it leaves, the line it prints and the outcome it gives the promise. *)
Definition save_frame (printerIp outputDir : string) (img : Buffer) (f : FS)
    : FS * LogEntry * Outcome :=
  let path := path_resolve P outputDir (safe_name printerIp +:+ ".jpg") in
  match (if negb (fs_existsSync P outputDir f)
         then fs_mkdirSync P outputDir f else Normal f) with
  | Throw e => (f, LogSaveError printerIp e, Rejected e)
  | Normal f1 =>
      match fs_writeFileSync P path img f1 with
      | Throw e => (f1, LogSaveError printerIp e, Rejected e)
      | Normal f2 => (f2, LogSaved printerIp path, Fulfilled (VString path))
      end
  end.

(** The [reject] callback given to [camera.start]. *)
Definition capture_reject (printerIp : string) (err : JsError) (w : W) : W :=
  let w := log (LogCaptureFailed printerIp err) w in
  let w := stop w in
  settle (Rejected err) w.

(** The directory the frame is saved in. *)
Definition capture_outputDir (opts : CaptureOptions) : string :=
  default (process_cwd P) (opt_outputDir opts).

(** What the promise executor leaves behind: no camera and a rejected
    promise, or a started session. *)
Inductive Launch :=
| NoSession (o : Outcome)
| Session (w : W).

(** [captureSingleFrameFromPrinter(printerIp, accessCode, options)], run on
    the file system [fs0]. *)
Definition captureSingleFrameFromPrinter (printerIp accessCode : string)
    (opts : CaptureOptions) (fs0 : FS) : Launch :=
  let port := default 6000 (opt_port opts) in
  let username := default "bblp" (opt_username opts) in
  let outputDir := capture_outputDir opts in
  let timeoutMs := default 30000 (opt_timeoutMs opts) in
  if bool_decide (printerIp = "") || bool_decide (accessCode = "") then
    NoSession (Rejected ErrRequired)
  else
    let camera := new_PrinterCameraNode printerIp accessCode port username
                    {| arg_frameProcessingMode := Some "single";
                       arg_timeoutMs := Some timeoutMs |} in
    let w := new_world camera fs0 in
    match start (Some (capture_reject printerIp)) w with
    | Done w => Session w
    | Raised e w => Session (settle (Rejected e) w)
    end.

(** The events of a session started by the public operation. *)
Definition session_step (printerIp outputDir : string) : Event -> W -> W :=
  step (Some (capture_resolve printerIp outputDir)) (Some (capture_reject printerIp)).

Definition session_run (printerIp outputDir : string) : list Event -> W -> W :=
  run (Some (capture_resolve printerIp outputDir)) (Some (capture_reject printerIp)).

End Camera.

Arguments Done {FS} w.
Arguments Raised {FS} e w.
Arguments Continue {FS} w.
Arguments Exit {FS} w.
Arguments NoSession {FS} o.
Arguments Session {FS} w.

(** ** A host for the examples *)

(** An in-memory file system: the directories and the files, newest
    first.  Writing to the path of a directory fails, as on a real host;
    joining paths assumes an absolute, normalised directory. *)
Record MemFS := { dirs : list string; files : list (string * Buffer) }.

Definition mem_exists (p : string) (m : MemFS) : bool :=
  bool_decide (p ∈ dirs m) || bool_decide (p ∈ (files m).*1).

Definition mem_mkdir (p : string) (m : MemFS) : Completion MemFS :=
  Normal {| dirs := p :: dirs m; files := files m |}.

Definition mem_write (p : string) (data : Buffer) (m : MemFS) : Completion MemFS :=
  if bool_decide (p ∈ dirs m) then Throw (ErrHost "EISDIR")
  else Normal {| dirs := dirs m; files := (p, data) :: files m |}.

Definition mem_host : Platform MemFS :=
  {| path_resolve := fun d f => d +:+ "/" +:+ f;
     process_cwd := "/srv/bot";
     fs_existsSync := mem_exists;
     fs_mkdirSync := mem_mkdir;
     fs_writeFileSync := mem_write |}.

Definition empty_fs : MemFS := {| dirs := ["/srv/bot"]; files := [] |}.

Definition default_options : CaptureOptions :=
  {| opt_port := None; opt_username := None; opt_outputDir := None;
     opt_timeoutMs := None |}.

Definition no_timeout_options : CaptureOptions :=
  {| opt_port := None; opt_username := None; opt_outputDir := None;
     opt_timeoutMs := Some 0 |}.

(** A header declaring ten payload bytes, a ten-byte JPEG, and a header
    declaring no payload at all. *)
Definition header10 : Buffer := [x0a; x00; x00; x00] ++ replicate 12 x00.
Definition jpeg10 : Buffer := [xff; xd8; xff; xe0; x01; x02; x03; x04; xff; xd9].
Definition header0 : Buffer := replicate 16 x00.

Definition example_ip : string := "192.168.1.5".
Definition example_code : string := "12345678".
Definition example_dir : string := "/srv/bot".

Definition example_resolve : option (Buffer -> World MemFS -> World MemFS) :=
  Some (capture_resolve mem_host example_ip example_dir).
Definition example_reject : option (JsError -> World MemFS -> World MemFS) :=
  Some (capture_reject example_ip).

(** The session of [captureSingleFrameFromPrinter("192.168.1.5",
    "12345678")] as [start] leaves it, the same once the TLS handshake is
    done, and once it has captured [jpeg10]. *)
Definition example_started : World MemFS :=
  finish (start example_reject
            (new_world (new_PrinterCameraNode example_ip example_code 6000 "bblp"
                          {| arg_frameProcessingMode := Some "single";
                             arg_timeoutMs := Some 30000 |})
                       empty_fs)).

Definition example_connected : World MemFS :=
  step example_resolve example_reject (SockConnect 0) example_started.

Definition example_captured : World MemFS :=
  step example_resolve example_reject (SockData 0 (header10 ++ jpeg10)) example_connected.

(** The same session started with [timeoutMs: 0]. *)
Definition example_started_no_timer : World MemFS :=
  finish (start example_reject
            (new_world (new_PrinterCameraNode example_ip example_code 6000 "bblp"
                          {| arg_frameProcessingMode := Some "single";
                             arg_timeoutMs := Some 0 |})
                       empty_fs)).

Definition econnrefused : SocketError :=
  {| err_code := "ECONNREFUSED"; err_message := "connect ECONNREFUSED" |}.

(** ** Invariants of a session *)

(** What holds of a session that was started once: no result before the
    flag is set and at most one after, a settled session is stopped, and a
    stopped session holds neither a socket nor a timer. *)
Definition Inv {FS : Type} (w : World FS) : Prop :=
  (hasResolvedOrRejected (node w) = false -> results w = [])
  /\ (length (results w) <= 1)%nat
  /\ (hasResolvedOrRejected (node w) = true -> alive (node w) = false)
  /\ (alive (node w) = false ->
      socket (node w) = None /\ operationTimeout (node w) = None
      /\ reconnectTimeout (node w) = None).

(** What an event cannot change in a settled session. *)
Definition outcome_kept {FS : Type} (w w' : World FS) : Prop :=
  hasResolvedOrRejected (node w') = true
  /\ results w' = results w /\ promise w' = promise w /\ fs w' = fs w.

(** The fields of a node that are set once, by the constructor. *)
Definition same_config {FS : Type} (w w' : World FS) : Prop :=
  hostname (node w') = hostname (node w)
  /\ accessCode (node w') = accessCode (node w)
  /\ port (node w') = port (node w)
  /\ username (node w') = username (node w)
  /\ options (node w') = options (node w).

(** A rejection by the operation timer. *)
Definition is_operation_timeout (r : CaptureResult) : bool :=
  match r with
  | Failure (ErrOperationTimeout _ _) => true
  | _ => false
  end.

(** A captured frame, or the rejection after the last retry. *)
Definition is_capture_or_exhaustion (r : CaptureResult) : bool :=
  match r with
  | Success _ => true
  | Failure (ErrConnectFailed _ _) => true
  | _ => false
  end.

(** A session without an operation timer: no such timer was ever set,
    and no result is a timeout. *)
Definition NoTimeout {FS : Type} (w : World FS) : Prop :=
  Forall (fun tm => timer_kind tm = ReconnectTimer) (timers w)
  /\ Forall (fun r => is_operation_timeout r = false) (results w).

(** A session nobody has stopped from outside: it is alive until it
    settles, and it settled by a capture or by running out of retries. *)
Definition Unstopped {FS : Type} (w : World FS) : Prop :=
  (alive (node w) = true \/ hasResolvedOrRejected (node w) = true)
  /\ Forall (fun r => is_capture_or_exhaustion r = true) (results w).






(** What the resolve and reject callbacks of the public operation leave
    behind, for a session started on the file system [fs0]: a pending
    promise and an untouched file system until the session settles; after
    a capture, the file system and the outcome of [save_frame]; after a
    failure, the rejection. *)
Definition Saved {FS : Type} (P : Platform FS) (printerIp outputDir : string)
    (fs0 : FS) (w : World FS) : Prop :=
  (hasResolvedOrRejected (node w) = false -> promise w = None /\ fs w = fs0)
  /\ (forall img, results w = [Success img] ->
        promise w = Some (save_frame P printerIp outputDir img fs0).2
        /\ fs w = (save_frame P printerIp outputDir img fs0).1.1)
  /\ (forall e, results w = [Failure e] ->
        promise w = Some (Rejected e) /\ fs w = fs0).

(** Every armed timer is one the node holds, under the handle of its
    kind, and an armed reconnect timer waits three seconds. *)
Definition TimersHeld {FS : Type} (w : World FS) : Prop :=
  forall t tm, timers w !! t = Some tm -> timer_armed tm = true ->
    match timer_kind tm with
    | OperationTimer => operationTimeout (node w) = Some t
    | ReconnectTimer => reconnectTimeout (node w) = Some t /\ timer_delay tm = 3000
    end.

(** The timer table [ts] has a timer of the kind [k] under the handle
    [t]. *)
Definition kind_at (ts : list Timer) (t : nat) (k : TimerKind) : Prop :=
  exists tm, ts !! t = Some tm /\ timer_kind tm = k.

(** A session whose operation timer, of [ms] milliseconds, is the first
    timer that was set: it is armed as long as the node is alive, and the
    reconnect timer the node holds is another timer. *)
Definition OperationPending {FS : Type} (ms : Z) (w : World FS) : Prop :=
  (alive (node w) = true ->
   operationTimeout (node w) = Some 0%nat
   /\ timers w !! 0%nat = Some {| timer_kind := OperationTimer; timer_delay := ms;
                                 timer_armed := true |})
  /\ kind_at (timers w) 0 OperationTimer
  /\ (forall m, reconnectTimeout (node w) = Some m -> kind_at (timers w) m ReconnectTimer).

(** The decoder waits for a payload of a valid size only, and a frame that
    was handed out passed the marker test, is no longer than 15 MiB and is
    the last frame of the node. *)
Definition FramesValid {FS : Type} (w : World FS) : Prop :=
  (isReceivingImage (node w) = true ->
   0 < expectedPayloadSize (node w) <= 15 * 1024 * 1024)
  /\ forall img, Success img ∈ results w ->
       is_jpeg img = true /\ Z.of_nat (length img) <= 15 * 1024 * 1024
       /\ lastFrameData (node w) = Some img.

(** What a node that is not alive keeps from [w] to [w']: it stays as it
    is, makes no socket, sets no timer and hands out no frame. *)
Definition silent_since {FS : Type} (w w' : World FS) : Prop :=
  alive (node w') = false
  /\ length (sockets w') = length (sockets w)
  /\ length (timers w') = length (timers w)
  /\ lastFrameData (node w') = lastFrameData (node w)
  /\ forall img, Success img ∈ results w' -> Success img ∈ results w.

(** A session that never got a socket: the operation timer is all it
    has. *)
Definition Socketless {FS : Type} (w : World FS) : Prop :=
  sockets w = []
  /\ socket (node w) = None
  /\ Forall (fun tm => timer_kind tm = OperationTimer) (timers w).

(** Every socket was opened to [host] and the port [prt], carries the
    record [rec] for its handshake, and was sent nothing but that record;
    [rec] is the record of the credentials of the node. *)
Definition OnlyAuth {FS : Type} (host : string) (prt : Z) (rec : Buffer)
    (w : World FS) : Prop :=
  hostname (node w) = host /\ port (node w) = prt
  /\ _buildAuthData (username (node w)) (accessCode (node w)) = Normal rec
  /\ Forall (fun s => sock_host s = host /\ sock_port s = prt
                      /\ sock_authData s = rec
                      /\ Forall (fun d => d = rec) (sock_written s)) (sockets w).

(** The attempt counter stays within three, a reconnect is pending only
    when an attempt is left, and a session that gave up reports three
    attempts. *)
Definition AttemptBudget {FS : Type} (w : World FS) : Prop :=
  0 <= connectAttempts (node w) <= 3
  /\ (forall t tm, timers w !! t = Some tm -> timer_armed tm = true ->
        timer_kind tm = ReconnectTimer -> connectAttempts (node w) <= 2)
  /\ (forall host n, Failure (ErrConnectFailed host n) ∈ results w -> n = 3).

(** A session that set its flag has handed out a result. *)
Definition Answered {FS : Type} (w : World FS) : Prop :=
  hasResolvedOrRejected (node w) = true -> results w <> [].

(** What a session can hand out when nobody stops it from outside: a
    frame, the failure after the third attempt, or the operation
    timeout. *)
Definition session_outcome (host : string) (ms : Z) (r : CaptureResult) : Prop :=
  match r with
  | Success _ => True
  | Failure e => e = ErrConnectFailed host 3 \/ e = ErrOperationTimeout host ms
  end.

(** A session of the printer [host] with the timeout [ms] that nobody has
    stopped from outside: it is alive until it settles, and its results
    are of the three kinds above. *)
Definition Outcomes {FS : Type} (host : string) (ms : Z) (w : World FS) : Prop :=
  hostname (node w) = host /\ timeoutMs (options (node w)) = ms
  /\ (alive (node w) = true \/ hasResolvedOrRejected (node w) = true)
  /\ Forall (session_outcome host ms) (results w).



(** ** Proof tools *)

Ltac destruct_world w :=
  let ho := fresh "ho" in let ac := fresh "ac" in let po := fresh "po" in
  let us := fresh "us" in let op := fresh "op" in let lf := fresh "lf" in
  let al := fresh "al" in let so := fresh "so" in let rt := fresh "rt" in
  let cb := fresh "cb" in let ep := fresh "ep" in let ir := fresh "ir" in
  let ca := fresh "ca" in let ot := fresh "ot" in let hr := fresh "hr" in
  let ss := fresh "ss" in let ts := fresh "ts" in let em := fresh "em" in
  let co := fresh "co" in let rs := fresh "rs" in let un := fresh "un" in
  let fi := fresh "fi" in let pr := fresh "pr" in
  destruct w as [[ho ac po us op lf al so rt cb ep ir ca ot hr] ss ts em co rs un fi pr].

(** The same, with a case for every value of the flags and handles. *)
Ltac split_world w :=
  let ho := fresh "ho" in let ac := fresh "ac" in let po := fresh "po" in
  let us := fresh "us" in let op := fresh "op" in let lf := fresh "lf" in
  let al := fresh "al" in let so := fresh "so" in let rt := fresh "rt" in
  let cb := fresh "cb" in let ep := fresh "ep" in let ir := fresh "ir" in
  let ca := fresh "ca" in let ot := fresh "ot" in let hr := fresh "hr" in
  let ss := fresh "ss" in let ts := fresh "ts" in let em := fresh "em" in
  let co := fresh "co" in let rs := fresh "rs" in let un := fresh "un" in
  let fi := fresh "fi" in let pr := fresh "pr" in
  destruct w as [[ho ac po us op lf al so rt cb ep ir ca ot hr] ss ts em co rs un fi pr];
  destruct al, hr, so, rt, ot, pr.

(** Unfolding the methods and the accessors of the state, nothing else. *)
Ltac wsimpl :=
  cbv beta iota zeta delta
    [ stop capture_frame call_resolve call_reject capture_reject
      settle _scheduleReconnect on_operationTimeout on_error on_close on_timeout
      on_connect finish header_block payload_block decoder_upd append
      with_node set_sockets set_timers emit log push_result push_uncaught set_fs
      set_promise setTimeout clearTimeout tls_connect socket_destroy socket_write
      socket_setTimeout
      node sockets timers emitted console results uncaught fs promise
      hostname accessCode port username options lastFrameData alive socket
      reconnectTimeout currentFrameBuffer expectedPayloadSize isReceivingImage
      connectAttempts operationTimeout hasResolvedOrRejected
      set_lastFrameData set_alive set_socket set_reconnectTimeout
      set_currentFrameBuffer set_expectedPayloadSize set_isReceivingImage
      set_connectAttempts set_operationTimeout set_hasResolvedOrRejected
      timeoutMs frameProcessingMode negb andb orb ] in *.

(** Case analysis on whatever a [match] or [if] of the goal looks at. *)
Ltac case_scrutinee :=
  match goal with
  | |- context [match ?x with _ => _ end] =>
      lazymatch x with
      | context [match _ with _ => _ end] => fail
      | _ => first [ is_var x; destruct x | destruct x eqn:? ]
      end
  end.

Ltac inv_solve :=
  unfold Inv in *; wsimpl;
  repeat match goal with
         | H : _ /\ _ |- _ => destruct H
         | H : ?x = ?x -> _ |- _ => specialize (H eq_refl)
         | H : true = false -> _ |- _ => clear H
         | H : false = true -> _ |- _ => clear H
         end;
  subst; simplify_eq;
  repeat split; intros; simplify_eq;
  rewrite ?length_app in *; cbn [length app Nat.add] in *; try lia; auto.

(** A listener on every value of the flags and handles of the state. *)
Ltac by_cases w tac :=
  split_world w; wsimpl; try done; repeat (case_scrutinee; wsimpl); tac.

Ltac kept_solve := unfold outcome_kept; wsimpl; repeat split; try done.

Ltac config_solve := unfold same_config; wsimpl; repeat split; try done.

Ltac forall_solve :=
  repeat first
    [ assumption | done
    | apply Forall_app_2 | apply Forall_cons_2 | apply Forall_nil_2
    | apply Forall_alter; [|by intros [] ? ?] ].

Ltac notimeout_solve :=
  unfold NoTimeout, Unstopped in *; wsimpl;
  repeat match goal with
         | H : _ /\ _ |- _ => destruct H
         | H : _ \/ _ |- _ => destruct H
         end;
  try done; repeat split; auto; forall_solve.


Ltac saved_solve :=
  unfold Saved in *; wsimpl;
  repeat match goal with
         | H : _ /\ _ |- _ => destruct H
         | H : ?x = ?x -> _ |- _ => specialize (H eq_refl)
         end;
  subst; simplify_eq;
  repeat split; intros; cbn [app] in *; simplify_eq; auto.

(** * Theorems *)

(** ** The authentication record *)

Example auth_bblp :
  _buildAuthData "bblp" "12345678" =
  Normal ([x40; x00; x00; x00; x00; x30; x00; x00] ++ replicate 8 x00
          ++ [x62; x62; x6c; x70] ++ replicate 28 x00
          ++ [x31; x32; x33; x34; x35; x36; x37; x38] ++ replicate 24 x00).
Proof. reflexivity. Qed.

Lemma Buffer_copy_fits (src target : Buffer) (off : nat) :
  (off + length src <= length target)%nat ->
  Buffer_copy src target off = take off target ++ src ++ drop (off + length src) target.
Proof.
  revert target off. induction src as [|b src IH]; intros target off Hfit;
    cbn [Buffer_copy length app] in *.
  - rewrite Nat.add_0_r. by rewrite take_drop.
  - rewrite IH by (rewrite length_insert; lia).
    rewrite drop_insert_lt by lia.
    rewrite (take_S_r _ _ b) by (apply list_lookup_insert_eq; lia).
    rewrite take_insert_ge by lia.
    rewrite <- app_assoc. cbn [app].
    by replace (S off + length src)%nat with (off + S (length src))%nat by lia.
Qed.

Lemma zero_pad_fits (count off : nat) (buf : Buffer) :
  (off + count <= length buf)%nat ->
  zero_pad count off buf =
  Normal (take off buf ++ replicate count x00 ++ drop (off + count) buf, (off + count)%nat).
Proof.
  revert off buf. induction count as [|count IH]; intros off buf Hfit;
    cbn [zero_pad replicate app].
  - rewrite Nat.add_0_r. by rewrite take_drop.
  - unfold writeUInt8. rewrite decide_True by lia. cbn [mbind Completion_bind].
    rewrite IH by (rewrite length_insert; lia).
    rewrite drop_insert_lt by lia.
    rewrite (take_S_r _ _ x00) by (apply list_lookup_insert_eq; lia).
    rewrite take_insert_ge by lia.
    rewrite <- app_assoc. cbn [app].
    by replace (S off + count)%nat with (off + S count)%nat by lia.
Qed.

(** Writing one 32-byte field after the prefix [p] of a buffer whose rest
    is still zero. *)
Lemma auth_field (p u : Buffer) (m : nat) :
  (length u <= 32)%nat -> (32 <= m)%nat ->
  zero_pad (32 - length u) (length p + length u)
           (Buffer_copy u (p ++ replicate m x00) (length p)) =
  Normal (p ++ pad32 u ++ replicate (m - 32) x00, (length p + 32)%nat).
Proof.
  intros Hu Hm.
  rewrite Buffer_copy_fits by (rewrite length_app, length_replicate; lia).
  rewrite take_app_length, drop_app_ge by lia.
  rewrite drop_replicate.
  rewrite zero_pad_fits by (rewrite !length_app, length_replicate; lia).
  replace (m - (length p + length u - length p))%nat with (m - length u)%nat by lia.
  f_equal. f_equal; [|lia].
  rewrite (app_assoc p u), take_app_length' by (rewrite length_app; lia).
  rewrite drop_app_ge by (rewrite length_app; lia).
  rewrite drop_replicate, length_app. unfold pad32.
  rewrite <- !app_assoc. do 4 f_equal. lia.
Qed.

(** What [_buildAuthData] returns for fields that fit. *)
Lemma buildAuthData_fits (username accessCode : string) :
  (length (Buffer_from_ascii username) <= 32)%nat ->
  (length (Buffer_from_ascii accessCode) <= 32)%nat ->
  _buildAuthData username accessCode = Normal (auth_record username accessCode).
Proof.
  intros Hu Hc. cbv beta zeta delta [_buildAuthData].
  change (writeUInt32LE 64 0 (Buffer_alloc 80))
    with (Normal (auth_magic ++ replicate 76 x00)). cbn [mbind Completion_bind].
  change (writeUInt32LE 12288 (0 + 4) (auth_magic ++ replicate 76 x00))
    with (Normal (auth_magic ++ auth_message_type ++ replicate 72 x00)). cbn [mbind Completion_bind].
  change (writeUInt32LE 0 (0 + 4 + 4) (auth_magic ++ auth_message_type ++ replicate 72 x00))
    with (Normal (auth_magic ++ auth_message_type ++ replicate 72 x00)). cbn [mbind Completion_bind].
  change (writeUInt32LE 0 (0 + 4 + 4 + 4) (auth_magic ++ auth_message_type ++ replicate 72 x00))
    with (Normal ((auth_magic ++ auth_message_type ++ replicate 8 x00) ++ replicate 64 x00)).
  cbn [mbind Completion_bind].
  pose proof (auth_field (auth_magic ++ auth_message_type ++ replicate 8 x00)
                (Buffer_from_ascii username) 64 Hu ltac:(lia)) as H1.
  change (length (auth_magic ++ auth_message_type ++ replicate 8 x00)) with 16%nat in H1.
  change (0 + 4 + 4 + 4 + 4)%nat with 16%nat.
  rewrite H1. cbn [mbind Completion_bind].
  pose proof (auth_field ((auth_magic ++ auth_message_type ++ replicate 8 x00)
                            ++ pad32 (Buffer_from_ascii username))
                (Buffer_from_ascii accessCode) 32 Hc ltac:(lia)) as H2.
  assert (length ((auth_magic ++ auth_message_type ++ replicate 8 x00)
                    ++ pad32 (Buffer_from_ascii username)) = 48%nat) as Hlen.
  { unfold pad32. rewrite !length_app, !length_replicate. cbn [length auth_magic auth_message_type]. lia. }
  rewrite Hlen in H2.
  change (64 - 32)%nat with 32%nat.
  rewrite (app_assoc _ (pad32 _) (replicate 32 x00)).
  change (16 + 32)%nat with 48%nat. rewrite H2. cbn [mbind Completion_bind mret Completion_ret].
  unfold auth_record. rewrite app_nil_r. by rewrite <- !app_assoc.
Qed.

Lemma length_Buffer_from_ascii (s : string) :
  length (Buffer_from_ascii s) = String.length s.
Proof.
  unfold Buffer_from_ascii, String.list_byte_of_string. rewrite length_map.
  induction s as [|c s IH]; simpl; congruence.
Qed.

Lemma length_auth_record (username accessCode : string) :
  (String.length username <= 32)%nat ->
  (String.length accessCode <= 32)%nat ->
  length (auth_record username accessCode) = 80%nat.
Proof.
  intros Hu Hc. unfold auth_record, pad32.
  rewrite !length_app, !length_replicate, !length_Buffer_from_ascii.
  cbn [length auth_magic auth_message_type]. lia.
Qed.

Lemma alter_snoc {A : Type} (f : A -> A) (l : list A) (x : A) :
  alter f (length l) (l ++ [x]) = l ++ [f x].
Proof.
  rewrite <- (Nat.add_0_r (length l)). by rewrite alter_app_r.
Qed.

Lemma lookup_snoc {A : Type} (l : list A) (x : A) :
  (l ++ [x]) !! length l = Some x.
Proof. by rewrite list_lookup_middle. Qed.

(** C8.  For a username and an access code of at most 32 ASCII bytes
    each, [_buildAuthData] returns exactly 80 bytes: the magic constant
    40 00 00 00, the message type 00 30 00 00, eight zero bytes, the
    username zero-padded to 32 bytes and the access code zero-padded to 32
    bytes.  [_connect] attaches that record to the socket it opens, nothing
    is written before the handshake, and the first thing the connect
    callback does is to write the record to the socket. *)
Theorem auth_record_layout {FS : Type}
    (resolve : option (Buffer -> World FS -> World FS))
    (reject : option (JsError -> World FS -> World FS)) (w : World FS) :
  alive (node w) = true ->
  is_ascii (username (node w)) = true ->
  is_ascii (accessCode (node w)) = true ->
  (String.length (username (node w)) <= 32)%nat ->
  (String.length (accessCode (node w)) <= 32)%nat ->
  let record := auth_magic ++ auth_message_type ++ replicate 8 x00
                ++ pad32 (Buffer_from_ascii (username (node w)))
                ++ pad32 (Buffer_from_ascii (accessCode (node w))) in
  let k := length (sockets w) in
  length record = 80%nat
  /\ _buildAuthData (username (node w)) (accessCode (node w)) = Normal record
  /\ exists w', _connect reject w = Done w'
       /\ socket (node w') = Some k
       /\ sock_written <$> sockets w' !! k = Some []
       /\ sock_written <$> sockets (step resolve reject (SockConnect k) w') !! k
          = Some [record].
Proof.
  intros Hal _ _ Hu Hc record k.
  assert (_buildAuthData (username (node w)) (accessCode (node w)) = Normal record) as Hb.
  { apply buildAuthData_fits; by rewrite length_Buffer_from_ascii. }
  split; [by apply length_auth_record|]. split; [done|].
  unfold _connect. rewrite Hal. cbn [negb].
  cbn [with_node log node username accessCode set_connectAttempts].
  rewrite Hb. subst k.
  set (s0 := {| sock_host := hostname (node w); sock_port := port (node w);
                sock_authData := record; sock_destroyed := false;
                sock_written := []; sock_idleTimeout := Some 20000 |}).
  cbn [tls_connect].
  match goal with |- exists _, Done ?x = _ /\ _ => set (w' := x) end.
  assert (sockets w' = sockets w ++ [s0]) as Hs.
  { subst w'. cbn [socket_setTimeout with_node set_sockets sockets log].
    by rewrite alter_snoc. }
  assert (socket (node w') = Some (length (sockets w))) as Hk by done.
  exists w'. split; [done|]. split; [done|]. clearbody w'.
  split; [by rewrite Hs, lookup_snoc|].
  unfold step. rewrite Hs, lookup_snoc. unfold on_connect.
  cbn [log node socket]. rewrite Hk.
  cbn [finish with_node sockets socket_write set_sockets log].
  rewrite Hs, alter_snoc, lookup_snoc. reflexivity.
Qed.

(** ** Buffers *)

Lemma subarray_from (buf : Buffer) (n : Z) :
  0 <= n <= Z.of_nat (length buf) ->
  subarray buf n None = drop (Z.to_nat n) buf.
Proof.
  intros Hn. unfold subarray, clamp_index.
  destruct (Z.ltb_spec n 0); [lia|].
  rewrite Z.min_l by lia.
  apply take_ge. rewrite length_drop. lia.
Qed.

Lemma subarray_upto (buf : Buffer) (n : Z) :
  0 <= n <= Z.of_nat (length buf) ->
  subarray buf 0 (Some n) = take (Z.to_nat n) buf.
Proof.
  intros Hn. unfold subarray, clamp_index.
  destruct (Z.ltb_spec n 0); [lia|].
  rewrite Z.min_l by lia. simpl.
  rewrite Z.min_l by lia. rewrite Z.sub_0_r. by rewrite drop_0.
Qed.

Lemma readUInt32LE_app (hdr rest : Buffer) :
  (4 <= length hdr)%nat -> readUInt32LE (hdr ++ rest) = readUInt32LE hdr.
Proof.
  intros H. destruct hdr as [|b0 [|b1 [|b2 [|b3 hdr]]]]; simpl in H; try lia.
  reflexivity.
Qed.

Lemma byte_val_range (b : byte) : 0 <= byte_val b < 256.
Proof.
  unfold byte_val. pose proof (Byte.to_N_bounded b) as H. lia.
Qed.

Lemma readUInt32LE_nonneg (buf : Buffer) : 0 <= readUInt32LE buf.
Proof.
  destruct buf as [|b0 [|b1 [|b2 [|b3 buf]]]]; simpl; try lia.
  pose proof (byte_val_range b0). pose proof (byte_val_range b1).
  pose proof (byte_val_range b2). pose proof (byte_val_range b3).
  rewrite !Z.shiftl_mul_pow2 by lia. lia.
Qed.

Lemma Buffer_equals_eq (a b : Buffer) : Buffer_equals a b = true <-> a = b.
Proof.
  revert b. induction a as [|x a IH]; intros [|y b]; simpl; try easy.
  rewrite andb_true_iff, IH. split.
  - intros [Hxy ->]. by rewrite (Byte.byte_dec_bl _ _ Hxy).
  - intros [= -> ->]. split; [by apply Byte.byte_dec_lb|done].
Qed.

(** The marker test, in terms of the first four and the last two bytes. *)
Lemma is_jpeg_spec (img : Buffer) :
  is_jpeg img = true <->
  img <> [] /\ take 4 img = JPEG_START_MARKER
  /\ drop (length img - 2) img = JPEG_END_MARKER.
Proof.
  unfold is_jpeg. rewrite !andb_true_iff, !Buffer_equals_eq, Z.ltb_lt.
  assert (subarray img 0 (Some (Z.of_nat (length JPEG_START_MARKER))) = take 4 img) as ->.
  { unfold subarray, clamp_index. change (Z.of_nat (length JPEG_START_MARKER)) with 4.
    change (0 <? 0) with false. change (4 <? 0) with false. cbv iota.
    rewrite (Z.min_l 0) by lia. rewrite Z.sub_0_r. change (Z.to_nat 0) with 0%nat.
    rewrite drop_0.
    destruct (Z.le_ge_cases 4 (Z.of_nat (length img))).
    - rewrite Z.min_l by lia. done.
    - rewrite Z.min_r by lia. rewrite !take_ge by lia. done. }
  assert (subarray img (Z.of_nat (length img) - Z.of_nat (length JPEG_END_MARKER)) None
          = drop (length img - 2) img) as ->.
  { unfold subarray, clamp_index. change (Z.of_nat (length JPEG_END_MARKER)) with 2.
    destruct (Z.ltb_spec (Z.of_nat (length img) - 2) 0).
    - rewrite Z.max_r by lia. simpl. rewrite drop_0.
      replace (length img - 2)%nat with 0%nat by lia. rewrite drop_0.
      apply take_ge. lia.
    - rewrite Z.min_l by lia.
      replace (Z.to_nat (Z.of_nat (length img) - 2)) with (length img - 2)%nat by lia.
      apply take_ge. rewrite length_drop. lia. }
  split.
  - intros [[Hlen H1] H2]. split; [|done]. intros ->. simpl in Hlen. lia.
  - intros (Hne & H1 & H2). split; [split|]; try done.
    destruct img; [done|]. simpl. lia.
Qed.

(** ** Sessions of the public operation *)

Section Session.
Context {FS : Type} (P : Platform FS) (printerIp outputDir : string).

Local Abbreviation rs := (Some (capture_resolve P printerIp outputDir)).
Local Abbreviation rj := (Some (capture_reject printerIp)).

Lemma capture_resolve_eq (img : Buffer) (w : World FS) :
  capture_resolve P printerIp outputDir img w =
  stop (settle (save_frame P printerIp outputDir img (fs w)).2
          (log (save_frame P printerIp outputDir img (fs w)).1.2 (set_fs (save_frame P printerIp outputDir img (fs w)).1.1 w))).
Proof.
  unfold capture_resolve, save_frame.
  destruct (fs_existsSync P outputDir (fs w)); cbn [negb].
  - cbn [fs set_fs].
    destruct (fs_writeFileSync _ _ _ _); reflexivity.
  - destruct (fs_mkdirSync _ _ _); [|reflexivity]. cbn [fs set_fs].
    destruct (fs_writeFileSync _ _ _ _); reflexivity.
Qed.

(** *** The rounds of the data listener *)

Lemma header_block_wait (w : World FS) :
  isReceivingImage (node w) = false ->
  (length (currentFrameBuffer (node w)) < 16)%nat ->
  header_block w = Exit w.
Proof.
  intros Hr Hlen. unfold header_block. rewrite Hr. cbn [negb].
  destruct (Z.leb_spec 16 (Z.of_nat (length (currentFrameBuffer (node w))))); [lia|done].
Qed.

Lemma header_block_skip (w : World FS) :
  isReceivingImage (node w) = true -> header_block w = Continue w.
Proof. intros Hr. unfold header_block. by rewrite Hr. Qed.

Lemma header_block_read (w : World FS) :
  isReceivingImage (node w) = false ->
  (16 <= length (currentFrameBuffer (node w)))%nat ->
  let buf := currentFrameBuffer (node w) in
  let L := readUInt32LE buf in
  header_block w =
  Continue (if bad_size L
            then decoder_upd [] L false
                   [LogHeader (hostname (node w)) L; LogInvalidSize (hostname (node w)) L] w
            else decoder_upd (drop 16 buf) L true [LogHeader (hostname (node w)) L] w).
Proof.
  intros Hr Hlen. unfold header_block. rewrite Hr. cbn [negb].
  destruct (Z.leb_spec 16 (Z.of_nat (length (currentFrameBuffer (node w))))); [|lia].
  destruct_world w. cbn [node isReceivingImage currentFrameBuffer] in *. subst.
  wsimpl. rewrite subarray_from by lia. change (Z.to_nat 16) with 16%nat.
  unfold bad_size, decoder_upd. wsimpl.
  repeat case_scrutinee; rewrite <- ?app_assoc; reflexivity.
Qed.

Lemma payload_block_skip (w : World FS) :
  isReceivingImage (node w) = false -> payload_block rs w = Continue w.
Proof. intros Hr. unfold payload_block. by rewrite Hr. Qed.

Lemma payload_block_wait (w : World FS) :
  isReceivingImage (node w) = true ->
  Z.of_nat (length (currentFrameBuffer (node w))) < expectedPayloadSize (node w) ->
  payload_block rs w = Exit w.
Proof.
  intros Hr Hlen. unfold payload_block. rewrite Hr.
  destruct (Z.leb_spec (expectedPayloadSize (node w))
              (Z.of_nat (length (currentFrameBuffer (node w))))); [lia|done].
Qed.

Lemma payload_block_slice (w : World FS) :
  isReceivingImage (node w) = true ->
  0 <= expectedPayloadSize (node w) <= Z.of_nat (length (currentFrameBuffer (node w))) ->
  let buf := currentFrameBuffer (node w) in
  let n := Z.to_nat (expectedPayloadSize (node w)) in
  payload_block rs w =
  if is_jpeg (take n buf)
  then Exit (capture_frame rs (take n buf)
               (decoder_upd (drop n buf) (expectedPayloadSize (node w)) false [] w))
  else Continue (decoder_upd (drop n buf) 0 false
                   (if 0 <? Z.of_nat (length (take n buf))
                    then [LogInvalidJpeg (hostname (node w))] else []) w).
Proof.
  intros Hr Hlen. unfold payload_block. rewrite Hr.
  destruct (Z.leb_spec (expectedPayloadSize (node w))
              (Z.of_nat (length (currentFrameBuffer (node w))))); [|lia].
  rewrite subarray_upto by lia.
  destruct_world w. cbn [node isReceivingImage currentFrameBuffer expectedPayloadSize] in *.
  subst. cbv zeta.
  destruct (is_jpeg _).
  - f_equal. f_equal. unfold decoder_upd. wsimpl.
    rewrite subarray_from by lia. by rewrite app_nil_r.
  - unfold decoder_upd. wsimpl. rewrite subarray_from by lia.
    destruct (0 <? _); wsimpl; rewrite ?app_nil_r; reflexivity.
Qed.

Lemma capture_frame_fields (img : Buffer) (w : World FS) :
  hasResolvedOrRejected (node w) = false ->
  let w' := capture_frame rs img w in
  results w' = results w ++ [Success img]
  /\ lastFrameData (node w') = Some img
  /\ currentFrameBuffer (node w') = currentFrameBuffer (node w)
  /\ hasResolvedOrRejected (node w') = true.
Proof.
  destruct_world w. cbn [node hasResolvedOrRejected]. intros ->.
  unfold capture_frame, call_resolve. rewrite capture_resolve_eq.
  destruct ot, rt, so, pr; wsimpl; auto.
Qed.


(** *** The loop of the data listener *)

Lemma data_loop_S (n : nat) (w : World FS) :
  data_loop rs (S n) w =
  if loop_guard w then
    match header_block w with
    | Exit w => w
    | Continue w =>
        match payload_block rs w with
        | Exit w => w
        | Continue w => data_loop rs n w
        end
    end
  else w.
Proof. reflexivity. Qed.

Lemma bad_size_false (L : Z) : bad_size L = false -> 0 <= L -> 0 < L <= 15 * 1024 * 1024.
Proof.
  unfold bad_size. intros H HL. apply orb_false_iff in H as [H1 H2].
  apply Z.eqb_neq in H1. apply Z.ltb_ge in H2. lia.
Qed.

Lemma one_round_Round (w : World FS) :
  0 <= expectedPayloadSize (node w) ->
  (0 < length (currentFrameBuffer (node w)))%nat ->
  Round w (one_round rs w).
Proof.
  intros Hexp Hlen. unfold one_round.
  destruct (isReceivingImage (node w)) eqn:Hr.
  - rewrite header_block_skip by done.
    destruct (Z.lt_ge_cases (Z.of_nat (length (currentFrameBuffer (node w))))
                (expectedPayloadSize (node w))).
    + rewrite payload_block_wait by done. constructor.
    + rewrite payload_block_slice by (done || lia).
      destruct (is_jpeg _); constructor.
      * unfold rounds_left. rewrite Hr. cbn. rewrite length_drop. lia.
      * cbn. lia.
  - destruct (Nat.lt_ge_cases (length (currentFrameBuffer (node w))) 16).
    + rewrite header_block_wait by done. constructor.
    + rewrite header_block_read by done.
      pose proof (readUInt32LE_nonneg (currentFrameBuffer (node w))) as HL.
      destruct (bad_size _) eqn:Hbad.
      * rewrite payload_block_skip by done. constructor.
        -- unfold rounds_left. rewrite Hr. cbn. lia.
        -- cbn. lia.
      * apply bad_size_false in Hbad; [|done].
        set (w1 := decoder_upd _ _ _ _ w).
        destruct (Z.lt_ge_cases (Z.of_nat (length (currentFrameBuffer (node w1))))
                    (expectedPayloadSize (node w1))).
        -- rewrite payload_block_wait by done. constructor.
        -- rewrite payload_block_slice by (done || (subst w1; cbn in *; lia)).
           destruct (is_jpeg _); constructor.
           ++ unfold rounds_left. rewrite Hr. subst w1. cbn in *.
              rewrite !length_drop in *. lia.
           ++ cbn. lia.
Qed.

Lemma data_loop_round (n : nat) (w : World FS) :
  data_loop rs (S n) w =
  if loop_guard w then
    match one_round rs w with
    | Exit w => w
    | Continue w => data_loop rs n w
    end
  else w.
Proof. rewrite data_loop_S. unfold one_round. by destruct (header_block w). Qed.

(** The bound on the rounds is never reached: more fuel changes
    nothing. *)
Lemma data_loop_fuel (n n' : nat) (w : World FS) :
  0 <= expectedPayloadSize (node w) ->
  (rounds_left w < n)%nat -> (rounds_left w < n')%nat ->
  data_loop rs n w = data_loop rs n' w.
Proof.
  revert n' w. induction n as [|n IH]; intros n' w Hexp Hn Hn'; [lia|].
  destruct n' as [|n']; [lia|].
  rewrite !data_loop_round.
  destruct (loop_guard w) eqn:Hg; [|done].
  assert (0 < length (currentFrameBuffer (node w)))%nat as Hlen.
  { unfold loop_guard in Hg. rewrite !andb_true_iff, Z.ltb_lt in Hg. lia. }
  destruct (one_round_Round w Hexp Hlen) as [w'|w' Hlt Hexp']; [done|].
  apply IH; (done || lia).
Qed.

Lemma drain_unfold (w : World FS) :
  0 <= expectedPayloadSize (node w) ->
  drain rs w =
  if loop_guard w then
    match one_round rs w with
    | Exit w => w
    | Continue w => drain rs w
    end
  else w.
Proof.
  intros Hexp. unfold drain at 1. cbn [Nat.add]. rewrite data_loop_round.
  destruct (loop_guard w) eqn:Hg; [|done].
  assert (0 < length (currentFrameBuffer (node w)))%nat as Hlen.
  { unfold loop_guard in Hg. rewrite !andb_true_iff, Z.ltb_lt in Hg. lia. }
  destruct (one_round_Round w Hexp Hlen) as [w'|w' Hlt Hexp']; [done|].
  unfold rounds_left in *.
  apply data_loop_fuel; [done| |]; unfold rounds_left;
    destruct (isReceivingImage (node w')), (isReceivingImage (node w)); lia.
Qed.

Lemma on_data_drain (data : Buffer) (w : World FS) :
  on_data rs data w =
  if negb (alive (node w)) || hasResolvedOrRejected (node w) then w
  else drain rs (append data w).
Proof. reflexivity. Qed.


(** *** One unit in one call *)

(** C6 (exact extraction).  A decoder that awaits a header with an empty
    buffer is fed, in one call, a 16-byte header whose first four bytes
    encode [L] in little-endian with [0 < L <= 15 MiB], then [L] payload
    bytes that begin with FF D8 FF E0 and end with FF D9, then any
    trailing bytes: exactly one frame is accepted, it is the payload, and
    the buffer is left holding exactly the trailing bytes. *)
Theorem exact_extraction (w : World FS) (header payload trailing : Buffer) (L : Z) :
  alive (node w) = true ->
  hasResolvedOrRejected (node w) = false ->
  isReceivingImage (node w) = false ->
  currentFrameBuffer (node w) = [] ->
  length header = 16%nat ->
  readUInt32LE header = L ->
  0 < L <= 15 * 1024 * 1024 ->
  Z.of_nat (length payload) = L ->
  take 4 payload = JPEG_START_MARKER ->
  drop (length payload - 2) payload = JPEG_END_MARKER ->
  let w' := on_data rs (header ++ payload ++ trailing) w in
  results w' = results w ++ [Success payload]
  /\ lastFrameData (node w') = Some payload
  /\ currentFrameBuffer (node w') = trailing.
Proof.
  intros Hal Hhr Hir Hbuf Hhdr HL Hrange Hlen Hsoi Heoi w'. subst w'.
  rewrite on_data_drain, Hal, Hhr. cbn [negb orb].
  set (w0 := append _ w).
  assert (currentFrameBuffer (node w0) = header ++ payload ++ trailing) as Hbuf0.
  { subst w0. cbn. by rewrite Hbuf. }
  unfold drain. cbn [Nat.add]. rewrite data_loop_round.
  assert (loop_guard w0 = true) as ->.
  { unfold loop_guard. rewrite Hbuf0. subst w0. cbn. rewrite Hal, Hhr.
    rewrite length_app, Hhdr. cbn. done. }
  unfold one_round.
  rewrite header_block_read;
    [| subst w0; cbn; done | rewrite Hbuf0, length_app; lia].
  rewrite Hbuf0, readUInt32LE_app, HL by lia.
  assert (bad_size L = false) as ->.
  { unfold bad_size. apply orb_false_iff. split; [apply Z.eqb_neq|apply Z.ltb_ge]; lia. }
  rewrite drop_app_length' by done.
  set (w1 := decoder_upd _ _ _ _ w0).
  rewrite payload_block_slice;
    [| done | subst w1; cbn; rewrite length_app; lia].
  subst w1. cbn [decoder_upd node currentFrameBuffer expectedPayloadSize
                 set_currentFrameBuffer set_expectedPayloadSize].
  replace (Z.to_nat L) with (length payload) by lia.
  rewrite take_app_length, drop_app_length.
  assert (is_jpeg payload = true) as ->.
  { apply is_jpeg_spec. split; [|done]. intros ->. simpl in Hlen. lia. }
  match goal with |- context [capture_frame _ _ ?x] =>
    pose proof (capture_frame_fields payload x) as Hf end.
  cbn zeta in Hf. destruct Hf as (Hres & Hlast & Hcur & _).
  { subst w0. cbn. done. }
  rewrite Hres, Hlast, Hcur. subst w0. cbn. done.
Qed.


(** *** A header with a bad size *)

(** C3, as the code has it.  A decoder that awaits a header and, with the
    bytes of this call, holds at least 16 bytes whose first four decode to
    [L = 0] or [L > 15 MiB]: the call empties the whole buffer, not only
    the 16 bytes of the header, stays in the mode that awaits a header,
    prints the header and the warning, and changes nothing else: no
    result, no exception, the promise untouched.  The bytes of a later
    call are then read as a new header. *)
Theorem bad_header_resets_buffer (w : World FS) (data : Buffer) :
  alive (node w) = true ->
  hasResolvedOrRejected (node w) = false ->
  isReceivingImage (node w) = false ->
  (16 <= length (currentFrameBuffer (node w) ++ data))%nat ->
  readUInt32LE (currentFrameBuffer (node w) ++ data) = 0
  \/ 15 * 1024 * 1024 < readUInt32LE (currentFrameBuffer (node w) ++ data) ->
  let L := readUInt32LE (currentFrameBuffer (node w) ++ data) in
  let w' := on_data rs data w in
  w' = decoder_upd [] L false
         [LogHeader (hostname (node w)) L; LogInvalidSize (hostname (node w)) L] w
  /\ currentFrameBuffer (node w') = []
  /\ isReceivingImage (node w') = false
  /\ results w' = results w
  /\ uncaught w' = uncaught w
  /\ promise w' = promise w.
Proof.
  intros Hal Hhr Hir Hlen Hbad L w'.
  assert (w' = decoder_upd [] L false
                 [LogHeader (hostname (node w)) L; LogInvalidSize (hostname (node w)) L] w)
    as ->; [|by repeat split].
  subst w'. rewrite on_data_drain, Hal, Hhr. cbn [negb orb].
  set (w0 := append data w).
  unfold drain. cbn [Nat.add]. rewrite data_loop_round.
  assert (loop_guard w0 = true) as ->.
  { unfold loop_guard. subst w0. cbn. rewrite Hal, Hhr.
    destruct (Z.ltb_spec 0 (Z.of_nat (length (currentFrameBuffer (node w) ++ data))));
      [done|lia]. }
  unfold one_round.
  rewrite header_block_read; [| subst w0; cbn; done | subst w0; cbn; done].
  assert (bad_size (readUInt32LE (currentFrameBuffer (node w0))) = true) as ->.
  { subst w0. cbn. fold L. unfold bad_size. apply orb_true_iff. fold L in Hbad.
    destruct Hbad; [left; by apply Z.eqb_eq|right; by apply Z.ltb_lt]. }
  rewrite payload_block_skip by done.
  rewrite data_loop_S. unfold loop_guard. cbn [decoder_upd node currentFrameBuffer
    set_currentFrameBuffer length Z.of_nat Z.ltb Z.compare andb].
  subst w0. reflexivity.
Qed.


(** *** Feeding in chunks *)

Lemma invalid_sizes_app (l k : list LogEntry) :
  invalid_sizes (l ++ k) = (invalid_sizes l + invalid_sizes k)%nat.
Proof. induction l as [|[] l IH]; simpl; lia. Qed.

Lemma append_nil (w : World FS) : append [] w = w.
Proof. destruct_world w. unfold append. wsimpl. by rewrite app_nil_r. Qed.

Lemma append_append (a b : Buffer) (w : World FS) :
  append b (append a w) = append (a ++ b) w.
Proof. unfold append. wsimpl. by rewrite app_assoc. Qed.

Lemma capture_frame_append (b img : Buffer) (w : World FS) :
  capture_frame rs img (append b w) = append b (capture_frame rs img w).
Proof.
  destruct_world w. unfold capture_frame, call_resolve.
  destruct hr; cbn [node hasResolvedOrRejected append with_node log
                    set_lastFrameData negb].
  - destruct ot, rt, so; reflexivity.
  - rewrite !capture_resolve_eq. destruct ot, rt, so, pr; reflexivity.
Qed.

Lemma append_buffer (b : Buffer) (w : World FS) :
  currentFrameBuffer (node (append b w)) = currentFrameBuffer (node w) ++ b.
Proof. reflexivity. Qed.

Lemma append_expected (b : Buffer) (w : World FS) :
  expectedPayloadSize (node (append b w)) = expectedPayloadSize (node w).
Proof. reflexivity. Qed.

Lemma append_hostname (b : Buffer) (w : World FS) :
  hostname (node (append b w)) = hostname (node w).
Proof. reflexivity. Qed.

Lemma append_receiving (b : Buffer) (w : World FS) :
  isReceivingImage (node (append b w)) = isReceivingImage (node w).
Proof. reflexivity. Qed.

Lemma decoder_upd_append (buf b b' : Buffer) (e : Z) (r : bool)
    (l : list LogEntry) (w : World FS) :
  decoder_upd (buf ++ b) e r l (append b' w) = append b (decoder_upd buf e r l w).
Proof. reflexivity. Qed.

Lemma decoder_upd_append_nil (b' : Buffer) (e : Z) (r : bool)
    (l : list LogEntry) (w : World FS) :
  decoder_upd [] e r l (append b' w) = decoder_upd [] e r l w.
Proof. reflexivity. Qed.

Lemma payload_round_lockstep (b : Buffer) (w0 w : World FS) :
  isReceivingImage (node w) = true ->
  0 <= expectedPayloadSize (node w) ->
  alive (node w) = alive (node w0) ->
  hasResolvedOrRejected (node w) = hasResolvedOrRejected (node w0) ->
  hasResolvedOrRejected (node w0) = false ->
  invalid_sizes (console w) = invalid_sizes (console w0) ->
  (rounds_left w <= rounds_left w0)%nat ->
  (Z.of_nat (length (currentFrameBuffer (node w))) < expectedPayloadSize (node w)
   /\ payload_block rs w = Exit w)
  \/ Lockstep rs b w0 (payload_block rs w) (payload_block rs (append b w)).
Proof.
  intros Hr Hexp Hal Hhr Hhr0 Hinv Hrl.
  destruct (Z.lt_ge_cases (Z.of_nat (length (currentFrameBuffer (node w))))
              (expectedPayloadSize (node w))) as [Hlt|Hge].
  - left. split; [done|]. by apply payload_block_wait.
  - right. rewrite !payload_block_slice;
      [| done | rewrite append_buffer, append_expected, length_app; lia | done | lia].
    rewrite append_buffer, append_expected, append_hostname.
    rewrite take_app_le, drop_app_le by lia.
    rewrite !decoder_upd_append.
    destruct (is_jpeg _).
    + apply lockstep_frame. cbn. congruence.
    + apply lockstep_next; cbn; try done.
      * rewrite invalid_sizes_app, Hinv. destruct (0 <? _); simpl; lia.
      * unfold rounds_left in *. rewrite Hr in Hrl. cbn. rewrite length_drop. lia.
Qed.

(** A round that only waits for the rest of a payload. *)
Lemma payload_wait_drain (b : Buffer) (w : World FS) :
  isReceivingImage (node w) = true ->
  0 <= expectedPayloadSize (node w) ->
  alive (node w) = true ->
  hasResolvedOrRejected (node w) = false ->
  Z.of_nat (length (currentFrameBuffer (node w))) < expectedPayloadSize (node w) ->
  match payload_block rs (append b w) with Exit x => x | Continue x => drain rs x end
  = drain rs (append b w).
Proof.
  intros Hr Hexp Hal Hhr Hlt. rewrite (drain_unfold (append b w)) by done.
  unfold one_round. rewrite header_block_skip by done.
  destruct (loop_guard (append b w)) eqn:Hg; [done|].
  rewrite payload_block_wait; [done|done|].
  rewrite append_buffer, append_expected.
  unfold loop_guard in Hg. rewrite append_buffer in Hg.
  cbn [append with_node node alive hasResolvedOrRejected set_currentFrameBuffer] in Hg.
  rewrite Hal, Hhr in Hg.
  destruct (Z.ltb_spec 0 (Z.of_nat (length (currentFrameBuffer (node w) ++ b)))); [done|lia].
Qed.

Lemma one_round_lockstep (b : Buffer) (w : World FS) :
  0 <= expectedPayloadSize (node w) ->
  hasResolvedOrRejected (node w) = false ->
  loop_guard w = true ->
  Lockstep rs b w (one_round rs w) (one_round rs (append b w)).
Proof.
  intros Hexp Hhr Hg.
  assert (match one_round rs (append b w) with Exit x => x | Continue x => drain rs x end
          = drain rs (append b w)) as Hlong.
  { rewrite (drain_unfold (append b w)) by done.
    assert (loop_guard (append b w) = true) as ->; [|done].
    unfold loop_guard in *. rewrite append_buffer, length_app.
    rewrite !andb_true_iff, Z.ltb_lt in *. cbn. split; [split|]; try tauto. lia. }
  revert Hlong. unfold one_round.
  destruct (isReceivingImage (node w)) eqn:Hr.
  - rewrite !header_block_skip by done. intros Hlong.
    destruct (payload_round_lockstep b w w) as [[Hlt ->]|H]; try done.
    by apply lockstep_wait.
  - intros Hlong.
    destruct (Nat.lt_ge_cases (length (currentFrameBuffer (node w))) 16).
    { rewrite header_block_wait by done. by apply lockstep_wait. }
    clear Hlong.
    rewrite !header_block_read;
      [| done | rewrite append_buffer, length_app; lia | done | done].
    rewrite append_buffer, append_hostname.
    rewrite readUInt32LE_app by lia.
    pose proof (readUInt32LE_nonneg (currentFrameBuffer (node w))) as HL.
    destruct (bad_size _) eqn:Hbad.
    + rewrite decoder_upd_append_nil.
      rewrite !payload_block_skip by done.
      apply lockstep_reset; [done|done|].
      cbn. rewrite invalid_sizes_app. simpl. lia.
    + rewrite drop_app_le by lia. rewrite decoder_upd_append.
      set (w1 := decoder_upd (drop 16 _) _ true _ w).
      assert (invalid_sizes (console w1) = invalid_sizes (console w)) as Hinv.
      { subst w1. cbn. rewrite invalid_sizes_app. simpl. lia. }
      assert (rounds_left w1 <= rounds_left w)%nat as Hrl.
      { subst w1. unfold rounds_left. rewrite Hr. cbn. rewrite length_drop. lia. }
      destruct (payload_round_lockstep b w w1) as [[Hlt Hw]|Hl]; try done.
      rewrite Hw. apply lockstep_wait; try done.
      apply payload_wait_drain; try done.
      unfold loop_guard in Hg. rewrite !andb_true_iff in Hg. subst w1. cbn. tauto.
Qed.

(** Draining, then receiving [b] and draining again, against receiving
    [b] before the buffer is drained at all. *)
Lemma drain_append (b : Buffer) (w : World FS) :
  0 <= expectedPayloadSize (node w) ->
  alive (node w) = true ->
  hasResolvedOrRejected (node w) = false ->
  invalid_sizes (console (drain rs (append b w))) = invalid_sizes (console w) ->
  if hasResolvedOrRejected (node (drain rs w))
  then drain rs (append b w) = append b (drain rs w)
  else drain rs (append b w) = drain rs (append b (drain rs w))
       /\ invalid_sizes (console (drain rs w)) = invalid_sizes (console w)
       /\ alive (node (drain rs w)) = true
       /\ 0 <= expectedPayloadSize (node (drain rs w)).
Proof.
  remember (rounds_left w) as k eqn:Hk. revert w Hk.
  induction k as [k IH] using lt_wf_ind. intros w -> Hexp Hal Hhr Hclean.
  rewrite (drain_unfold w) by done.
  destruct (loop_guard w) eqn:Hg.
  2:{ rewrite Hhr. done. }
  pose proof (one_round_lockstep b w Hexp Hhr Hg) as Hl.
  rewrite (drain_unfold (append b w)) in Hclean |- * by done.
  assert (loop_guard (append b w) = true) as Hg'.
  { unfold loop_guard in *. rewrite append_buffer, length_app.
    rewrite !andb_true_iff, Z.ltb_lt in *. cbn. split; [split|]; try tauto. lia. }
  rewrite Hg' in Hclean |- *.
  destruct Hl as [w' long Hal' Hhr' Hinv' Hexp' Hlong|img wd Hwd|w' Hal' Hhr' Hinv' Hexp' Hlt
                 |w' Hbuf Hexp' Hinv'].
  - rewrite Hhr', Hhr. rewrite Hlong. repeat split; congruence.
  - destruct (capture_frame_fields img wd Hwd) as (_ & _ & _ & ->).
    apply capture_frame_append.
  - assert (Hih := IH (rounds_left w') Hlt w' eq_refl Hexp').
    rewrite Hal', Hhr', Hinv' in Hih. by apply Hih.
  - exfalso. rewrite (drain_unfold w') in Hclean by done.
    unfold loop_guard in Hclean. rewrite Hbuf in Hclean.
    change (0 <? Z.of_nat (length (@nil byte))) with false in Hclean.
    cbn [andb] in Hclean. lia.
Qed.

Lemma feed_chunks_cons (c : Buffer) (chunks : list Buffer) (w : World FS) :
  feed_chunks rs (c :: chunks) w = feed_chunks rs chunks (on_data rs c w).
Proof. reflexivity. Qed.

Lemma on_data_settled (data : Buffer) (w : World FS) :
  hasResolvedOrRejected (node w) = true -> on_data rs data w = w.
Proof. intros H. unfold on_data. rewrite H. by rewrite orb_true_r. Qed.

Lemma feed_chunks_settled (chunks : list Buffer) (w : World FS) :
  hasResolvedOrRejected (node w) = true -> feed_chunks rs chunks w = w.
Proof.
  induction chunks as [|c chunks IH]; intros H; [done|].
  by rewrite feed_chunks_cons, on_data_settled, IH.
Qed.

(** Two calls against one. *)
Lemma on_data_app (a b : Buffer) (w : World FS) :
  0 <= expectedPayloadSize (node w) ->
  alive (node w) = true ->
  hasResolvedOrRejected (node w) = false ->
  invalid_sizes (console (on_data rs (a ++ b) w)) = invalid_sizes (console w) ->
  if hasResolvedOrRejected (node (on_data rs a w))
  then on_data rs (a ++ b) w = append b (on_data rs a w)
  else on_data rs (a ++ b) w = on_data rs b (on_data rs a w)
       /\ invalid_sizes (console (on_data rs a w)) = invalid_sizes (console w)
       /\ alive (node (on_data rs a w)) = true
       /\ 0 <= expectedPayloadSize (node (on_data rs a w)).
Proof.
  intros Hexp Hal Hhr. rewrite !(on_data_drain _ w), Hal, Hhr. cbn [negb orb].
  rewrite <- append_append. intros Hclean.
  pose proof (drain_append b (append a w) Hexp Hal Hhr Hclean) as H.
  destruct (hasResolvedOrRejected (node (drain rs (append a w)))) eqn:Hhr1; [done|].
  destruct H as (H1 & H2 & H3 & H4). repeat split; try done.
  rewrite on_data_drain, H3, Hhr1. done.
Qed.

Lemma chunked_feed_cons (chunks : list Buffer) (c : Buffer) (w : World FS) :
  0 <= expectedPayloadSize (node w) ->
  alive (node w) = true ->
  hasResolvedOrRejected (node w) = false ->
  invalid_sizes (console (on_data rs (c ++ concat chunks) w)) = invalid_sizes (console w) ->
  exists ignored : Buffer,
    on_data rs (c ++ concat chunks) w = append ignored (feed_chunks rs (c :: chunks) w)
    /\ (hasResolvedOrRejected (node (feed_chunks rs (removelast (c :: chunks)) w)) = false ->
        ignored = []).
Proof.
  revert c w. induction chunks as [|c' chunks IH]; intros c w Hexp Hal Hhr Hclean.
  - exists []. cbn [concat]. rewrite app_nil_r, append_nil. done.
  - cbn [concat] in *.
    change (removelast (c :: c' :: chunks)) with (c :: removelast (c' :: chunks)).
    rewrite !(feed_chunks_cons c).
    pose proof (on_data_app c (c' ++ concat chunks) w Hexp Hal Hhr Hclean) as H.
    destruct (hasResolvedOrRejected (node (on_data rs c w))) eqn:Hhr1.
    + exists (c' ++ concat chunks).
      rewrite (feed_chunks_settled (c' :: chunks)) by done.
      rewrite (feed_chunks_settled (removelast (c' :: chunks))) by done.
      split; [exact H|]. congruence.
    + destruct H as (H1 & H2 & H3 & H4). rewrite H1.
      apply IH; try done. rewrite <- H1. congruence.
Qed.

(** C2, as the code has it.  For bytes whose decoding in a single call
    meets no header with a bad size, and every partition of them into
    chunks, the calls chunk by chunk leave the state of the single call:
    the same accepted frame, the same mode and expected size, the same
    buffer.  The one exception is the buffer when a frame is accepted
    before the last chunk: the listener ignores the chunks that follow,
    so their bytes ([ignored]) are in the buffer of the single call
    only. *)
Theorem chunk_boundary_invariance (w : World FS) (chunks : list Buffer) :
  alive (node w) = true ->
  hasResolvedOrRejected (node w) = false ->
  0 <= expectedPayloadSize (node w) ->
  chunks <> [] ->
  invalid_sizes (console (on_data rs (concat chunks) w)) = invalid_sizes (console w) ->
  let whole := on_data rs (concat chunks) w in
  let chunked := feed_chunks rs chunks w in
  exists ignored : Buffer,
    whole = append ignored chunked
    /\ results whole = results chunked
    /\ lastFrameData (node whole) = lastFrameData (node chunked)
    /\ isReceivingImage (node whole) = isReceivingImage (node chunked)
    /\ expectedPayloadSize (node whole) = expectedPayloadSize (node chunked)
    /\ currentFrameBuffer (node whole) = currentFrameBuffer (node chunked) ++ ignored
    /\ (hasResolvedOrRejected (node (feed_chunks rs (removelast chunks) w)) = false ->
        ignored = [] /\ whole = chunked).
Proof.
  intros Hal Hhr Hexp Hne Hclean whole chunked. subst whole chunked.
  destruct chunks as [|c chunks]; [done|]. cbn [concat] in *.
  destruct (chunked_feed_cons chunks c w Hexp Hal Hhr Hclean) as (ignored & Heq & Hlast).
  exists ignored. rewrite Heq. repeat split; try done.
  - by apply Hlast.
  - rewrite (Hlast H). apply append_nil.
Qed.
End Session.

Section Steps.
Context {FS : Type} (P : Platform FS) (printerIp outputDir : string).

Local Abbreviation rs := (Some (capture_resolve P printerIp outputDir)).
Local Abbreviation rj := (Some (capture_reject printerIp)).


(** ** The steps of a session *)

Lemma decoder_upd_id (w : World FS) :
  decoder_upd (currentFrameBuffer (node w)) (expectedPayloadSize (node w))
    (isReceivingImage (node w)) [] w = w.
Proof. destruct_world w. unfold decoder_upd. wsimpl. by rewrite app_nil_r. Qed.

Lemma decoder_upd_twice (b b' : Buffer) (e e' : Z) (r r' : bool)
    (l l' : list LogEntry) (w : World FS) :
  decoder_upd b e r l (decoder_upd b' e' r' l' w) = decoder_upd b e r (l' ++ l) w.
Proof. unfold decoder_upd. wsimpl. by rewrite app_assoc. Qed.

Lemma decoded_refl (w : World FS) : decoded w w.
Proof. eexists _, _, _, _. symmetry. apply decoder_upd_id. Qed.

Lemma decoded_trans (w1 w2 w3 : World FS) :
  decoded w1 w2 -> decoded w2 w3 -> decoded w1 w3.
Proof.
  intros (b & e & r & l & ->) (b' & e' & r' & l' & ->).
  eexists _, _, _, _. apply decoder_upd_twice.
Qed.

Lemma decoded_upd (buf : Buffer) (exp : Z) (recv : bool) (logs : list LogEntry)
    (w : World FS) :
  decoded w (decoder_upd buf exp recv logs w).
Proof. by eexists _, _, _, _. Qed.

Lemma decoded_flags (w w' : World FS) :
  decoded w w' ->
  alive (node w') = alive (node w)
  /\ hasResolvedOrRejected (node w') = hasResolvedOrRejected (node w).
Proof. by intros (b & e & r & l & ->). Qed.

Lemma header_block_shape (w : World FS) :
  exists w', decoded w w' /\ (header_block w = Exit w' \/ header_block w = Continue w').
Proof.
  destruct (isReceivingImage (node w)) eqn:Hr.
  - exists w. split; [apply decoded_refl|]. right. by apply header_block_skip.
  - destruct (Nat.lt_ge_cases (length (currentFrameBuffer (node w))) 16).
    + exists w. split; [apply decoded_refl|]. left. by apply header_block_wait.
    + rewrite header_block_read by done.
      destruct (bad_size _); eexists; (split; [apply decoded_upd|by right]).
Qed.

Lemma payload_block_shape (w : World FS) :
  exists w', decoded w w'
    /\ (payload_block rs w = Exit w' \/ payload_block rs w = Continue w'
        \/ exists img, payload_block rs w = Exit (capture_frame rs img w')).
Proof.
  unfold payload_block.
  destruct (isReceivingImage (node w)) eqn:Hr;
    [|exists w; split; [apply decoded_refl|by right; left]].
  destruct (_ <=? _); [|exists w; split; [apply decoded_refl|by left]].
  set (img := subarray _ 0 _).
  exists (decoder_upd (subarray (currentFrameBuffer (node w)) (expectedPayloadSize (node w)) None)
            (if is_jpeg img then expectedPayloadSize (node w) else 0) false
            (if is_jpeg img then []
             else if 0 <? Z.of_nat (length img) then [LogInvalidJpeg (hostname (node w))]
                  else []) w).
  split; [apply decoded_upd|].
  destruct (is_jpeg img).
  - right; right. exists img. do 2 f_equal.
    destruct_world w. unfold decoder_upd. wsimpl. by rewrite app_nil_r.
  - right; left. f_equal. destruct_world w. unfold decoder_upd.
    destruct (0 <? _); wsimpl; by rewrite ?app_nil_r.
Qed.

(** The loop changes the decoder fields only, unless it ends by capturing
    a frame in a session that was not settled. *)
Lemma data_loop_shape (n : nat) (w : World FS) :
  exists w', decoded w w'
    /\ (data_loop rs n w = w'
        \/ (alive (node w) = true /\ hasResolvedOrRejected (node w) = false
            /\ exists img, data_loop rs n w = capture_frame rs img w')).
Proof.
  revert w. induction n as [|n IH]; intros w.
  { exists w. split; [apply decoded_refl|by left]. }
  rewrite data_loop_S.
  destruct (loop_guard w) eqn:Hg; [|exists w; split; [apply decoded_refl|by left]].
  unfold loop_guard in Hg. rewrite !andb_true_iff, negb_true_iff in Hg.
  destruct Hg as [[_ Hal] Hhr].
  destruct (header_block_shape w) as (w1 & Hd1 & [->| ->]);
    [exists w1; split; [done|by left]|].
  destruct (payload_block_shape w1) as (w2 & Hd2 & [->|[->|[img ->]]]).
  - exists w2. split; [by eapply decoded_trans|by left].
  - destruct (IH w2) as (w3 & Hd3 & H).
    exists w3. split; [eauto using decoded_trans|].
    destruct H as [->|(_ & _ & img & ->)]; [by left|right; eauto].
  - exists w2. split; [by eapply decoded_trans|]. right; eauto.
Qed.

Lemma on_data_shape (data : Buffer) (w : World FS) :
  exists w', decoded w w'
    /\ (on_data rs data w = w'
        \/ (alive (node w) = true /\ hasResolvedOrRejected (node w) = false
            /\ exists img, on_data rs data w = capture_frame rs img w')).
Proof.
  unfold on_data.
  destruct (_ || _); [exists w; split; [apply decoded_refl|by left]|].
  match goal with |- context [data_loop _ ?n ?x] =>
    destruct (data_loop_shape n x) as (w' & (b & e & r & l & ->) & H) end.
  eexists. split; [apply (decoded_upd b e r l)|].
  destruct H as [->|(Hal & Hhr & img & ->)]; [by left|right; eauto].
Qed.


(** *** The invariant *)

Lemma capture_frame_Inv (img : Buffer) (w : World FS) :
  hasResolvedOrRejected (node w) = false ->
  Inv w -> Inv (capture_frame rs img w).
Proof.
  intros Hhr HI. split_world w; unfold capture_frame, call_resolve;
    rewrite ?capture_resolve_eq; wsimpl; try done; inv_solve.
Qed.

Lemma decoded_Inv (w w' : World FS) : decoded w w' -> Inv w -> Inv w'.
Proof. intros (b & e & r & l & ->) HI. split_world w; inv_solve. Qed.

Lemma stop_Inv (w : World FS) : Inv w -> Inv (stop w).
Proof. intros HI. by_cases w inv_solve. Qed.

Lemma clearTimeout_Inv (t : nat) (w : World FS) : Inv w -> Inv (clearTimeout t w).
Proof. intros HI. split_world w; inv_solve. Qed.

Lemma on_data_Inv (data : Buffer) (w : World FS) : Inv w -> Inv (on_data rs data w).
Proof.
  intros HI. destruct (on_data_shape data w) as (w' & Hd & [->|(Hal & Hhr & img & ->)]).
  - by eapply decoded_Inv.
  - apply capture_frame_Inv; [|by eapply decoded_Inv].
    destruct (decoded_flags _ _ Hd) as [_ ->]. done.
Qed.

Lemma on_connect_Inv (authData : Buffer) (w : World FS) :
  Inv w -> Inv (finish (on_connect authData w)).
Proof. intros HI. by_cases w inv_solve. Qed.

Lemma scheduleReconnect_Inv (w : World FS) : Inv w -> Inv (_scheduleReconnect rj w).
Proof. intros HI. by_cases w inv_solve. Qed.

Lemma on_error_Inv (err : SocketError) (w : World FS) : Inv w -> Inv (on_error rj err w).
Proof. intros HI. by_cases w inv_solve. Qed.

Lemma on_close_Inv (hadError : bool) (w : World FS) : Inv w -> Inv (on_close rj hadError w).
Proof. intros HI. destruct hadError; by_cases w inv_solve. Qed.

Lemma on_timeout_Inv (w : World FS) : Inv w -> Inv (on_timeout w).
Proof. intros HI. by_cases w inv_solve. Qed.

Lemma on_operationTimeout_Inv (w : World FS) : Inv w -> Inv (on_operationTimeout rj w).
Proof. intros HI. by_cases w inv_solve. Qed.

Lemma is_Some_rj :
  bool_decide (is_Some (Some (capture_reject (FS:=FS) printerIp))) = true.
Proof. by apply bool_decide_eq_true. Qed.

Lemma connect_Inv (w : World FS) : Inv w -> Inv (finish (_connect rj w)).
Proof.
  intros HI. unfold _connect. rewrite is_Some_rj.
  split_world w; wsimpl; try (destruct (_buildAuthData _ _); wsimpl); inv_solve.
Qed.

Lemma step_Inv (ev : Event) (w : World FS) :
  Inv w -> Inv (session_step P printerIp outputDir ev w).
Proof.
  intros HI. unfold session_step, step. destruct ev as [k|k data|k err|k h|k|t|].
  - destruct (sockets w !! k); [|done]. by apply on_connect_Inv.
  - destruct (sockets w !! k); [|done]. by apply on_data_Inv.
  - destruct (sockets w !! k); [|done]. by apply on_error_Inv.
  - destruct (sockets w !! k); [|done]. by apply on_close_Inv.
  - destruct (sockets w !! k); [|done]. by apply on_timeout_Inv.
  - destruct (timers w !! t) as [[kind delay armed]|]; [|done].
    cbn [timer_armed timer_kind]. destruct armed; [|done].
    destruct kind.
    + by apply on_operationTimeout_Inv, clearTimeout_Inv.
    + by apply connect_Inv, clearTimeout_Inv.
  - by apply stop_Inv.
Qed.

Lemma run_Inv (evs : list Event) (w : World FS) :
  Inv w -> Inv (session_run P printerIp outputDir evs w).
Proof.
  revert w. induction evs as [|ev evs IH]; intros w HI; [done|].
  change (session_run P printerIp outputDir (ev :: evs) w)
    with (session_run P printerIp outputDir evs (session_step P printerIp outputDir ev w)).
  apply IH. by apply step_Inv.
Qed.


(** *** Once settled *)

Lemma stop_kept (w : World FS) :
  hasResolvedOrRejected (node w) = true -> outcome_kept w (stop w).
Proof. intros H. by_cases w kept_solve. Qed.

Lemma on_connect_kept (authData : Buffer) (w : World FS) :
  hasResolvedOrRejected (node w) = true ->
  outcome_kept w (finish (on_connect authData w)).
Proof. intros H. by_cases w kept_solve. Qed.

Lemma on_data_kept (data : Buffer) (w : World FS) :
  hasResolvedOrRejected (node w) = true -> outcome_kept w (on_data rs data w).
Proof. intros H. rewrite on_data_settled by done. by repeat split. Qed.

Lemma on_error_kept (err : SocketError) (w : World FS) :
  hasResolvedOrRejected (node w) = true -> outcome_kept w (on_error rj err w).
Proof. intros H. by_cases w kept_solve. Qed.

Lemma on_close_kept (hadError : bool) (w : World FS) :
  hasResolvedOrRejected (node w) = true -> outcome_kept w (on_close rj hadError w).
Proof. intros H. destruct hadError; by_cases w kept_solve. Qed.

Lemma on_timeout_kept (w : World FS) :
  hasResolvedOrRejected (node w) = true -> outcome_kept w (on_timeout w).
Proof. intros H. by_cases w kept_solve. Qed.

Lemma on_operationTimeout_kept (t : nat) (w : World FS) :
  hasResolvedOrRejected (node w) = true ->
  outcome_kept w (on_operationTimeout rj (clearTimeout t w)).
Proof. intros H. by_cases w kept_solve. Qed.

Lemma connect_kept (t : nat) (w : World FS) :
  hasResolvedOrRejected (node w) = true ->
  outcome_kept w (finish (_connect rj (clearTimeout t w))).
Proof.
  intros H. unfold _connect. rewrite is_Some_rj.
  split_world w; wsimpl; try done;
    try (destruct (_buildAuthData _ _); wsimpl); kept_solve.
Qed.

Lemma step_kept (ev : Event) (w : World FS) :
  hasResolvedOrRejected (node w) = true ->
  outcome_kept w (session_step P printerIp outputDir ev w).
Proof.
  intros H. unfold session_step, step. destruct ev as [k|k data|k err|k h|k|t|].
  - destruct (sockets w !! k); [|by repeat split]. by apply on_connect_kept.
  - destruct (sockets w !! k); [|by repeat split]. by apply on_data_kept.
  - destruct (sockets w !! k); [|by repeat split]. by apply on_error_kept.
  - destruct (sockets w !! k); [|by repeat split]. by apply on_close_kept.
  - destruct (sockets w !! k); [|by repeat split]. by apply on_timeout_kept.
  - destruct (timers w !! t) as [[kind delay armed]|]; [|by repeat split].
    cbn [timer_armed timer_kind]. destruct armed; [|by repeat split].
    destruct kind; [by apply on_operationTimeout_kept|by apply connect_kept].
  - by apply stop_kept.
Qed.

Lemma run_kept (evs : list Event) (w : World FS) :
  hasResolvedOrRejected (node w) = true ->
  outcome_kept w (session_run P printerIp outputDir evs w).
Proof.
  revert w. induction evs as [|ev evs IH]; intros w H; [by repeat split|].
  change (session_run P printerIp outputDir (ev :: evs) w)
    with (session_run P printerIp outputDir evs (session_step P printerIp outputDir ev w)).
  destruct (step_kept ev w H) as (H1 & H2 & H3 & H4).
  destruct (IH _ H1) as (H1' & H2' & H3' & H4').
  repeat split; [done|congruence..].
Qed.

Lemma run_app (evs evs' : list Event) (w : World FS) :
  session_run P printerIp outputDir (evs ++ evs') w =
  session_run P printerIp outputDir evs' (session_run P printerIp outputDir evs w).
Proof. unfold session_run, run. apply foldl_app. Qed.

(** *** Stopping a settled session *)

Lemma stop_stopped (w : World FS) :
  alive (node w) = false -> socket (node w) = None ->
  operationTimeout (node w) = None -> reconnectTimeout (node w) = None ->
  stop w = emit "stopped" (log (LogStopped (hostname (node w))) w).
Proof. intros H1 H2 H3 H4. destruct_world w. wsimpl. by subst. Qed.

Lemma stop_times_stopped (n : nat) (w : World FS) :
  alive (node w) = false -> socket (node w) = None ->
  operationTimeout (node w) = None -> reconnectTimeout (node w) = None ->
  stop_times n w =
  {| node := node w; sockets := sockets w; timers := timers w;
     emitted := emitted w ++ replicate n "stopped";
     console := console w ++ replicate n (LogStopped (hostname (node w)));
     results := results w; uncaught := uncaught w; fs := fs w;
     promise := promise w |}.
Proof.
  intros H1 H2 H3 H4. induction n as [|n IH].
  - destruct_world w. cbn. by rewrite !app_nil_r.
  - cbn [stop_times]. rewrite IH. rewrite stop_stopped by done.
    unfold emit, log. cbn [node hostname emitted console sockets timers results
                           uncaught fs promise].
    rewrite <- !app_assoc, <- !replicate_cons_app. reflexivity.
Qed.


(** *** The configuration *)

Lemma same_config_trans (w1 w2 w3 : World FS) :
  same_config w1 w2 -> same_config w2 w3 -> same_config w1 w3.
Proof. unfold same_config. intros (?&?&?&?&?) (?&?&?&?&?). repeat split; congruence. Qed.

Lemma capture_frame_config (img : Buffer) (w : World FS) :
  same_config w (capture_frame rs img w).
Proof.
  split_world w; unfold capture_frame, call_resolve;
    rewrite ?capture_resolve_eq; wsimpl; config_solve.
Qed.

Lemma decoded_config (w w' : World FS) : decoded w w' -> same_config w w'.
Proof. intros (b & e & r & l & ->). config_solve. Qed.

Lemma on_data_config (data : Buffer) (w : World FS) : same_config w (on_data rs data w).
Proof.
  destruct (on_data_shape data w) as (w' & Hd & [->|(Hal & Hhr & img & ->)]).
  - by apply decoded_config.
  - eapply same_config_trans; [by apply decoded_config|apply capture_frame_config].
Qed.

Lemma step_config (ev : Event) (w : World FS) :
  same_config w (session_step P printerIp outputDir ev w).
Proof.
  unfold session_step, step. destruct ev as [k|k data|k err|k h|k|t|].
  - destruct (sockets w !! k); [|config_solve]. by_cases w config_solve.
  - destruct (sockets w !! k); [|config_solve]. apply on_data_config.
  - destruct (sockets w !! k); [|config_solve]. by_cases w config_solve.
  - destruct (sockets w !! k); [|config_solve]. destruct h; by_cases w config_solve.
  - destruct (sockets w !! k); [|config_solve]. by_cases w config_solve.
  - destruct (timers w !! t) as [[kind delay armed]|]; [|config_solve].
    cbn [timer_armed timer_kind]. destruct armed; [|config_solve].
    destruct kind; [by_cases w config_solve|].
    unfold _connect. rewrite is_Some_rj.
    split_world w; wsimpl; try (destruct (_buildAuthData _ _); wsimpl); config_solve.
  - by_cases w config_solve.
Qed.

Lemma run_config (evs : list Event) (w : World FS) :
  same_config w (session_run P printerIp outputDir evs w).
Proof.
  revert w. induction evs as [|ev evs IH]; intros w; [config_solve|].
  change (session_run P printerIp outputDir (ev :: evs) w)
    with (session_run P printerIp outputDir evs (session_step P printerIp outputDir ev w)).
  eapply same_config_trans; [apply step_config|apply IH].
Qed.

(** *** Without an operation timer *)

Lemma capture_frame_NoTimeout (img : Buffer) (w : World FS) :
  NoTimeout w -> NoTimeout (capture_frame rs img w).
Proof.
  intros HN. split_world w; unfold capture_frame, call_resolve;
    rewrite ?capture_resolve_eq; wsimpl; notimeout_solve.
Qed.

Lemma decoded_NoTimeout (w w' : World FS) : decoded w w' -> NoTimeout w -> NoTimeout w'.
Proof. by intros (b & e & r & l & ->) HI. Qed.

Lemma on_data_NoTimeout (data : Buffer) (w : World FS) :
  NoTimeout w -> NoTimeout (on_data rs data w).
Proof.
  intros HI. destruct (on_data_shape data w) as (w' & Hd & [->|(Hal & Hhr & img & ->)]).
  - by eapply decoded_NoTimeout.
  - apply capture_frame_NoTimeout. by eapply decoded_NoTimeout.
Qed.

Lemma step_NoTimeout (ev : Event) (w : World FS) :
  NoTimeout w -> NoTimeout (session_step P printerIp outputDir ev w).
Proof.
  intros HN. unfold session_step, step. destruct ev as [k|k data|k err|k h|k|t|].
  - destruct (sockets w !! k); [|done]. by_cases w notimeout_solve.
  - destruct (sockets w !! k); [|done]. by apply on_data_NoTimeout.
  - destruct (sockets w !! k); [|done]. by_cases w notimeout_solve.
  - destruct (sockets w !! k); [|done]. destruct h; by_cases w notimeout_solve.
  - destruct (sockets w !! k); [|done]. by_cases w notimeout_solve.
  - destruct (timers w !! t) as [[kind delay armed]|] eqn:Ht; [|done].
    cbn [timer_armed timer_kind]. destruct armed; [|done].
    destruct kind.
    { destruct HN as [HN _]. by apply (Forall_lookup_1 _ _ _ _ HN) in Ht. }
    clear Ht. unfold _connect. rewrite is_Some_rj.
    split_world w; wsimpl; try (destruct (_buildAuthData _ _); wsimpl); notimeout_solve.
  - by_cases w notimeout_solve.
Qed.

Lemma run_NoTimeout (evs : list Event) (w : World FS) :
  NoTimeout w -> NoTimeout (session_run P printerIp outputDir evs w).
Proof.
  revert w. induction evs as [|ev evs IH]; intros w HI; [done|].
  change (session_run P printerIp outputDir (ev :: evs) w)
    with (session_run P printerIp outputDir evs (session_step P printerIp outputDir ev w)).
  apply IH. by apply step_NoTimeout.
Qed.

Lemma capture_frame_Unstopped (img : Buffer) (w : World FS) :
  Unstopped w -> Unstopped (capture_frame rs img w).
Proof.
  intros HN. split_world w; unfold capture_frame, call_resolve;
    rewrite ?capture_resolve_eq; wsimpl; notimeout_solve.
Qed.

Lemma decoded_Unstopped (w w' : World FS) : decoded w w' -> Unstopped w -> Unstopped w'.
Proof. by intros (b & e & r & l & ->) HI. Qed.

Lemma on_data_Unstopped (data : Buffer) (w : World FS) :
  Unstopped w -> Unstopped (on_data rs data w).
Proof.
  intros HI. destruct (on_data_shape data w) as (w' & Hd & [->|(Hal & Hhr & img & ->)]).
  - by eapply decoded_Unstopped.
  - apply capture_frame_Unstopped. by eapply decoded_Unstopped.
Qed.

Lemma step_Unstopped (ev : Event) (w : World FS) :
  ev <> CallStop -> NoTimeout w -> Unstopped w ->
  Unstopped (session_step P printerIp outputDir ev w).
Proof.
  intros Hev HN HU. unfold session_step, step. destruct ev as [k|k data|k err|k h|k|t|].
  - destruct (sockets w !! k); [|done]. clear HN. by_cases w notimeout_solve.
  - destruct (sockets w !! k); [|done]. by apply on_data_Unstopped.
  - destruct (sockets w !! k); [|done]. clear HN. by_cases w notimeout_solve.
  - destruct (sockets w !! k); [|done]. clear HN. destruct h; by_cases w notimeout_solve.
  - destruct (sockets w !! k); [|done]. clear HN. by_cases w notimeout_solve.
  - destruct (timers w !! t) as [[kind delay armed]|] eqn:Ht; [|done].
    cbn [timer_armed timer_kind]. destruct armed; [|done].
    destruct kind.
    { destruct HN as [HN _]. by apply (Forall_lookup_1 _ _ _ _ HN) in Ht. }
    clear Ht HN. unfold _connect. rewrite is_Some_rj.
    split_world w; wsimpl; try (destruct (_buildAuthData _ _); wsimpl); notimeout_solve.
  - done.
Qed.

Lemma run_Unstopped (evs : list Event) (w : World FS) :
  CallStop ∉ evs -> NoTimeout w -> Unstopped w ->
  Unstopped (session_run P printerIp outputDir evs w).
Proof.
  revert w. induction evs as [|ev evs IH]; intros w Hev HN HU; [done|].
  change (session_run P printerIp outputDir (ev :: evs) w)
    with (session_run P printerIp outputDir evs (session_step P printerIp outputDir ev w)).
  apply not_elem_of_cons in Hev as [Hev Hevs].
  apply IH; [done|by apply step_NoTimeout|by apply step_Unstopped].
Qed.

(** *** A stopped session makes no socket *)



(** *** The attempt counter *)

Lemma capture_frame_attempts (img : Buffer) (w : World FS) :
  connectAttempts (node (capture_frame rs img w)) = connectAttempts (node w).
Proof.
  split_world w; unfold capture_frame, call_resolve;
    rewrite ?capture_resolve_eq; wsimpl; done.
Qed.

Lemma on_data_attempts (data : Buffer) (w : World FS) :
  connectAttempts (node (on_data rs data w)) = connectAttempts (node w).
Proof.
  destruct (on_data_shape data w) as (w' & (b & e & r & l & ->) & [->|(Hal & Hhr & img & ->)]).
  - done.
  - by rewrite capture_frame_attempts.
Qed.

Lemma step_attempts (ev : Event) (w : World FS) :
  connectAttempts (node (session_step P printerIp outputDir ev w)) = attempts_after ev w.
Proof.
  unfold session_step, step, attempts_after. destruct ev as [k|k data|k err|k h|k|t|].
  - destruct (sockets w !! k); [|done]. by_cases w done.
  - destruct (sockets w !! k); [|done]. apply on_data_attempts.
  - destruct (sockets w !! k); [|done]. by_cases w done.
  - destruct (sockets w !! k); [|done]. destruct h; by_cases w done.
  - destruct (sockets w !! k); [|done]. by_cases w done.
  - destruct (timers w !! t) as [[kind delay armed]|] eqn:Ht; [|done].
    cbn [timer_armed timer_kind]. destruct armed; [|done]. clear Ht.
    destruct kind; [by_cases w done|].
    unfold _connect. rewrite is_Some_rj.
    split_world w; wsimpl; try (destruct (_buildAuthData _ _); wsimpl); done.
  - by_cases w done.
Qed.

(** *** What the callbacks of the public operation leave behind *)

Lemma capture_frame_Saved (fs0 : FS) (img : Buffer) (w : World FS) :
  hasResolvedOrRejected (node w) = false -> results w = [] ->
  Saved P printerIp outputDir fs0 w ->
  Saved P printerIp outputDir fs0 (capture_frame rs img w).
Proof.
  intros Hhr Hres HS. split_world w; unfold capture_frame, call_resolve;
    rewrite ?capture_resolve_eq; wsimpl; try done; saved_solve.
Qed.

Lemma decoded_Saved (fs0 : FS) (w w' : World FS) :
  decoded w w' -> Saved P printerIp outputDir fs0 w -> Saved P printerIp outputDir fs0 w'.
Proof. by intros (b & e & r & l & ->) HI. Qed.

Lemma step_Saved (fs0 : FS) (ev : Event) (w : World FS) :
  Inv w -> Saved P printerIp outputDir fs0 w ->
  Saved P printerIp outputDir fs0 (session_step P printerIp outputDir ev w).
Proof.
  intros HI HS.
  destruct (hasResolvedOrRejected (node w)) eqn:Hhr.
  { destruct (step_kept ev w Hhr) as (H1 & H2 & H3 & H4).
    destruct HS as (_ & HS2 & HS3). unfold Saved. rewrite H1, H2, H3, H4.
    split; [done|]. by split. }
  destruct HI as (HI1 & _). specialize (HI1 Hhr).
  unfold session_step, step. destruct ev as [k|k data|k err|k h|k|t|].
  - destruct (sockets w !! k); [|done]. by_cases w saved_solve.
  - destruct (sockets w !! k); [|done].
    destruct (on_data_shape data w) as (w' & Hd & [->|(Hal & _ & img & ->)]).
    + by eapply decoded_Saved.
    + pose proof Hd as (b & e & r & l & ->).
      apply capture_frame_Saved; [done|done|by eapply decoded_Saved].
  - destruct (sockets w !! k); [|done]. by_cases w saved_solve.
  - destruct (sockets w !! k); [|done]. destruct h; by_cases w saved_solve.
  - destruct (sockets w !! k); [|done]. by_cases w saved_solve.
  - destruct (timers w !! t) as [[kind delay armed]|] eqn:Ht; [|done].
    cbn [timer_armed timer_kind]. destruct armed; [|done]. clear Ht.
    destruct kind; [by_cases w saved_solve|].
    unfold _connect. rewrite is_Some_rj.
    split_world w; wsimpl; try (destruct (_buildAuthData _ _); wsimpl); saved_solve.
  - by_cases w saved_solve.
Qed.

Lemma run_Saved (fs0 : FS) (evs : list Event) (w : World FS) :
  Inv w -> Saved P printerIp outputDir fs0 w ->
  Saved P printerIp outputDir fs0 (session_run P printerIp outputDir evs w).
Proof.
  revert w. induction evs as [|ev evs IH]; intros w HI HS; [done|].
  change (session_run P printerIp outputDir (ev :: evs) w)
    with (session_run P printerIp outputDir evs (session_step P printerIp outputDir ev w)).
  apply IH; [by apply step_Inv|by apply step_Saved].
Qed.

End Steps.

(** ** A transport that fails on every attempt *)

Section Retry.
Context {FS : Type} (P : Platform FS) (printerIp outputDir : string).

Local Abbreviation rs := (Some (capture_resolve P printerIp outputDir)).
Local Abbreviation rj := (Some (capture_reject printerIp)).
Local Abbreviation sstep := (step rs rj).






















End Retry.

(** ** From the call of the public operation *)

Section Launch.
Context {FS : Type} (P : Platform FS).

(** What the state of a session that was just started looks like. *)
Lemma launch_facts (printerIp code : string) (opts : CaptureOptions)
    (fs0 : FS) (w : World FS) :
  captureSingleFrameFromPrinter P printerIp code opts fs0 = Session w ->
  Inv w
  /\ alive (node w) = true
  /\ hasResolvedOrRejected (node w) = false
  /\ results w = []
  /\ fs w = fs0
  /\ connectAttempts (node w) = 1
  /\ hostname (node w) = printerIp
  /\ timeoutMs (options (node w)) = default 30000 (opt_timeoutMs opts).
Proof.
  unfold captureSingleFrameFromPrinter.
  destruct (_ || _); [done|].
  unfold start, new_world, new_PrinterCameraNode, _connect.
  cbn [node alive negb with_node set_alive set_hasResolvedOrRejected log options
       timeoutMs arg_timeoutMs default from_option id hostname username accessCode].
  destruct (0 <? _); wsimpl;
    (destruct (_buildAuthData _ _); wsimpl; intros [= <-];
     unfold Inv; wsimpl; repeat split; try done; cbn; lia).
Qed.

Lemma launch_Inv (printerIp code : string) (opts : CaptureOptions)
    (fs0 : FS) (w : World FS) :
  captureSingleFrameFromPrinter P printerIp code opts fs0 = Session w -> Inv w.
Proof. intros H. by apply launch_facts in H as [? _]. Qed.

(** C1.  A session handles one request: from the call of the public
    operation on, whatever the sockets, the timers and the callers of
    [stop] do, at most one result is handed to [resolve] or [reject]; and
    once one was, every later event, from whichever path, finds the
    session settled and leaves the result and the outcome of the promise
    as they are. *)
Theorem single_settlement (printerIp code : string) (opts : CaptureOptions)
    (fs0 : FS) (w : World FS) (evs : list Event) :
  captureSingleFrameFromPrinter P printerIp code opts fs0 = Session w ->
  let run := session_run P printerIp (capture_outputDir P opts) in
  (length (results (run evs w)) <= 1)%nat
  /\ forall r, results (run evs w) = [r] ->
       forall evs', results (run (evs ++ evs') w) = [r]
                    /\ promise (run (evs ++ evs') w) = promise (run evs w).
Proof.
  intros Hl run.
  pose proof (run_Inv P printerIp (capture_outputDir P opts) evs w (launch_Inv _ _ _ _ _ Hl))
    as (HI1 & HI2 & _).
  split; [done|]. intros r Hr evs'. subst run.
  rewrite run_app.
  destruct (hasResolvedOrRejected (node (session_run P printerIp (capture_outputDir P opts) evs w)))
    eqn:Hhr; [|rewrite HI1 in Hr; done].
  destruct (run_kept P printerIp (capture_outputDir P opts) evs' _ Hhr) as (_ & -> & -> & _).
  done.
Qed.

(** C9, as the code has it.  In a session that has settled, a call of
    [stop], and any number of calls in a row, hands out no second result
    and changes neither the promise, the node, the sockets, the timers nor
    the file system; what each call does is to emit one ['stopped'] event
    and to print one line. *)
Theorem stop_after_settlement (printerIp code : string) (opts : CaptureOptions)
    (fs0 : FS) (w : World FS) (evs : list Event) (n : nat) :
  captureSingleFrameFromPrinter P printerIp code opts fs0 = Session w ->
  let w' := session_run P printerIp (capture_outputDir P opts) evs w in
  hasResolvedOrRejected (node w') = true ->
  let w'' := stop_times n w' in
  results w'' = results w'
  /\ promise w'' = promise w'
  /\ node w'' = node w'
  /\ sockets w'' = sockets w'
  /\ timers w'' = timers w'
  /\ fs w'' = fs w'
  /\ uncaught w'' = uncaught w'
  /\ emitted w'' = emitted w' ++ replicate n "stopped"
  /\ console w'' = console w' ++ replicate n (LogStopped printerIp).
Proof.
  intros Hl w' Hhr w''.
  pose proof (run_Inv P printerIp (capture_outputDir P opts) evs w (launch_Inv _ _ _ _ _ Hl))
    as (_ & _ & HI3 & HI4).
  fold w' in HI3, HI4. specialize (HI3 Hhr). destruct (HI4 HI3) as (H2 & H3 & H4).
  subst w''. rewrite stop_times_stopped by done.
  cbn [results promise node sockets timers fs uncaught emitted console].
  destruct (run_config P printerIp (capture_outputDir P opts) evs w) as (Hh & _).
  apply launch_facts in Hl as (_ & _ & _ & _ & _ & _ & Hh0 & _).
  fold w' in Hh. rewrite Hh, Hh0. by repeat split.
Qed.

(** C10.  With [timeoutMs <= 0] the operation sets no operation timer:
    [start] leaves [operationTimeout] null and the timer table empty, no
    operation timer is ever set later, and no sequence of events makes
    the session fail with the operation timeout.  As long as nobody
    calls [stop] from outside, the only results are a captured frame and
    the failure after the last retry. *)
Theorem no_timer_no_timeout (printerIp code : string) (opts : CaptureOptions)
    (fs0 : FS) (w : World FS) (t : Z) :
  opt_timeoutMs opts = Some t ->
  t <= 0 ->
  captureSingleFrameFromPrinter P printerIp code opts fs0 = Session w ->
  operationTimeout (node w) = None
  /\ timers w = []
  /\ forall evs,
       let w' := session_run P printerIp (capture_outputDir P opts) evs w in
       Forall (fun tm => timer_kind tm = ReconnectTimer) (timers w')
       /\ (forall host ms, Failure (ErrOperationTimeout host ms) ∉ results w')
       /\ (CallStop ∉ evs ->
           forall r, r ∈ results w' ->
             (exists img, r = Success img)
             \/ exists host n, r = Failure (ErrConnectFailed host n)).
Proof.
  intros Ht Hle Hl.
  assert (operationTimeout (node w) = None /\ timers w = []
          /\ alive (node w) = true /\ results w = []) as (H1 & H2 & H3 & H4).
  { revert Hl. unfold captureSingleFrameFromPrinter.
    destruct (_ || _); [done|].
    unfold start, new_world, new_PrinterCameraNode, _connect. rewrite Ht.
    cbn [node alive negb with_node set_alive set_hasResolvedOrRejected log options
         timeoutMs arg_timeoutMs default from_option id hostname username].
    destruct (Z.ltb_spec 0 t); [lia|]. wsimpl.
    destruct (_buildAuthData _ _); wsimpl; by intros [= <-]. }
  split; [done|]. split; [done|]. intros evs w'.
  assert (NoTimeout w) as HN by (split; [rewrite H2|rewrite H4]; constructor).
  assert (Unstopped w) as HU by (split; [by left|rewrite H4; constructor]).
  pose proof (run_NoTimeout P printerIp (capture_outputDir P opts) evs w HN) as [HN1 HN2].
  split; [done|]. split.
  - intros host ms Hin. rewrite Forall_forall in HN2. by apply HN2 in Hin.
  - intros Hev r Hin.
    pose proof (run_Unstopped P printerIp (capture_outputDir P opts) evs w Hev HN HU)
      as [_ HU2].
    rewrite Forall_forall in HU2. apply HU2 in Hin.
    destruct r as [img|[]]; try done; [left|right]; eauto.
Qed.

Lemma connect_alive_attempts (reject : option (JsError -> World FS -> World FS))
    (w : World FS) :
  alive (node w) = true ->
  connectAttempts (node (finish (_connect reject w))) = connectAttempts (node w) + 1.
Proof.
  intros Hal. unfold _connect. rewrite Hal. cbn [negb]. cbv zeta.
  by destruct (_buildAuthData _ _).
Qed.

(** C5, as the code has it.  The attempt counter is zero in a new node;
    [start] does not reset it, it counts its connection attempt on top of
    what is there; every connection attempt adds one; the connect
    callback of a successful TLS handshake sets the counter back to zero,
    in the middle of the session; and no other event changes it. *)
Theorem attempt_counter :
  (forall hostname accessCode port username opts,
     connectAttempts (new_PrinterCameraNode hostname accessCode port username opts) = 0)
  /\ (forall (reject : option (JsError -> World FS -> World FS)) (w : World FS),
        alive (node w) = false ->
        connectAttempts (node (finish (start reject w))) = connectAttempts (node w) + 1)
  /\ (forall printerIp outputDir ev (w : World FS),
        connectAttempts (node (session_step P printerIp outputDir ev w)) = attempts_after ev w).
Proof.
  split; [done|]. split; [|intros; apply step_attempts].
  intros reject w Hal. unfold start. rewrite Hal. cbv zeta.
  destruct (0 <? _); by rewrite connect_alive_attempts.
Qed.

Lemma save_frame_cases (printerIp outputDir : string) (img : Buffer) (f : FS) :
  let path := path_resolve P outputDir (safe_name printerIp +:+ ".jpg") in
  (exists f1 f2,
     (fs_existsSync P outputDir f = true /\ f1 = f
      \/ fs_existsSync P outputDir f = false /\ fs_mkdirSync P outputDir f = Normal f1)
     /\ fs_writeFileSync P path img f1 = Normal f2
     /\ save_frame P printerIp outputDir img f
        = (f2, LogSaved printerIp path, Fulfilled (VString path)))
  \/ (exists e f1,
        (fs_existsSync P outputDir f = false /\ fs_mkdirSync P outputDir f = Throw e
         \/ (fs_existsSync P outputDir f = true /\ f1 = f
             \/ fs_existsSync P outputDir f = false /\ fs_mkdirSync P outputDir f = Normal f1)
            /\ fs_writeFileSync P path img f1 = Throw e)
        /\ (save_frame P printerIp outputDir img f).2 = Rejected e).
Proof.
  intros path. unfold save_frame. fold path.
  destruct (fs_existsSync P outputDir f) eqn:He; cbn [negb].
  - destruct (fs_writeFileSync P path img f) as [f2|e] eqn:Hw.
    + left. exists f, f2. eauto.
    + right. exists e, f. split; [right|done]. eauto.
  - destruct (fs_mkdirSync P outputDir f) as [f1|e] eqn:Hm.
    + destruct (fs_writeFileSync P path img f1) as [f2|e] eqn:Hw.
      * left. exists f1, f2. eauto.
      * right. exists e, f1. split; [right|done]. eauto.
    + right. exists e, f. split; [left|done]. eauto.
Qed.

(** C7, as the code has it.  When a session of the public operation
    captures a frame, the camera node hands the bytes of the frame to the
    resolve callback of the operation, and it is this callback, inside the
    operation, that saves them: it creates the output directory when it is
    missing, writes the bytes to [<outputDir>/<printerIp with . and :
    replaced by _>.jpg], and fulfils the promise of the caller with the
    path of that file, a string, not with the bytes.  When creating the
    directory or writing the file throws, the promise is rejected with the
    exception. *)
Theorem capture_resolves_with_path (printerIp code : string) (opts : CaptureOptions)
    (fs0 : FS) (w : World FS) (evs : list Event) (img : Buffer) :
  captureSingleFrameFromPrinter P printerIp code opts fs0 = Session w ->
  promise w = None ->
  let outputDir := capture_outputDir P opts in
  let path := path_resolve P outputDir (safe_name printerIp +:+ ".jpg") in
  let w' := session_run P printerIp outputDir evs w in
  results w' = [Success img] ->
  (exists f1,
     (fs_existsSync P outputDir fs0 = true /\ f1 = fs0
      \/ fs_existsSync P outputDir fs0 = false /\ fs_mkdirSync P outputDir fs0 = Normal f1)
     /\ fs_writeFileSync P path img f1 = Normal (fs w')
     /\ promise w' = Some (Fulfilled (VString path)))
  \/ (exists e f1,
        (fs_existsSync P outputDir fs0 = false /\ fs_mkdirSync P outputDir fs0 = Throw e
         \/ (fs_existsSync P outputDir fs0 = true /\ f1 = fs0
             \/ fs_existsSync P outputDir fs0 = false
                /\ fs_mkdirSync P outputDir fs0 = Normal f1)
            /\ fs_writeFileSync P path img f1 = Throw e)
        /\ promise w' = Some (Rejected e)).
Proof.
  intros Hl Hpr outputDir path w' Hres.
  pose proof (launch_facts _ _ _ _ _ Hl) as (HI & _ & Hhr & Hres0 & Hfs & _).
  assert (Saved P printerIp outputDir fs0 w) as HS.
  { split; [done|]. rewrite Hres0. by split. }
  pose proof (run_Saved P printerIp outputDir fs0 evs w HI HS) as (_ & HS2 & _).
  fold w' in HS2. destruct (HS2 img Hres) as [Hp Hf].
  destruct (save_frame_cases printerIp outputDir img fs0)
    as [(f1 & f2 & H1 & H2 & H3)|(e & f1 & H1 & H2)].
  - left. exists f1. rewrite Hp, Hf, H3. by repeat split.
  - right. exists e, f1. rewrite Hp, H2. by split.
Qed.



End Launch.

(** ** The claims on a concrete session *)

Lemma example_launch :
  captureSingleFrameFromPrinter mem_host example_ip example_code default_options empty_fs
  = Session example_started.
Proof. vm_compute. reflexivity. Defined.

Lemma example_launch_no_timer :
  captureSingleFrameFromPrinter mem_host example_ip example_code no_timeout_options empty_fs
  = Session example_started_no_timer.
Proof. vm_compute. reflexivity. Defined.

(** C1 on the example: after the capture, a redelivery of the same bytes,
    a close and a call of [stop] change nothing. *)
Lemma single_settlement_witness :
  let run := session_run mem_host example_ip example_dir in
  let evs := [SockConnect 0; SockData 0 (header10 ++ jpeg10)] in
  (length (results (run evs example_started)) <= 1)%nat
  /\ forall r, results (run evs example_started) = [r] ->
       forall evs', results (run (evs ++ evs') example_started) = [r]
                    /\ promise (run (evs ++ evs') example_started)
                       = promise (run evs example_started).
Proof.
  exact (single_settlement mem_host example_ip example_code default_options empty_fs
           example_started [SockConnect 0; SockData 0 (header10 ++ jpeg10)] example_launch).
Defined.

(** C2 fails on the code, for two reasons.  A header with a bad size
    empties the whole buffer, so what decodes after it depends on where
    the chunk ends: in one call the unit behind the bad header is lost, in
    two calls it is captured.  And bytes that arrive in a call after the
    frame was accepted are ignored instead of buffered. *)
Lemma chunking_changes_outcome :
  results (on_data example_resolve (header0 ++ header10 ++ jpeg10) example_connected) = []
  /\ results (feed_chunks example_resolve [header0; header10 ++ jpeg10] example_connected)
     = [Success jpeg10]
  /\ currentFrameBuffer
       (node (on_data example_resolve ((header10 ++ jpeg10) ++ [x01]) example_connected))
     = [x01]
  /\ currentFrameBuffer
       (node (feed_chunks example_resolve [header10 ++ jpeg10; [x01]] example_connected))
     = [].
Proof. vm_compute. repeat split. Qed.

(** C2 as amended, on a unit cut inside its header and inside its
    payload. *)
Lemma chunk_boundary_invariance_witness :
  let chunks := [take 5 header10; drop 5 header10 ++ take 3 jpeg10; drop 3 jpeg10] in
  let whole := on_data example_resolve (concat chunks) example_connected in
  let chunked := feed_chunks example_resolve chunks example_connected in
  exists ignored : Buffer,
    whole = append ignored chunked
    /\ results whole = results chunked
    /\ lastFrameData (node whole) = lastFrameData (node chunked)
    /\ isReceivingImage (node whole) = isReceivingImage (node chunked)
    /\ expectedPayloadSize (node whole) = expectedPayloadSize (node chunked)
    /\ currentFrameBuffer (node whole) = currentFrameBuffer (node chunked) ++ ignored
    /\ (hasResolvedOrRejected
          (node (feed_chunks example_resolve (removelast chunks) example_connected)) = false ->
        ignored = [] /\ whole = chunked).
Proof.
  apply (chunk_boundary_invariance mem_host example_ip example_dir example_connected
           [take 5 header10; drop 5 header10 ++ take 3 jpeg10; drop 3 jpeg10]).
  - reflexivity.
  - reflexivity.
  - vm_compute. discriminate.
  - discriminate.
  - vm_compute. reflexivity.
Defined.

(** C3 fails on the code: the unit that follows a bad header in the same
    call is dropped with it, where the claim has it decoded. *)
Lemma bad_header_drops_following_unit :
  let w' := on_data example_resolve (header0 ++ header10 ++ jpeg10) example_connected in
  currentFrameBuffer (node w') = []
  /\ currentFrameBuffer (node w') <> drop 16 (header0 ++ header10 ++ jpeg10)
  /\ results w' = []
  /\ results (on_data example_resolve (header10 ++ jpeg10) example_connected)
     = [Success jpeg10].
Proof. vm_compute. repeat split. discriminate. Qed.

Lemma bad_header_resets_buffer_witness :
  let data := header0 ++ header10 ++ jpeg10 in
  let w' := on_data example_resolve data example_connected in
  w' = decoder_upd [] 0 false
         [LogHeader example_ip 0; LogInvalidSize example_ip 0] example_connected
  /\ currentFrameBuffer (node w') = []
  /\ isReceivingImage (node w') = false
  /\ results w' = results example_connected
  /\ uncaught w' = uncaught example_connected
  /\ promise w' = promise example_connected.
Proof.
  apply (bad_header_resets_buffer mem_host example_ip example_dir example_connected
           (header0 ++ header10 ++ jpeg10)).
  - reflexivity.
  - reflexivity.
  - reflexivity.
  - vm_compute. lia.
  - left. reflexivity.
Defined.

(** C5 fails on the code: the connect callback resets the counter in the
    middle of the session. *)
Lemma connect_resets_counter :
  connectAttempts (node example_started) = 1
  /\ connectAttempts (node example_connected) = 0.
Proof. vm_compute. split; reflexivity. Qed.

(** With the counter reset by every handshake, a transport that closes
    after each handshake is reconnected to a fourth time. *)
Example fourth_attempt_after_handshakes :
  let evs := [SockConnect 0; SockClose 0 false; TimerFire 1;
              SockConnect 1; SockClose 1 false; TimerFire 2;
              SockConnect 2; SockClose 2 false; TimerFire 3] in
  let w := session_run mem_host example_ip example_dir evs example_started in
  length (sockets w) = 4%nat /\ results w = [].
Proof. vm_compute. split; reflexivity. Qed.

Lemma attempt_counter_witness :
  connectAttempts
    (node (finish (start example_reject
                     (new_world (new_PrinterCameraNode example_ip example_code 6000 "bblp"
                                   {| arg_frameProcessingMode := None;
                                      arg_timeoutMs := None |}) empty_fs))))
  = 0 + 1.
Proof.
  apply (proj1 (proj2 (attempt_counter mem_host))). reflexivity.
Defined.

Lemma exact_extraction_witness :
  let w' := on_data example_resolve (header10 ++ jpeg10 ++ [x01; x02]) example_connected in
  results w' = results example_connected ++ [Success jpeg10]
  /\ lastFrameData (node w') = Some jpeg10
  /\ currentFrameBuffer (node w') = [x01; x02].
Proof.
  apply (exact_extraction mem_host example_ip example_dir example_connected
           header10 jpeg10 [x01; x02] 10).
  - reflexivity.
  - reflexivity.
  - reflexivity.
  - reflexivity.
  - reflexivity.
  - reflexivity.
  - lia.
  - reflexivity.
  - reflexivity.
  - reflexivity.
Defined.

(** C7 fails on the code: the promise is fulfilled with the path of the
    file the operation itself has written, not with the bytes. *)
Lemma resolves_with_path_not_bytes :
  results example_captured = [Success jpeg10]
  /\ promise example_captured = Some (Fulfilled (VString "/srv/bot/192_168_1_5.jpg"))
  /\ promise example_captured <> Some (Fulfilled (VBuffer jpeg10))
  /\ files (fs example_captured) = [("/srv/bot/192_168_1_5.jpg", jpeg10)].
Proof. vm_compute. repeat split. discriminate. Qed.

Lemma capture_resolves_with_path_witness :
  let path := "/srv/bot/192_168_1_5.jpg" in
  let w' := session_run mem_host example_ip example_dir
              [SockConnect 0; SockData 0 (header10 ++ jpeg10)] example_started in
  (exists f1,
     (mem_exists example_dir empty_fs = true /\ f1 = empty_fs
      \/ mem_exists example_dir empty_fs = false /\ mem_mkdir example_dir empty_fs = Normal f1)
     /\ mem_write path jpeg10 f1 = Normal (fs w')
     /\ promise w' = Some (Fulfilled (VString path)))
  \/ (exists e f1,
        (mem_exists example_dir empty_fs = false /\ mem_mkdir example_dir empty_fs = Throw e
         \/ (mem_exists example_dir empty_fs = true /\ f1 = empty_fs
             \/ mem_exists example_dir empty_fs = false
                /\ mem_mkdir example_dir empty_fs = Normal f1)
            /\ mem_write path jpeg10 f1 = Throw e)
        /\ promise w' = Some (Rejected e)).
Proof.
  apply (capture_resolves_with_path mem_host example_ip example_code default_options
           empty_fs example_started [SockConnect 0; SockData 0 (header10 ++ jpeg10)] jpeg10
           example_launch).
  - reflexivity.
  - vm_compute. reflexivity.
Defined.

Lemma auth_record_layout_witness :
  let record := auth_record "bblp" example_code in
  length record = 80%nat
  /\ _buildAuthData "bblp" example_code = Normal record
  /\ exists w', _connect example_reject example_started = Done w'
       /\ socket (node w') = Some 1%nat
       /\ sock_written <$> sockets w' !! 1%nat = Some []
       /\ sock_written <$>
            sockets (step example_resolve example_reject (SockConnect 1) w') !! 1%nat
          = Some [record].
Proof.
  apply (auth_record_layout example_resolve example_reject example_started).
  - reflexivity.
  - reflexivity.
  - reflexivity.
  - vm_compute. lia.
  - vm_compute. lia.
Defined.

(** C9 fails on the code: a call of [stop] in a settled session emits a
    ['stopped'] event, which a listener of the node observes. *)
Lemma stop_emits_after_settlement :
  hasResolvedOrRejected (node example_captured) = true
  /\ emitted (stop example_captured) = emitted example_captured ++ ["stopped"]
  /\ stop example_captured <> example_captured.
Proof. vm_compute. repeat split. discriminate. Qed.

Lemma stop_after_settlement_witness :
  let w' := session_run mem_host example_ip example_dir
              [SockConnect 0; SockData 0 (header10 ++ jpeg10)] example_started in
  let w'' := stop_times 2 w' in
  results w'' = results w'
  /\ promise w'' = promise w'
  /\ node w'' = node w'
  /\ sockets w'' = sockets w'
  /\ timers w'' = timers w'
  /\ fs w'' = fs w'
  /\ uncaught w'' = uncaught w'
  /\ emitted w'' = emitted w' ++ replicate 2 "stopped"
  /\ console w'' = console w' ++ replicate 2 (LogStopped example_ip).
Proof.
  apply (stop_after_settlement mem_host example_ip example_code default_options empty_fs
           example_started [SockConnect 0; SockData 0 (header10 ++ jpeg10)] 2
           example_launch).
  vm_compute. reflexivity.
Defined.

Lemma no_timer_no_timeout_witness :
  operationTimeout (node example_started_no_timer) = None
  /\ timers example_started_no_timer = []
  /\ forall evs,
       let w' := session_run mem_host example_ip example_dir evs example_started_no_timer in
       Forall (fun tm => timer_kind tm = ReconnectTimer) (timers w')
       /\ (forall host ms, Failure (ErrOperationTimeout host ms) ∉ results w')
       /\ (CallStop ∉ evs ->
           forall r, r ∈ results w' ->
             (exists img, r = Success img)
             \/ exists host n, r = Failure (ErrConnectFailed host n)).
Proof.
  apply (no_timer_no_timeout mem_host example_ip example_code no_timeout_options empty_fs
           example_started_no_timer 0).
  - reflexivity.
  - lia.
  - exact example_launch_no_timer.
Defined.

(** * Further properties of the code *)

(** ** Credentials that do not fit the record *)

Lemma Buffer_copy_length (src target : Buffer) (off : nat) :
  length (Buffer_copy src target off) = length target.
Proof.
  revert target off. induction src as [|b src IH]; intros target off; [done|].
  cbn [Buffer_copy]. by rewrite IH, length_insert.
Qed.

(** [copy] writes the bytes that fit and drops the rest. *)
Lemma Buffer_copy_clip (src target : Buffer) (off : nat) :
  Buffer_copy src target off =
  take off target ++ take (length target - off) src ++ drop (off + length src) target.
Proof.
  revert target off. induction src as [|b src IH]; intros target off;
    cbn [Buffer_copy length].
  - rewrite take_nil, Nat.add_0_r. cbn [app]. by rewrite take_drop.
  - rewrite IH, length_insert.
    destruct (Nat.lt_ge_cases off (length target)) as [Hlt|Hge].
    + rewrite drop_insert_lt by lia.
      rewrite (take_S_r _ _ b) by (apply list_lookup_insert_eq; lia).
      rewrite take_insert_ge by lia.
      replace (length target - off)%nat with (S (length target - S off)) by lia.
      cbn [take]. rewrite <- app_assoc. cbn [app].
      by replace (S off + length src)%nat with (off + S (length src))%nat by lia.
    + rewrite list_insert_ge by lia.
      replace (length target - S off)%nat with 0%nat by lia.
      replace (length target - off)%nat with 0%nat by lia.
      rewrite !take_0, !drop_ge by lia.
      by rewrite (take_ge target (S off)), (take_ge target off) by lia.
Qed.

(** The padding loop throws at the first offset outside the buffer. *)
Lemma zero_pad_overflow (count off : nat) (buf : Buffer) :
  (length buf < off + count)%nat -> (0 < count)%nat ->
  zero_pad count off buf = Throw (ErrOutOfRange (off `max` length buf)).
Proof.
  revert off buf. induction count as [|count IH]; intros off buf Hlen Hpos; [lia|].
  cbn [zero_pad]. unfold writeUInt8.
  destruct (decide (off < length buf)%nat) as [Hlt|Hge]; cbn [mbind Completion_bind].
  - rewrite IH by (rewrite ?length_insert; lia).
    rewrite length_insert. do 2 f_equal. lia.
  - do 2 f_equal. lia.
Qed.

(** The sixteen bytes in front of the two fields. *)
Lemma buildAuthData_fields (username accessCode : string) :
  let p := auth_magic ++ auth_message_type ++ replicate 8 x00 in
  let U := Buffer_from_ascii username in
  let C := Buffer_from_ascii accessCode in
  _buildAuthData username accessCode =
  '(b1, o1) ← zero_pad (32 - length U) (16 + length U)
                (Buffer_copy U (p ++ replicate 64 x00) 16);
  '(b2, _) ← zero_pad (32 - length C) (o1 + length C) (Buffer_copy C b1 o1);
  mret b2.
Proof. reflexivity. Qed.

(** The buffer and the offset after the username. *)
Lemma username_field (p U : Buffer) :
  length p = 16%nat ->
  zero_pad (32 - length U) (16 + length U) (Buffer_copy U (p ++ replicate 64 x00) 16) =
  Normal (take 80 (p ++ pad32 U ++ replicate 32 x00), length (p ++ pad32 U)).
Proof.
  intros Hp. destruct (Nat.le_gt_cases (length U) 32) as [Hle|Hgt].
  - pose proof (auth_field p U 64 Hle ltac:(lia)) as H. rewrite Hp in H. rewrite H.
    f_equal. f_equal.
    + rewrite take_ge; [done|].
      unfold pad32. rewrite !length_app, !length_replicate. lia.
    + unfold pad32. rewrite !length_app, length_replicate. lia.
  - replace (32 - length U)%nat with 0%nat by lia. cbn [zero_pad].
    f_equal. f_equal.
    + rewrite Buffer_copy_clip. unfold pad32.
      replace (32 - length U)%nat with 0%nat by lia.
      change (replicate 0 x00) with (@nil byte). rewrite app_nil_r.
      rewrite length_app, length_replicate, Hp.
      rewrite !take_app, !drop_app, Hp.
      rewrite (take_ge p 16), (take_ge p 80), (drop_ge p) by lia.
      rewrite !take_replicate, drop_replicate.
      replace ((16 - 16) `min` 64)%nat with 0%nat by lia.
      change (replicate 0 x00) with (@nil byte). rewrite app_nil_r. cbn [app].
      f_equal. f_equal; f_equal; lia.
    + unfold pad32. rewrite !length_app, length_replicate. lia.
Qed.

(** An access code of 32 bytes or more is not padded: the record is the
    header, the padded username and the code, cut at 80 bytes. *)
Lemma buildAuthData_long_code (username accessCode : string) :
  (32 <= String.length accessCode)%nat ->
  _buildAuthData username accessCode =
  Normal (take 80 ((auth_magic ++ auth_message_type ++ replicate 8 x00)
                   ++ pad32 (Buffer_from_ascii username)
                   ++ Buffer_from_ascii accessCode)).
Proof.
  intros Hc. rewrite <- length_Buffer_from_ascii in Hc.
  rewrite buildAuthData_fields. cbv zeta.
  rewrite username_field by done. cbn [mbind Completion_bind].
  set (p := auth_magic ++ auth_message_type ++ replicate 8 x00).
  set (U := Buffer_from_ascii username) in *. set (C := Buffer_from_ascii accessCode) in *.
  replace (32 - length C)%nat with 0%nat by lia.
  cbn [zero_pad mbind Completion_bind mret Completion_ret]. f_equal.
  assert (48 <= length (p ++ pad32 U))%nat as Hx.
  { unfold pad32. rewrite !length_app, length_replicate. change (length p) with 16%nat. lia. }
  rewrite Buffer_copy_clip.
  assert (length (take 80 (p ++ pad32 U ++ replicate 32 x00)) = 80%nat) as Hl.
  { rewrite length_take, (app_assoc p), length_app, length_replicate. lia. }
  rewrite Hl, drop_ge, app_nil_r by lia.
  rewrite take_take, (app_assoc p (pad32 U) (replicate _ _)).
  rewrite (app_assoc p (pad32 U) C).
  rewrite (take_app (p ++ pad32 U) C 80). f_equal.
  rewrite take_app.
  replace (length (p ++ pad32 U) `min` 80 - length (p ++ pad32 U))%nat with 0%nat by lia.
  cbn [take]. rewrite app_nil_r.
  destruct (Nat.le_ge_cases (length (p ++ pad32 U)) 80).
  - rewrite Nat.min_l by lia. by rewrite !take_ge by lia.
  - by rewrite Nat.min_r by lia.
Qed.

(** A username of more than 32 bytes leaves no room for the padding of a
    shorter access code. *)
Lemma buildAuthData_overflow (username accessCode : string) :
  (32 < String.length username)%nat ->
  (String.length accessCode < 32)%nat ->
  _buildAuthData username accessCode =
  Throw (ErrOutOfRange ((16 + String.length username + String.length accessCode) `max` 80)).
Proof.
  intros Hu Hc. rewrite <- length_Buffer_from_ascii in Hu, Hc.
  rewrite buildAuthData_fields. cbv zeta.
  rewrite username_field by done. cbn [mbind Completion_bind].
  set (p := auth_magic ++ auth_message_type ++ replicate 8 x00).
  set (U := Buffer_from_ascii username) in *. set (C := Buffer_from_ascii accessCode) in *.
  assert (length (p ++ pad32 U) = 16 + length U)%nat as Hx.
  { unfold pad32. rewrite !length_app, length_replicate. change (length p) with 16%nat. lia. }
  assert (length (take 80 (p ++ pad32 U ++ replicate 32 x00)) = 80%nat) as Hl.
  { rewrite length_take, (app_assoc p), length_app, length_replicate. lia. }
  rewrite zero_pad_overflow by (rewrite ?Buffer_copy_length, ?Hl; lia).
  cbn [mbind Completion_bind]. rewrite Buffer_copy_length, Hl, Hx.
  subst U C. by rewrite !length_Buffer_from_ascii.
Qed.

(** X1.  For an access code of 32 bytes or more the record is the first 80
    bytes of the header, the username padded to 32 bytes and the code: a
    longer code is cut to the room that is left, and a username of more
    than 32 bytes takes that room from the code. *)
Theorem long_access_code_is_cut (username accessCode : string) :
  (32 <= String.length accessCode)%nat ->
  _buildAuthData username accessCode =
  Normal (take 80 ((auth_magic ++ auth_message_type ++ replicate 8 x00)
                   ++ pad32 (Buffer_from_ascii username)
                   ++ Buffer_from_ascii accessCode))
  /\ ((String.length username <= 32)%nat ->
      _buildAuthData username accessCode =
      Normal (auth_magic ++ auth_message_type ++ replicate 8 x00
              ++ pad32 (Buffer_from_ascii username)
              ++ take 32 (Buffer_from_ascii accessCode))).
Proof.
  intros Hc. split; [by apply buildAuthData_long_code|].
  intros Hu. rewrite buildAuthData_long_code by done. f_equal.
  rewrite <- length_Buffer_from_ascii in Hu.
  set (U := Buffer_from_ascii username) in *.
  assert (length ((auth_magic ++ auth_message_type ++ replicate 8 x00) ++ pad32 U) = 48%nat)
    as Hx.
  { unfold pad32. rewrite !length_app, !length_replicate.
    cbn [length auth_magic auth_message_type]. lia. }
  rewrite (app_assoc (_ ++ _ ++ _) (pad32 U)), take_app, Hx.
  rewrite take_ge by lia. by rewrite <- !app_assoc.
Qed.

Lemma long_access_code_is_cut_witness :
  _buildAuthData "bblp" "0123456789abcdef0123456789abcdefXYZ" =
  Normal (auth_magic ++ auth_message_type ++ replicate 8 x00
          ++ pad32 (Buffer_from_ascii "bblp")
          ++ Buffer_from_ascii "0123456789abcdef0123456789abcdef").
Proof.
  apply (proj2 (long_access_code_is_cut "bblp" "0123456789abcdef0123456789abcdefXYZ"
                  ltac:(vm_compute; lia))).
  vm_compute. lia.
Defined.

(** X2.  With a username of more than 32 bytes and an access code of fewer than
    32, [_buildAuthData] throws the range error of [writeUInt8]: the
    padding of the code runs past the end of the 80-byte buffer. *)
Theorem long_username_throws (username accessCode : string) :
  (32 < String.length username)%nat ->
  (String.length accessCode < 32)%nat ->
  _buildAuthData username accessCode =
  Throw (ErrOutOfRange ((16 + String.length username + String.length accessCode) `max` 80)).
Proof. apply buildAuthData_overflow. Qed.

Lemma long_username_throws_witness :
  _buildAuthData "a-user-name-of-thirty-three-bytes" "12345678" = Throw (ErrOutOfRange 80).
Proof.
  apply (long_username_throws "a-user-name-of-thirty-three-bytes" "12345678");
    vm_compute; lia.
Defined.

(** X3.  Whatever the username and the access code, a record that
    [_buildAuthData] returns has 80 bytes and begins with the magic
    constant, the message type and eight zero bytes. *)
Theorem auth_record_size_and_header (username accessCode : string) (record : Buffer) :
  _buildAuthData username accessCode = Normal record ->
  length record = 80%nat
  /\ take 16 record = auth_magic ++ auth_message_type ++ replicate 8 x00.
Proof.
  intros H.
  destruct (Nat.le_gt_cases 32 (String.length accessCode)) as [Hc|Hc].
  - pose proof (buildAuthData_long_code username accessCode Hc) as E.
    rewrite H in E.
    set (p := auth_magic ++ auth_message_type ++ replicate 8 x00) in *.
    assert (length p = 16%nat) as Hp by done. clearbody p.
    injection E as ->. split.
    + rewrite length_take, !length_app, length_Buffer_from_ascii, Hp. unfold pad32.
      rewrite length_app, length_replicate. lia.
    + rewrite take_take. change (16 `min` 80)%nat with 16%nat.
      rewrite take_app, Hp, take_ge by lia.
      replace (16 - 16)%nat with 0%nat by lia. by rewrite take_0, app_nil_r.
  - destruct (Nat.le_gt_cases (String.length username) 32) as [Hu|Hu].
    + rewrite buildAuthData_fits in H by (rewrite length_Buffer_from_ascii; lia).
      injection H as <-. split; [apply length_auth_record; lia|done].
    + by rewrite buildAuthData_overflow in H.
Qed.

Lemma auth_record_size_and_header_witness :
  length (auth_record "bblp" "12345678") = 80%nat
  /\ take 16 (auth_record "bblp" "12345678")
     = auth_magic ++ auth_message_type ++ replicate 8 x00.
Proof.
  apply (auth_record_size_and_header "bblp" "12345678"). reflexivity.
Defined.

(** ** The size field, the marker test and the file name *)

Lemma byte_val_byte_of_Z (v : Z) : byte_val (byte_of_Z v) = v `mod` 256.
Proof.
  unfold byte_val, byte_of_Z.
  change 255 with (Z.ones 8). rewrite Z.land_ones by lia. change (2 ^ 8) with 256.
  pose proof (Z.mod_pos_bound v 256 ltac:(lia)) as Hb.
  destruct (Byte.of_N (Z.to_N (v `mod` 256))) as [b|] eqn:E.
  - apply Byte.to_of_N in E. rewrite E. lia.
  - apply Byte.of_N_None_iff in E. lia.
Qed.

(** X4.  The size that [writeUInt32LE] puts at the head of a buffer is the size
    the decoder reads with [readUInt32LE]; the write changes the first four
    bytes only. *)
Theorem size_field_round_trip (v : Z) (buf : Buffer) :
  0 <= v < 2 ^ 32 ->
  (4 <= length buf)%nat ->
  exists buf', writeUInt32LE v 0 buf = Normal buf'
    /\ readUInt32LE buf' = v
    /\ length buf' = length buf
    /\ drop 4 buf' = drop 4 buf.
Proof.
  intros Hv Hlen.
  destruct buf as [|b0 [|b1 [|b2 [|b3 buf]]]]; cbn [length] in Hlen; try lia.
  unfold writeUInt32LE. rewrite decide_True by (cbn [length]; lia).
  eexists. split; [reflexivity|]. cbn.
  split; [|done].
  rewrite !byte_val_byte_of_Z, !Z.shiftr_div_pow2, !Z.shiftl_mul_pow2 by lia.
  change (2 ^ 8) with 256. change (2 ^ 16) with 65536. change (2 ^ 24) with 16777216.
  change (2 ^ 32) with 4294967296 in Hv.
  Z.to_euclidean_division_equations. lia.
Qed.

Lemma size_field_round_trip_witness :
  exists buf', writeUInt32LE 65536 0 (Buffer_alloc 16) = Normal buf'
    /\ readUInt32LE buf' = 65536
    /\ length buf' = length (Buffer_alloc 16)
    /\ drop 4 buf' = drop 4 (Buffer_alloc 16).
Proof.
  apply (size_field_round_trip 65536 (Buffer_alloc 16)).
  - lia.
  - vm_compute. lia.
Defined.

Lemma is_jpeg_markers (img : Buffer) :
  is_jpeg img = true <->
  exists body, img = JPEG_START_MARKER ++ body ++ JPEG_END_MARKER.
Proof.
  rewrite is_jpeg_spec. split.
  - intros (_ & Hsoi & Heoi).
    assert (6 <= length img)%nat as Hlen.
    { destruct img as [|a [|b [|c [|d [|e [|f img]]]]]];
        cbn in Hsoi, Heoi; try discriminate; [| |cbn [length]; lia].
      - injection Hsoi as -> -> -> ->. discriminate.
      - injection Hsoi as -> -> -> ->. discriminate. }
    exists (take (length img - 6) (drop 4 img)).
    rewrite <- Hsoi at 1. rewrite <- Heoi at 1.
    replace (length img - 2)%nat with (4 + (length img - 6))%nat by lia.
    rewrite <- drop_drop, take_drop. by rewrite take_drop.
  - intros [body ->]. split; [done|]. split; [done|].
    rewrite !length_app. cbn [length JPEG_START_MARKER JPEG_END_MARKER].
    replace (4 + (length body + 2) - 2)%nat with (4 + length body)%nat by lia.
    rewrite <- drop_drop. cbn [drop JPEG_START_MARKER app].
    by rewrite drop_0, drop_app_length.
Qed.


Lemma is_jpeg_length (img : Buffer) : is_jpeg img = true -> (6 <= length img)%nat.
Proof.
  intros [body ->]%is_jpeg_markers. rewrite !length_app. cbn [length JPEG_START_MARKER JPEG_END_MARKER]. lia.
Qed.

(** X5.  The test a payload has to pass accepts exactly the buffers that are
    the start marker, any bytes, and the end marker, in this order and
    without overlap: no payload of fewer than six bytes is a frame. *)
Theorem marker_test_accepts (img : Buffer) :
  is_jpeg img = true <->
  exists body, img = JPEG_START_MARKER ++ body ++ JPEG_END_MARKER.
Proof. apply is_jpeg_markers. Qed.

Lemma marker_test_accepts_witness :
  is_jpeg jpeg10 = true.
Proof.
  apply (proj2 (marker_test_accepts jpeg10)).
  exists [x01; x02; x03; x04]. reflexivity.
Defined.

Lemma safe_name_length (s : string) : String.length (safe_name s) = String.length s.
Proof. induction s as [|c s IH]; cbn; congruence. Qed.

(** X6.  The name a frame is saved under has the length of the printer's
    address and contains neither a dot nor a colon; an address without
    them is kept as it is, and replacing a second time changes nothing. *)
Theorem safe_name_is_safe (s : string) :
  String.length (safe_name s) = String.length s
  /\ Forall (fun c => c <> "."%char /\ c <> ":"%char) (String.list_ascii_of_string (safe_name s))
  /\ (Forall (fun c => c <> "."%char /\ c <> ":"%char) (String.list_ascii_of_string s) ->
      safe_name s = s)
  /\ safe_name (safe_name s) = safe_name s.
Proof.
  split; [apply safe_name_length|].
  assert (Forall (fun c => c <> "."%char /\ c <> ":"%char)
            (String.list_ascii_of_string (safe_name s))) as Hsafe.
  { induction s as [|c s IH]; cbn [safe_name String.list_ascii_of_string]; [done|].
    constructor; [|done].
    destruct (bool_decide (c = "."%char)) eqn:E1; [done|].
    destruct (bool_decide (c = ":"%char)) eqn:E2; [done|].
    apply bool_decide_eq_false in E1, E2. done. }
  assert (forall t, Forall (fun c => c <> "."%char /\ c <> ":"%char) (String.list_ascii_of_string t) ->
                    safe_name t = t) as Hid.
  { intros t. induction t as [|c t IH]; cbn [safe_name String.list_ascii_of_string]; [done|].
    intros H. apply Forall_cons in H as [[H1 H2] Ht].
    rewrite IH by done.
    by rewrite (bool_decide_eq_false_2 _ H1), (bool_decide_eq_false_2 _ H2). }
  split; [done|]. split; [apply Hid|by apply Hid].
Qed.

Lemma safe_name_is_safe_witness :
  safe_name "printer-7" = "printer-7".
Proof.
  apply (proj1 (proj2 (proj2 (safe_name_is_safe "printer-7")))).
  vm_compute. repeat constructor; discriminate.
Defined.

(** ** The decoder on units that are not frames *)

Section Decoder.
Context {FS : Type} (P : Platform FS) (printerIp outputDir : string).

Local Abbreviation rs := (Some (capture_resolve P printerIp outputDir)).

Lemma drain_waits (w : World FS) :
  alive (node w) = true ->
  hasResolvedOrRejected (node w) = false ->
  (if isReceivingImage (node w)
   then Z.of_nat (length (currentFrameBuffer (node w))) < expectedPayloadSize (node w)
   else (length (currentFrameBuffer (node w)) < 16)%nat) ->
  drain rs w = w.
Proof.
  intros Hal Hhr Hwait. unfold drain. cbn [Nat.add]. rewrite data_loop_round.
  destruct (loop_guard w); [|done]. unfold one_round.
  destruct (isReceivingImage (node w)) eqn:Hr.
  - rewrite header_block_skip by done. by rewrite payload_block_wait.
  - by rewrite header_block_wait.
Qed.

(** X7.  A unit whose payload fails the marker test is consumed and reported
    on the console, and the bytes behind it are decoded as if they had
    arrived on their own: the unit produces no result and does not end the
    session. *)
Theorem non_jpeg_unit_is_skipped (w : World FS) (header payload rest : Buffer) (L : Z) :
  alive (node w) = true ->
  hasResolvedOrRejected (node w) = false ->
  isReceivingImage (node w) = false ->
  currentFrameBuffer (node w) = [] ->
  length header = 16%nat ->
  readUInt32LE header = L ->
  0 < L <= 15 * 1024 * 1024 ->
  Z.of_nat (length payload) = L ->
  is_jpeg payload = false ->
  let skipped := decoder_upd [] 0 false
                   [LogHeader (hostname (node w)) L; LogInvalidJpeg (hostname (node w))] w in
  on_data rs (header ++ payload ++ rest) w = on_data rs rest skipped
  /\ on_data rs (header ++ payload) w = skipped
  /\ results skipped = results w
  /\ promise skipped = promise w.
Proof.
  intros Hal Hhr Hir Hbuf Hhdr HL Hrange Hlen Hjpg skipped.
  assert (forall rest, on_data rs (header ++ payload ++ rest) w
                       = drain rs (append rest skipped)) as Hskip.
  { clear rest. intros rest.
    rewrite on_data_drain, Hal, Hhr. cbn [negb orb].
    set (w0 := append _ w).
    assert (currentFrameBuffer (node w0) = header ++ payload ++ rest) as Hbuf0.
    { subst w0. cbn. by rewrite Hbuf. }
    unfold drain at 1. cbn [Nat.add]. rewrite data_loop_round.
    assert (loop_guard w0 = true) as ->.
    { unfold loop_guard. rewrite Hbuf0. subst w0. cbn. rewrite Hal, Hhr.
      rewrite length_app, Hhdr. cbn. done. }
    unfold one_round.
    rewrite header_block_read;
      [| subst w0; cbn; done | rewrite Hbuf0, length_app; lia].
    rewrite Hbuf0, readUInt32LE_app, HL by lia.
    assert (bad_size L = false) as ->.
    { unfold bad_size. apply orb_false_iff. split; [apply Z.eqb_neq|apply Z.ltb_ge]; lia. }
    rewrite drop_app_length' by done.
    set (w1 := decoder_upd _ _ _ _ w0).
    rewrite payload_block_slice;
      [| done | subst w1; cbn; rewrite length_app; lia].
    subst w1. cbn [decoder_upd node currentFrameBuffer expectedPayloadSize
                   set_currentFrameBuffer set_expectedPayloadSize].
    replace (Z.to_nat L) with (length payload) by lia.
    rewrite take_app_length, drop_app_length, Hjpg.
    assert ((0 <? Z.of_nat (length payload)) = true) as -> by (apply Z.ltb_lt; lia).
    match goal with |- data_loop _ _ ?x = _ =>
      assert (x = append rest skipped) as -> end.
    { subst skipped w0. destruct_world w. cbn in Hbuf. subst.
      unfold decoder_upd, append. wsimpl. by rewrite <- app_assoc. }
    unfold drain. apply data_loop_fuel.
    - done.
    - unfold rounds_left. subst skipped. cbn. rewrite !length_app. lia.
    - unfold rounds_left. subst skipped. cbn. lia. }
  split; [|split; [|done]].
  - rewrite Hskip, on_data_drain. subst skipped. cbn [decoder_upd node alive
      hasResolvedOrRejected set_currentFrameBuffer set_expectedPayloadSize
      set_isReceivingImage].
    destruct_world w. cbn in Hal, Hhr. subst. reflexivity.
  - pose proof (Hskip []) as H. rewrite !app_nil_r in H. rewrite H.
    rewrite append_nil. apply drain_waits; subst skipped; cbn; (done || lia).
Qed.

(** X8.  Bytes that do not yet make a unit are kept and nothing else happens:
    fewer than sixteen bytes stay in the buffer as they are, and after a
    valid header the part of the payload that has arrived is all the
    buffer holds, with the decoder waiting for the rest. *)
Theorem incomplete_unit_is_buffered (w : World FS) :
  alive (node w) = true ->
  hasResolvedOrRejected (node w) = false ->
  isReceivingImage (node w) = false ->
  (forall data,
     (length (currentFrameBuffer (node w) ++ data) < 16)%nat ->
     on_data rs data w = append data w)
  /\ (forall header part L,
        currentFrameBuffer (node w) = [] ->
        length header = 16%nat ->
        readUInt32LE header = L ->
        0 < L <= 15 * 1024 * 1024 ->
        Z.of_nat (length part) < L ->
        on_data rs (header ++ part) w
        = decoder_upd part L true [LogHeader (hostname (node w)) L] w).
Proof.
  intros Hal Hhr Hir. split.
  - intros data Hlen. rewrite on_data_drain, Hal, Hhr. cbn [negb orb].
    apply drain_waits; cbn; rewrite ?Hir; done.
  - intros header part L Hbuf Hhdr HL Hrange Hlen.
    rewrite on_data_drain, Hal, Hhr. cbn [negb orb].
    set (w0 := append _ w).
    assert (currentFrameBuffer (node w0) = header ++ part) as Hbuf0.
    { subst w0. cbn. by rewrite Hbuf. }
    unfold drain. cbn [Nat.add]. rewrite data_loop_round.
    assert (loop_guard w0 = true) as ->.
    { unfold loop_guard. rewrite Hbuf0. subst w0. cbn. rewrite Hal, Hhr.
      rewrite length_app, Hhdr. cbn. done. }
    unfold one_round.
    rewrite header_block_read;
      [| subst w0; cbn; done | rewrite Hbuf0, length_app; lia].
    rewrite Hbuf0, readUInt32LE_app, HL by lia.
    assert (bad_size L = false) as ->.
    { unfold bad_size. apply orb_false_iff. split; [apply Z.eqb_neq|apply Z.ltb_ge]; lia. }
    rewrite drop_app_length' by done.
    rewrite payload_block_wait; [|done|cbn; lia].
    subst w0. destruct_world w. cbn in Hbuf. subst. reflexivity.
Qed.

End Decoder.

(** ** Timers and frames of a session *)

Lemma lookup_disarmed (ts : list Timer) (m t : nat) (tm : Timer) :
  alter timer_disarm m ts !! t = Some tm -> timer_armed tm = true ->
  t <> m /\ ts !! t = Some tm.
Proof.
  intros Hl Ha. destruct (decide (t = m)) as [->|Hne].
  - rewrite list_lookup_alter_eq in Hl.
    destruct (ts !! m) as [tm'|]; [|done]. injection Hl as <-. cbn in Ha. done.
  - by rewrite list_lookup_alter_ne in Hl.
Qed.

Lemma lookup_snoc_inv {A : Type} (l : list A) (x y : A) (t : nat) :
  (l ++ [x]) !! t = Some y -> l !! t = Some y \/ (t = length l /\ y = x).
Proof.
  intros Hl. apply lookup_app_Some in Hl as [Hl|[Hge Hl]]; [by left|right].
  destruct (t - length l)%nat as [|n] eqn:E; [|done].
  injection Hl as <-. split; [lia|done].
Qed.

Lemma kind_at_disarm (ts : list Timer) (m t : nat) (k : TimerKind) :
  kind_at ts t k -> kind_at (alter timer_disarm m ts) t k.
Proof.
  intros (tm & Hl & Hk). destruct (decide (t = m)) as [->|Hne].
  - exists (timer_disarm tm). by rewrite list_lookup_alter_eq, Hl.
  - exists tm. by rewrite list_lookup_alter_ne.
Qed.

Lemma kind_at_snoc (ts : list Timer) (x : Timer) (t : nat) (k : TimerKind) :
  kind_at ts t k -> kind_at (ts ++ [x]) t k.
Proof.
  intros (tm & Hl & Hk). exists tm. split; [|done].
  rewrite lookup_app_l; [done|]. by eapply lookup_lt_Some.
Qed.

Lemma kind_at_new (ts : list Timer) (x : Timer) :
  kind_at (ts ++ [x]) (length ts) (timer_kind x).
Proof. exists x. split; [apply lookup_snoc|done]. Qed.

Lemma kind_at_ne (ts : list Timer) (t m : nat) :
  kind_at ts t OperationTimer -> kind_at ts m ReconnectTimer -> t <> m.
Proof. intros (tm & Hl & Hk) (tm' & Hl' & Hk') ->. congruence. Qed.

Lemma lookup_keep_disarm (ts : list Timer) (t m : nat) (x : Timer) :
  ts !! t = Some x -> t <> m -> alter timer_disarm m ts !! t = Some x.
Proof. intros Hl Hne. by rewrite list_lookup_alter_ne. Qed.

Lemma lookup_keep_snoc {A : Type} (l : list A) (t : nat) (x y : A) :
  l !! t = Some x -> (l ++ [y]) !! t = Some x.
Proof. intros Hl. rewrite lookup_app_l; [done|]. by eapply lookup_lt_Some. Qed.

Lemma kind_at_lookup (ts : list Timer) (t : nat) (tm : Timer) :
  ts !! t = Some tm -> kind_at ts t (timer_kind tm).
Proof. intros Hl. by exists tm. Qed.

Create HintDb timers.
#[local] Hint Resolve lookup_keep_disarm lookup_keep_snoc kind_at_ne : timers.
#[local] Hint Resolve kind_at_disarm kind_at_snoc kind_at_new : timers.

Section Timers.
Context {FS : Type} (P : Platform FS) (printerIp outputDir : string).

Local Abbreviation rs := (Some (capture_resolve P printerIp outputDir)).
Local Abbreviation rj := (Some (capture_reject printerIp)).

Ltac held_solve :=
  unfold TimersHeld in *; wsimpl;
  let t := fresh "t" in let tm := fresh "tm" in
  let Hl := fresh "Hl" in let Ha := fresh "Ha" in
  intros t tm Hl Ha;
  repeat first
    [ apply lookup_disarmed in Hl as [? Hl]; [|exact Ha]
    | apply lookup_snoc_inv in Hl as [Hl|[-> ->]] ];
  try (cbn; rewrite ?length_alter; done);
  match goal with
  | H : forall _ _, _ -> _ -> _ |- _ => pose proof (H _ _ Hl Ha); clear H
  end;
  destruct (timer_kind tm); destruct_and?; simplify_eq; first [done|by split|congruence].

Ltac pending_solve :=
  unfold OperationPending, Inv in *; wsimpl;
  destruct_and?;
  repeat match goal with
         | H : ?x = ?x -> _ |- _ => specialize (H eq_refl)
         | H : true = false -> _ |- _ => clear H
         | H : false = true -> _ |- _ => clear H
         | H : forall m, Some ?n = Some m -> _ |- _ => specialize (H _ eq_refl)
         | H : forall m, None = Some m -> _ |- _ => clear H
         end;
  destruct_and?; simplify_eq;
  (split_and?;
   [ first [ by intros [=]
           | intros _; split; [done|]; rewrite ?length_alter; eauto 6 with timers ]
   | eauto with timers
   | let m := fresh "m" in let Hm := fresh "Hm" in
     intros m Hm; simplify_eq;
     first [ done | eauto with timers
           | rewrite <- (length_alter timer_disarm); apply kind_at_new
           | apply kind_at_new ] ]).

Ltac frames_solve :=
  unfold FramesValid in *; wsimpl;
  destruct_and?;
  (split;
   [ first [ done | by intros [=] | auto ]
   | let img := fresh "img" in let Hin := fresh "Hin" in
     intros img Hin;
     rewrite ?elem_of_app, ?list_elem_of_singleton in Hin;
     destruct_or?; simplify_eq; auto;
     try (by apply elem_of_nil in Hin) ]).

Ltac silent_solve :=
  unfold silent_since in *; wsimpl; try done;
  (split_and?; rewrite ?length_alter; try done;
   let img := fresh "img" in let Hin := fresh "Hin" in
   intros img Hin;
   rewrite ?elem_of_app, ?list_elem_of_singleton in Hin;
   destruct_or?; simplify_eq; done).

Ltac socketless_solve :=
  unfold Socketless in *; wsimpl;
  destruct_and?; simplify_eq;
  (split_and?; try done; forall_solve).

Ltac wire_solve :=
  unfold OnlyAuth in *; wsimpl; destruct_and?; simplify_eq;
  repeat match goal with
         | H : _buildAuthData _ _ = _ |- context [_buildAuthData _ _] =>
             rewrite H; wsimpl
         end;
  (split_and?; try done;
   repeat first
     [ assumption
     | apply Forall_app_2 | apply Forall_cons_2 | apply Forall_nil_2
     | apply Forall_alter;
       [|intros [? ? ? [] ? ?] _ (? & ? & ? & ?); cbn; split_and?; try done;
         try (apply Forall_app_2; [done|by constructor])]
     | by split_and? ]).

Ltac answered_solve :=
  unfold Answered in *; wsimpl; try done;
  first [ by intros [=] | by intros _ [_ [=]]%app_eq_nil | auto ].

Ltac budget_solve :=
  unfold AttemptBudget, TimersHeld in *; wsimpl; destruct_and?; simplify_eq;
  repeat match goal with
         | H : (_ <? _) = true |- _ => apply Z.ltb_lt in H
         | H : (_ <? _) = false |- _ => apply Z.ltb_ge in H
         end;
  (split;
   [ lia
   | split;
     [ let t := fresh "t" in let tm := fresh "tm" in
       let Hl := fresh "Hl" in let Ha := fresh "Ha" in let Hk := fresh "Hk" in
       let Hh := fresh "Hh" in
       intros t tm Hl Ha Hk;
       repeat first
         [ apply lookup_disarmed in Hl as [? Hl]; [|exact Ha]
         | apply lookup_snoc_inv in Hl as [Hl|[-> ->]] ];
       first
         [ lia
         | match goal with
           | H : forall _ _, _ -> _ -> _ -> _ <= 2 |- _ => by apply (H _ _ Hl Ha Hk)
           end
         | match goal with
           | H : forall _ _, _ -> _ -> match _ with _ => _ end |- _ =>
               pose proof (H _ _ Hl Ha) as Hh; rewrite Hk in Hh;
               destruct_and?; simplify_eq; done
           end ]
     | let h := fresh "h" in let n := fresh "n" in let Hin := fresh "Hin" in
       intros h n Hin;
       rewrite ?elem_of_app, ?list_elem_of_singleton in Hin;
       destruct_or?; simplify_eq; first [ lia | eauto ] ] ]).

Ltac outcomes_solve :=
  unfold Outcomes, AttemptBudget in *; wsimpl; destruct_and?; destruct_or?; simplify_eq;
  repeat match goal with
         | H : (_ <? _) = true |- _ => apply Z.ltb_lt in H
         | H : (_ <? _) = false |- _ => apply Z.ltb_ge in H
         end;
  (split_and?; try done;
   first
     [ by left | by right
     | apply Forall_app_2; [done|]; apply Forall_cons_2; [|done]; cbn;
       first [ done | by right | left; f_equal; lia ] ]).

(** *** Armed timers are held *)

Lemma capture_frame_Held (img : Buffer) (w : World FS) :
  TimersHeld w -> TimersHeld (capture_frame rs img w).
Proof.
  intros HI. split_world w; unfold capture_frame, call_resolve;
    rewrite ?capture_resolve_eq; wsimpl; held_solve.
Qed.

Lemma decoded_Held (w w' : World FS) : decoded w w' -> TimersHeld w -> TimersHeld w'.
Proof. by intros (b & e & r & l & ->) HI. Qed.

Lemma on_data_Held (data : Buffer) (w : World FS) :
  TimersHeld w -> TimersHeld (on_data rs data w).
Proof.
  intros HI.
  destruct (on_data_shape P printerIp outputDir data w)
    as (w' & Hd & [->|(Hal & Hhr & img & ->)]).
  - by eapply decoded_Held.
  - apply capture_frame_Held. by eapply decoded_Held.
Qed.

Lemma step_Held (ev : Event) (w : World FS) :
  TimersHeld w -> TimersHeld (session_step P printerIp outputDir ev w).
Proof.
  intros HI. unfold session_step, step. destruct ev as [k|k data|k err|k h|k|t|].
  - destruct (sockets w !! k); [|done]. by_cases w held_solve.
  - destruct (sockets w !! k); [|done]. by apply on_data_Held.
  - destruct (sockets w !! k); [|done]. by_cases w held_solve.
  - destruct (sockets w !! k); [|done]. destruct h; by_cases w held_solve.
  - destruct (sockets w !! k); [|done]. by_cases w held_solve.
  - destruct (timers w !! t) as [[kind delay armed]|] eqn:Ht; [|done].
    cbn [timer_armed timer_kind]. destruct armed; [|done]. clear Ht.
    destruct kind; [by_cases w held_solve|].
    unfold _connect. rewrite is_Some_rj.
    split_world w; wsimpl; try (destruct (_buildAuthData _ _); wsimpl); held_solve.
  - by_cases w held_solve.
Qed.

Lemma run_Held (evs : list Event) (w : World FS) :
  TimersHeld w -> TimersHeld (session_run P printerIp outputDir evs w).
Proof.
  revert w. induction evs as [|ev evs IH]; intros w HI; [done|].
  change (session_run P printerIp outputDir (ev :: evs) w)
    with (session_run P printerIp outputDir evs (session_step P printerIp outputDir ev w)).
  apply IH. by apply step_Held.
Qed.

(** *** The operation timer stays armed *)

Lemma capture_frame_Pending (ms : Z) (img : Buffer) (w : World FS) :
  Inv w -> OperationPending ms w -> OperationPending ms (capture_frame rs img w).
Proof.
  intros HI HP. split_world w; unfold capture_frame, call_resolve;
    rewrite ?capture_resolve_eq; wsimpl; pending_solve.
Qed.

Lemma decoded_Pending (ms : Z) (w w' : World FS) :
  decoded w w' -> OperationPending ms w -> OperationPending ms w'.
Proof. by intros (b & e & r & l & ->) HI. Qed.

Lemma on_data_Pending (ms : Z) (data : Buffer) (w : World FS) :
  Inv w -> OperationPending ms w -> OperationPending ms (on_data rs data w).
Proof.
  intros HI HP.
  destruct (on_data_shape P printerIp outputDir data w)
    as (w' & Hd & [->|(Hal & Hhr & img & ->)]).
  - by eapply decoded_Pending.
  - apply capture_frame_Pending; [by eapply decoded_Inv|by eapply decoded_Pending].
Qed.

Lemma step_Pending (ms : Z) (ev : Event) (w : World FS) :
  Inv w -> OperationPending ms w ->
  OperationPending ms (session_step P printerIp outputDir ev w).
Proof.
  intros HI HP. unfold session_step, step. destruct ev as [k|k data|k err|k h|k|t|].
  - destruct (sockets w !! k); [|done]. by_cases w pending_solve.
  - destruct (sockets w !! k); [|done]. by apply on_data_Pending.
  - destruct (sockets w !! k); [|done]. by_cases w pending_solve.
  - destruct (sockets w !! k); [|done]. destruct h; by_cases w pending_solve.
  - destruct (sockets w !! k); [|done]. by_cases w pending_solve.
  - destruct (timers w !! t) as [[kind delay armed]|] eqn:Ht; [|done].
    cbn [timer_armed timer_kind]. destruct armed; [|done].
    apply kind_at_lookup in Ht. cbn [timer_kind] in Ht.
    destruct kind; [by_cases w pending_solve|].
    unfold _connect. rewrite is_Some_rj.
    split_world w; wsimpl; try (destruct (_buildAuthData _ _); wsimpl); pending_solve.
  - by_cases w pending_solve.
Qed.

Lemma run_Pending (ms : Z) (evs : list Event) (w : World FS) :
  Inv w -> OperationPending ms w ->
  OperationPending ms (session_run P printerIp outputDir evs w).
Proof.
  revert w. induction evs as [|ev evs IH]; intros w HI HP; [done|].
  change (session_run P printerIp outputDir (ev :: evs) w)
    with (session_run P printerIp outputDir evs (session_step P printerIp outputDir ev w)).
  apply IH; [by apply step_Inv|by apply step_Pending].
Qed.

(** *** Frames that are handed out *)

Lemma header_block_Frames (w : World FS) :
  FramesValid w ->
  exists w', decoded w w' /\ FramesValid w'
    /\ (header_block w = Exit w' \/ header_block w = Continue w').
Proof.
  intros HV. destruct (isReceivingImage (node w)) eqn:Hr.
  - exists w. split; [apply decoded_refl|]. split; [done|]. right.
    by apply header_block_skip.
  - destruct (Nat.lt_ge_cases (length (currentFrameBuffer (node w))) 16).
    + exists w. split; [apply decoded_refl|]. split; [done|]. left.
      by apply header_block_wait.
    + rewrite header_block_read by done. cbv zeta.
      destruct (bad_size _) eqn:Hbad; eexists; (split; [apply decoded_upd|]);
        (split; [|by right]).
      * destruct HV as [_ HV]. split; [by intros [=]|done].
      * destruct HV as [_ HV]. split; [|done]. intros _.
        apply (bad_size_false _ Hbad), readUInt32LE_nonneg.
Qed.

Lemma payload_block_Frames (w : World FS) :
  FramesValid w ->
  exists w', decoded w w' /\ FramesValid w'
    /\ (payload_block rs w = Exit w' \/ payload_block rs w = Continue w'
        \/ exists img, payload_block rs w = Exit (capture_frame rs img w')
             /\ is_jpeg img = true /\ Z.of_nat (length img) <= 15 * 1024 * 1024).
Proof.
  intros HV. destruct (isReceivingImage (node w)) eqn:Hr.
  - destruct HV as [Hexp HV]. specialize (Hexp Hr).
    destruct (Z.lt_ge_cases (Z.of_nat (length (currentFrameBuffer (node w))))
                (expectedPayloadSize (node w))) as [Hlt|Hge].
    + exists w. split; [apply decoded_refl|]. split; [by split|]. left.
      by apply payload_block_wait.
    + rewrite payload_block_slice by (done || lia). cbv zeta.
      destruct (is_jpeg _) eqn:Hj; eexists; (split; [apply decoded_upd|]).
      * split; [|right; right; eexists; split; [reflexivity|]; split; [done|];
                 rewrite length_take; lia].
        split; [by intros [=]|done].
      * split; [|by right; left]. split; [by intros [=]|done].
  - exists w. split; [apply decoded_refl|]. split; [done|]. right; left.
    by apply payload_block_skip.
Qed.

Lemma capture_frame_Frames (img : Buffer) (w : World FS) :
  hasResolvedOrRejected (node w) = false ->
  results w = [] ->
  is_jpeg img = true ->
  Z.of_nat (length img) <= 15 * 1024 * 1024 ->
  FramesValid w -> FramesValid (capture_frame rs img w).
Proof.
  intros Hhr Hres Hj Hlen HV. split_world w; unfold capture_frame, call_resolve;
    rewrite ?capture_resolve_eq; wsimpl; try done; subst; frames_solve.
Qed.

Lemma decoded_results (w w' : World FS) :
  decoded w w' ->
  results w' = results w /\ lastFrameData (node w') = lastFrameData (node w).
Proof. by intros (b & e & r & l & ->). Qed.

Lemma data_loop_Frames (n : nat) (w : World FS) :
  Inv w -> FramesValid w -> FramesValid (data_loop rs n w).
Proof.
  revert w. induction n as [|n IH]; intros w HI HV; [done|].
  rewrite data_loop_S.
  destruct (loop_guard w) eqn:Hg; [|done].
  unfold loop_guard in Hg. rewrite !andb_true_iff, negb_true_iff in Hg.
  destruct Hg as [[_ Hal] Hhr].
  destruct (header_block_Frames w HV) as (w1 & Hd1 & HV1 & [->| ->]); [done|].
  destruct (payload_block_Frames w1 HV1)
    as (w2 & Hd2 & HV2 & [->|[->|(img & -> & Hj & Hlen)]]); [done| |].
  - apply IH; [|done]. eauto using decoded_Inv, decoded_trans.
  - assert (decoded w w2) as Hd by eauto using decoded_trans.
    apply capture_frame_Frames; try done.
    + destruct (decoded_flags _ _ Hd) as [_ ->]. done.
    + destruct (decoded_results _ _ Hd) as [-> _]. by apply HI.
Qed.

Lemma append_Frames (data : Buffer) (w : World FS) :
  FramesValid w -> FramesValid (append data w).
Proof. by intros HV. Qed.

Lemma append_Inv (data : Buffer) (w : World FS) : Inv w -> Inv (append data w).
Proof. by intros HI. Qed.

Lemma on_data_Frames (data : Buffer) (w : World FS) :
  Inv w -> FramesValid w -> FramesValid (on_data rs data w).
Proof.
  intros HI HV. rewrite on_data_drain. destruct (_ || _); [done|].
  apply data_loop_Frames; [by apply append_Inv|by apply append_Frames].
Qed.

Lemma step_Frames (ev : Event) (w : World FS) :
  Inv w -> FramesValid w -> FramesValid (session_step P printerIp outputDir ev w).
Proof.
  intros HI HV. unfold session_step, step. destruct ev as [k|k data|k err|k h|k|t|].
  - destruct (sockets w !! k); [|done]. clear HI. by_cases w frames_solve.
  - destruct (sockets w !! k); [|done]. by apply on_data_Frames.
  - destruct (sockets w !! k); [|done]. clear HI. by_cases w frames_solve.
  - destruct (sockets w !! k); [|done]. clear HI. destruct h; by_cases w frames_solve.
  - destruct (sockets w !! k); [|done]. clear HI. by_cases w frames_solve.
  - destruct (timers w !! t) as [[kind delay armed]|] eqn:Ht; [|done].
    cbn [timer_armed timer_kind]. destruct armed; [|done]. clear Ht HI.
    destruct kind; [by_cases w frames_solve|].
    unfold _connect. rewrite is_Some_rj.
    split_world w; wsimpl; try (destruct (_buildAuthData _ _); wsimpl); frames_solve.
  - clear HI. by_cases w frames_solve.
Qed.

Lemma run_Frames (evs : list Event) (w : World FS) :
  Inv w -> FramesValid w -> FramesValid (session_run P printerIp outputDir evs w).
Proof.
  revert w. induction evs as [|ev evs IH]; intros w HI HV; [done|].
  change (session_run P printerIp outputDir (ev :: evs) w)
    with (session_run P printerIp outputDir evs (session_step P printerIp outputDir ev w)).
  apply IH; [by apply step_Inv|by apply step_Frames].
Qed.

(** *** A node that is not alive *)

Lemma silent_since_trans (w1 w2 w3 : World FS) :
  silent_since w1 w2 -> silent_since w2 w3 -> silent_since w1 w3.
Proof.
  intros (_ & H2 & H3 & H4 & H5) (K1 & K2 & K3 & K4 & K5).
  repeat split; [done|congruence..|auto].
Qed.

Lemma step_silent (ev : Event) (w : World FS) :
  alive (node w) = false -> silent_since w (session_step P printerIp outputDir ev w).
Proof.
  intros Hal. unfold session_step, step. destruct ev as [k|k data|k err|k h|k|t|].
  - destruct (sockets w !! k); [|by repeat split]. by_cases w silent_solve.
  - destruct (sockets w !! k); [|by repeat split]. unfold on_data.
    rewrite Hal. by repeat split.
  - destruct (sockets w !! k); [|by repeat split]. by_cases w silent_solve.
  - destruct (sockets w !! k); [|by repeat split]. destruct h; by_cases w silent_solve.
  - destruct (sockets w !! k); [|by repeat split]. by_cases w silent_solve.
  - destruct (timers w !! t) as [[kind delay armed]|] eqn:Ht; [|by repeat split].
    cbn [timer_armed timer_kind]. destruct armed; [|by repeat split]. clear Ht.
    destruct kind; [by_cases w silent_solve|].
    unfold _connect. rewrite is_Some_rj.
    split_world w; wsimpl; silent_solve.
  - by_cases w silent_solve.
Qed.

Lemma run_silent (evs : list Event) (w : World FS) :
  alive (node w) = false -> silent_since w (session_run P printerIp outputDir evs w).
Proof.
  revert w. induction evs as [|ev evs IH]; intros w Hal; [by repeat split|].
  change (session_run P printerIp outputDir (ev :: evs) w)
    with (session_run P printerIp outputDir evs (session_step P printerIp outputDir ev w)).
  pose proof (step_silent ev w Hal) as Hs.
  eapply silent_since_trans; [done|]. apply IH. by destruct Hs.
Qed.

(** *** A session without a socket *)

Lemma step_Socketless (ev : Event) (w : World FS) (o : Outcome) :
  Socketless w -> promise w = Some o ->
  let w' := session_step P printerIp outputDir ev w in
  Socketless w' /\ promise w' = Some o /\ fs w' = fs w.
Proof.
  intros HS Hp. cbv zeta. unfold session_step, step.
  assert (forall k, sockets w !! k = None) as Hno.
  { intros k. destruct HS as [-> _]. done. }
  destruct ev as [k|k data|k err|k h|k|t|]; rewrite ?Hno; try done.
  - destruct (timers w !! t) as [[kind delay armed]|] eqn:Ht; [|done].
    cbn [timer_armed timer_kind]. destruct armed; [|done].
    destruct kind.
    + clear Ht Hno. split_world w; wsimpl; try done; simplify_eq;
        (split; [socketless_solve|done]).
    + destruct HS as (_ & _ & HS). by apply (Forall_lookup_1 _ _ _ _ HS) in Ht.
  - clear Hno. split_world w; wsimpl; try done; simplify_eq;
      (split; [socketless_solve|done]).
Qed.

Lemma run_Socketless (evs : list Event) (w : World FS) (o : Outcome) :
  Socketless w -> promise w = Some o ->
  let w' := session_run P printerIp outputDir evs w in
  Socketless w' /\ promise w' = Some o /\ fs w' = fs w.
Proof.
  revert w. induction evs as [|ev evs IH]; intros w HS Hp; [done|].
  cbv zeta.
  change (session_run P printerIp outputDir (ev :: evs) w)
    with (session_run P printerIp outputDir evs (session_step P printerIp outputDir ev w)).
  destruct (step_Socketless ev w o HS Hp) as (HS1 & Hp1 & Hf1).
  destruct (IH _ HS1 Hp1) as (HS2 & Hp2 & Hf2).
  split; [done|]. split; [done|]. congruence.
Qed.

(** *** The operation timer expires *)

Lemma on_operationTimeout_unsettled (t : nat) (w : World FS) :
  hasResolvedOrRejected (node w) = false ->
  promise w = None ->
  let e := ErrOperationTimeout (hostname (node w)) (timeoutMs (options (node w))) in
  let w' := on_operationTimeout rj (clearTimeout t w) in
  results w' = results w ++ [Failure e]
  /\ promise w' = Some (Rejected e)
  /\ fs w' = fs w
  /\ hasResolvedOrRejected (node w') = true.
Proof. intros Hhr Hp. by_cases w idtac; try done. Qed.

(** *** What is sent to the printer *)

Lemma capture_frame_OnlyAuth (host : string) (prt : Z) (rec img : Buffer) (w : World FS) :
  OnlyAuth host prt rec w -> OnlyAuth host prt rec (capture_frame rs img w).
Proof.
  intros HI. split_world w; unfold capture_frame, call_resolve;
    rewrite ?capture_resolve_eq; wsimpl; wire_solve.
Qed.

Lemma decoded_OnlyAuth (host : string) (prt : Z) (rec : Buffer) (w w' : World FS) :
  decoded w w' -> OnlyAuth host prt rec w -> OnlyAuth host prt rec w'.
Proof. by intros (b & e & r & l & ->) HI. Qed.

Lemma on_data_OnlyAuth (host : string) (prt : Z) (rec data : Buffer) (w : World FS) :
  OnlyAuth host prt rec w -> OnlyAuth host prt rec (on_data rs data w).
Proof.
  intros HI.
  destruct (on_data_shape P printerIp outputDir data w)
    as (w' & Hd & [->|(Hal & Hhr & img & ->)]).
  - by eapply decoded_OnlyAuth.
  - apply capture_frame_OnlyAuth. by eapply decoded_OnlyAuth.
Qed.

Lemma step_OnlyAuth (host : string) (prt : Z) (rec : Buffer) (ev : Event) (w : World FS) :
  OnlyAuth host prt rec w ->
  OnlyAuth host prt rec (session_step P printerIp outputDir ev w).
Proof.
  intros HI. unfold session_step, step. destruct ev as [k|k data|k err|k h|k|t|].
  - destruct (sockets w !! k) as [s|] eqn:Hk; [|done].
    assert (sock_authData s = rec) as ->.
    { destruct HI as (_ & _ & _ & HI). by apply (Forall_lookup_1 _ _ _ _ HI) in Hk as (_ & _ & ? & _). }
    clear Hk. by_cases w wire_solve.
  - destruct (sockets w !! k); [|done]. by apply on_data_OnlyAuth.
  - destruct (sockets w !! k); [|done]. by_cases w wire_solve.
  - destruct (sockets w !! k); [|done]. destruct h; by_cases w wire_solve.
  - destruct (sockets w !! k); [|done]. by_cases w wire_solve.
  - destruct (timers w !! t) as [[kind delay armed]|] eqn:Ht; [|done].
    cbn [timer_armed timer_kind]. destruct armed; [|done]. clear Ht.
    destruct kind; [by_cases w wire_solve|].
    unfold _connect. rewrite is_Some_rj.
    split_world w; wsimpl; wire_solve.
  - by_cases w wire_solve.
Qed.

Lemma run_OnlyAuth (host : string) (prt : Z) (rec : Buffer) (evs : list Event)
    (w : World FS) :
  OnlyAuth host prt rec w ->
  OnlyAuth host prt rec (session_run P printerIp outputDir evs w).
Proof.
  revert w. induction evs as [|ev evs IH]; intros w HI; [done|].
  change (session_run P printerIp outputDir (ev :: evs) w)
    with (session_run P printerIp outputDir evs (session_step P printerIp outputDir ev w)).
  apply IH. by apply step_OnlyAuth.
Qed.

(** *** A flag that is set has a result *)

Lemma capture_frame_Answered (img : Buffer) (w : World FS) :
  Answered w -> Answered (capture_frame rs img w).
Proof.
  intros HI. split_world w; unfold capture_frame, call_resolve;
    rewrite ?capture_resolve_eq; wsimpl; answered_solve.
Qed.

Lemma decoded_Answered (w w' : World FS) : decoded w w' -> Answered w -> Answered w'.
Proof. by intros (b & e & r & l & ->) HI. Qed.

Lemma on_data_Answered (data : Buffer) (w : World FS) :
  Answered w -> Answered (on_data rs data w).
Proof.
  intros HI.
  destruct (on_data_shape P printerIp outputDir data w)
    as (w' & Hd & [->|(Hal & Hhr & img & ->)]).
  - by eapply decoded_Answered.
  - apply capture_frame_Answered. by eapply decoded_Answered.
Qed.

Lemma step_Answered (ev : Event) (w : World FS) :
  Answered w -> Answered (session_step P printerIp outputDir ev w).
Proof.
  intros HI. unfold session_step, step. destruct ev as [k|k data|k err|k h|k|t|].
  - destruct (sockets w !! k); [|done]. by_cases w answered_solve.
  - destruct (sockets w !! k); [|done]. by apply on_data_Answered.
  - destruct (sockets w !! k); [|done]. by_cases w answered_solve.
  - destruct (sockets w !! k); [|done]. destruct h; by_cases w answered_solve.
  - destruct (sockets w !! k); [|done]. by_cases w answered_solve.
  - destruct (timers w !! t) as [[kind delay armed]|] eqn:Ht; [|done].
    cbn [timer_armed timer_kind]. destruct armed; [|done]. clear Ht.
    destruct kind; [by_cases w answered_solve|].
    unfold _connect. rewrite is_Some_rj.
    split_world w; wsimpl; try (destruct (_buildAuthData _ _); wsimpl); answered_solve.
  - by_cases w answered_solve.
Qed.

Lemma run_Answered (evs : list Event) (w : World FS) :
  Answered w -> Answered (session_run P printerIp outputDir evs w).
Proof.
  revert w. induction evs as [|ev evs IH]; intros w HI; [done|].
  change (session_run P printerIp outputDir (ev :: evs) w)
    with (session_run P printerIp outputDir evs (session_step P printerIp outputDir ev w)).
  apply IH. by apply step_Answered.
Qed.

(** *** The attempt counter stays within three *)

Lemma capture_frame_Budget (img : Buffer) (w : World FS) :
  TimersHeld w -> AttemptBudget w -> AttemptBudget (capture_frame rs img w).
Proof.
  intros HH HB. split_world w; unfold capture_frame, call_resolve;
    rewrite ?capture_resolve_eq; wsimpl; budget_solve.
Qed.

Lemma decoded_Budget (w w' : World FS) :
  decoded w w' -> AttemptBudget w -> AttemptBudget w'.
Proof. by intros (b & e & r & l & ->) HI. Qed.

Lemma on_data_Budget (data : Buffer) (w : World FS) :
  TimersHeld w -> AttemptBudget w -> AttemptBudget (on_data rs data w).
Proof.
  intros HH HB.
  destruct (on_data_shape P printerIp outputDir data w)
    as (w' & Hd & [->|(Hal & Hhr & img & ->)]).
  - by eapply decoded_Budget.
  - apply capture_frame_Budget; [by eapply decoded_Held|by eapply decoded_Budget].
Qed.

Lemma step_Budget (ev : Event) (w : World FS) :
  TimersHeld w -> AttemptBudget w ->
  AttemptBudget (session_step P printerIp outputDir ev w).
Proof.
  intros HH HB. unfold session_step, step. destruct ev as [k|k data|k err|k h|k|t|].
  - destruct (sockets w !! k); [|done]. by_cases w budget_solve.
  - destruct (sockets w !! k); [|done]. by apply on_data_Budget.
  - destruct (sockets w !! k); [|done]. by_cases w budget_solve.
  - destruct (sockets w !! k); [|done]. destruct h; by_cases w budget_solve.
  - destruct (sockets w !! k); [|done]. by_cases w budget_solve.
  - destruct (timers w !! t) as [[kind delay armed]|] eqn:Ht; [|done].
    cbn [timer_armed timer_kind]. destruct armed; [|done].
    destruct kind; [clear Ht; by_cases w budget_solve|].
    assert (connectAttempts (node w) <= 2) as Hca.
    { destruct HB as (_ & HB & _). by apply (HB _ _ Ht). }
    assert (reconnectTimeout (node w) = Some t) as Hrt.
    { by destruct (HH _ _ Ht eq_refl). }
    clear Ht. unfold _connect. rewrite is_Some_rj.
    split_world w; wsimpl; try done;
      try (destruct (_buildAuthData _ _); wsimpl); budget_solve.
  - by_cases w budget_solve.
Qed.

Lemma run_Budget (evs : list Event) (w : World FS) :
  TimersHeld w -> AttemptBudget w ->
  AttemptBudget (session_run P printerIp outputDir evs w).
Proof.
  revert w. induction evs as [|ev evs IH]; intros w HH HB; [done|].
  change (session_run P printerIp outputDir (ev :: evs) w)
    with (session_run P printerIp outputDir evs (session_step P printerIp outputDir ev w)).
  apply IH; [by apply step_Held|by apply step_Budget].
Qed.

(** *** The results of a session nobody stops *)

Lemma capture_frame_Outcomes (host : string) (ms : Z) (img : Buffer) (w : World FS) :
  Outcomes host ms w -> Outcomes host ms (capture_frame rs img w).
Proof.
  intros HO. split_world w; unfold capture_frame, call_resolve;
    rewrite ?capture_resolve_eq; wsimpl; outcomes_solve.
Qed.

Lemma decoded_Outcomes (host : string) (ms : Z) (w w' : World FS) :
  decoded w w' -> Outcomes host ms w -> Outcomes host ms w'.
Proof. by intros (b & e & r & l & ->) HI. Qed.

Lemma on_data_Outcomes (host : string) (ms : Z) (data : Buffer) (w : World FS) :
  Outcomes host ms w -> Outcomes host ms (on_data rs data w).
Proof.
  intros HO.
  destruct (on_data_shape P printerIp outputDir data w)
    as (w' & Hd & [->|(Hal & Hhr & img & ->)]).
  - by eapply decoded_Outcomes.
  - apply capture_frame_Outcomes. by eapply decoded_Outcomes.
Qed.

Lemma step_Outcomes (host : string) (ms : Z) (ev : Event) (w : World FS) :
  ev <> CallStop -> AttemptBudget w -> Outcomes host ms w ->
  Outcomes host ms (session_step P printerIp outputDir ev w).
Proof.
  intros Hev HB HO. unfold session_step, step. destruct ev as [k|k data|k err|k h|k|t|].
  - destruct (sockets w !! k); [|done]. by_cases w outcomes_solve.
  - destruct (sockets w !! k); [|done]. by apply on_data_Outcomes.
  - destruct (sockets w !! k); [|done]. by_cases w outcomes_solve.
  - destruct (sockets w !! k); [|done]. destruct h; by_cases w outcomes_solve.
  - destruct (sockets w !! k); [|done]. by_cases w outcomes_solve.
  - destruct (timers w !! t) as [[kind delay armed]|] eqn:Ht; [|done].
    cbn [timer_armed timer_kind]. destruct armed; [|done]. clear Ht.
    destruct kind; [by_cases w outcomes_solve|].
    unfold _connect. rewrite is_Some_rj.
    split_world w; wsimpl; try (destruct (_buildAuthData _ _); wsimpl); outcomes_solve.
  - done.
Qed.

Lemma run_Outcomes (host : string) (ms : Z) (evs : list Event) (w : World FS) :
  CallStop ∉ evs -> TimersHeld w -> AttemptBudget w -> Outcomes host ms w ->
  Outcomes host ms (session_run P printerIp outputDir evs w).
Proof.
  revert w. induction evs as [|ev evs IH]; intros w Hev HH HB HO; [done|].
  change (session_run P printerIp outputDir (ev :: evs) w)
    with (session_run P printerIp outputDir evs (session_step P printerIp outputDir ev w)).
  apply not_elem_of_cons in Hev as [Hev Hevs].
  apply IH; [done|by apply step_Held|by apply step_Budget|by apply step_Outcomes].
Qed.
End Timers.

(** ** Sessions of the public operation, further *)

Section Capture.
Context {FS : Type} (P : Platform FS).

(** What [start] sets up for the invariants of the timers and of the
    frames. *)
Lemma launch_timers (printerIp code : string) (opts : CaptureOptions)
    (fs0 : FS) (w : World FS) :
  captureSingleFrameFromPrinter P printerIp code opts fs0 = Session w ->
  TimersHeld w /\ FramesValid w
  /\ (0 < default 30000 (opt_timeoutMs opts) ->
      OperationPending (default 30000 (opt_timeoutMs opts)) w).
Proof.
  unfold captureSingleFrameFromPrinter.
  destruct (_ || _); [done|].
  unfold start, new_world, new_PrinterCameraNode, _connect.
  cbn [node alive negb with_node set_alive set_hasResolvedOrRejected log options
       timeoutMs arg_timeoutMs default from_option id hostname username accessCode].
  destruct (Z.ltb_spec 0 (default 30000 (opt_timeoutMs opts))) as [Hms|Hms]; wsimpl;
    (destruct (_buildAuthData _ _); wsimpl; intros [= <-];
     unfold TimersHeld, FramesValid, OperationPending, kind_at; wsimpl;
     (split;
      [ intros [|t] tm Hl Ha; cbn in Hl; simplify_eq; done
      | split;
        [ split; [done|]; by intros img Hin%elem_of_nil
        | try (intros; lia); intros _; split_and?; by eauto ] ])).
Qed.

(** The state [start] leaves, for credentials that fit the record. *)
Lemma launch_state (printerIp code : string) (opts : CaptureOptions) (fs0 : FS) :
  printerIp <> "" -> code <> "" ->
  (String.length (default "bblp" (opt_username opts)) <= 32)%nat ->
  (String.length code <= 32)%nat ->
  let ms := default 30000 (opt_timeoutMs opts) in
  exists w,
    captureSingleFrameFromPrinter P printerIp code opts fs0 = Session w
    /\ sockets w = [{| sock_host := printerIp;
                       sock_port := default 6000 (opt_port opts);
                       sock_authData := auth_record (default "bblp" (opt_username opts)) code;
                       sock_destroyed := false; sock_written := [];
                       sock_idleTimeout := Some 20000 |}]
    /\ socket (node w) = Some 0%nat
    /\ timers w = (if 0 <? ms
                   then [{| timer_kind := OperationTimer; timer_delay := ms;
                            timer_armed := true |}]
                   else [])
    /\ console w = [LogStarting printerIp "single"; LogAttempt printerIp 1]
    /\ promise w = None /\ fs w = fs0 /\ results w = [] /\ emitted w = [].
Proof.
  intros Hip Hcode Hu Hc ms. unfold captureSingleFrameFromPrinter.
  rewrite (bool_decide_eq_false_2 _ Hip), (bool_decide_eq_false_2 _ Hcode).
  cbn [orb].
  unfold start, new_world, new_PrinterCameraNode, _connect.
  cbn [node alive negb with_node set_alive set_hasResolvedOrRejected log options
       timeoutMs arg_timeoutMs hostname username accessCode
       set_operationTimeout set_connectAttempts setTimeout set_timers fst snd].
  assert (_buildAuthData (default "bblp" (opt_username opts)) code
          = Normal (auth_record (default "bblp" (opt_username opts)) code)) as Hb
    by (apply buildAuthData_fits; by rewrite length_Buffer_from_ascii).
  change (default 30000 (Some (default 30000 (opt_timeoutMs opts)))) with ms.
  destruct (0 <? ms);
    cbn [node alive negb with_node set_alive set_hasResolvedOrRejected log options
         timeoutMs arg_timeoutMs hostname username accessCode
         set_operationTimeout set_connectAttempts setTimeout set_timers fst snd];
    rewrite Hb; wsimpl; eexists; (split; [reflexivity|]); by repeat split.
Qed.

(** X9.  With a port, a username and a timeout left out, the operation
    connects to port 6000 as [bblp] and lets 30 seconds pass: for
    credentials that fit the record, [start] opens one socket to the
    printer, with the authentication record for the handshake, nothing
    written yet and the idle timeout of 20 seconds, arms the operation
    timer if the timeout is positive, touches no file and leaves the promise
    pending. *)
Theorem launch_defaults (printerIp code : string) (opts : CaptureOptions) (fs0 : FS) :
  printerIp <> "" -> code <> "" ->
  (String.length (default "bblp" (opt_username opts)) <= 32)%nat ->
  (String.length code <= 32)%nat ->
  let ms := default 30000 (opt_timeoutMs opts) in
  exists w,
    captureSingleFrameFromPrinter P printerIp code opts fs0 = Session w
    /\ sockets w = [{| sock_host := printerIp;
                       sock_port := default 6000 (opt_port opts);
                       sock_authData := auth_record (default "bblp" (opt_username opts)) code;
                       sock_destroyed := false; sock_written := [];
                       sock_idleTimeout := Some 20000 |}]
    /\ socket (node w) = Some 0%nat
    /\ timers w = (if 0 <? ms
                   then [{| timer_kind := OperationTimer; timer_delay := ms;
                            timer_armed := true |}]
                   else [])
    /\ console w = [LogStarting printerIp "single"; LogAttempt printerIp 1]
    /\ promise w = None /\ fs w = fs0 /\ results w = [] /\ emitted w = [].
Proof. apply launch_state. Qed.

(** X10.  A session that fails, or that has not settled, has written no file:
    the file system is the one the operation was started on, and the
    promise is pending or rejected with the error of the session. *)
Theorem failed_capture_writes_nothing (printerIp code : string) (opts : CaptureOptions)
    (fs0 : FS) (w : World FS) (evs : list Event) :
  captureSingleFrameFromPrinter P printerIp code opts fs0 = Session w ->
  promise w = None ->
  let w' := session_run P printerIp (capture_outputDir P opts) evs w in
  (hasResolvedOrRejected (node w') = false -> promise w' = None /\ fs w' = fs0)
  /\ (forall e, results w' = [Failure e] -> promise w' = Some (Rejected e) /\ fs w' = fs0).
Proof.
  intros Hl Hpr w'.
  pose proof (launch_facts _ _ _ _ _ _ Hl) as (HI & _ & Hhr & Hres0 & Hfs & _).
  assert (Saved P printerIp (capture_outputDir P opts) fs0 w) as HS.
  { split; [done|]. rewrite Hres0. by split. }
  pose proof (run_Saved P printerIp _ fs0 evs w HI HS) as (HS1 & _ & HS3).
  by split.
Qed.

(** X11.  Every frame a session hands out passed the marker test: it is the
    start marker, a body and the end marker, of 6 bytes at least and
    15 MiB at most.  It is the only result of the session and the last
    frame of the node. *)
Theorem captured_frames_are_jpeg (printerIp code : string) (opts : CaptureOptions)
    (fs0 : FS) (w : World FS) (evs : list Event) (img : Buffer) :
  captureSingleFrameFromPrinter P printerIp code opts fs0 = Session w ->
  let w' := session_run P printerIp (capture_outputDir P opts) evs w in
  Success img ∈ results w' ->
  (exists body, img = JPEG_START_MARKER ++ body ++ JPEG_END_MARKER)
  /\ (6 <= length img)%nat
  /\ Z.of_nat (length img) <= 15 * 1024 * 1024
  /\ results w' = [Success img]
  /\ lastFrameData (node w') = Some img.
Proof.
  intros Hl w' Hin.
  pose proof (launch_Inv _ _ _ _ _ _ Hl) as HI.
  pose proof (launch_timers _ _ _ _ _ Hl) as (_ & HV & _).
  pose proof (run_Inv P printerIp (capture_outputDir P opts) evs w HI) as (_ & Hlen & _).
  pose proof (run_Frames P printerIp (capture_outputDir P opts) evs w HI HV) as [_ HF].
  fold w' in Hlen, HF. destruct (HF img Hin) as (Hj & Hsz & Hlast).
  split; [by apply is_jpeg_markers|]. split; [by apply is_jpeg_length|].
  split; [done|]. split; [|done].
  destruct (results w') as [|r [|r' rest]]; cbn [length] in Hlen; [|..|lia].
  - by apply elem_of_nil in Hin.
  - apply list_elem_of_singleton in Hin. by subst.
Qed.

(** X12.  Whatever happens in a session, every timer that can still fire is a
    timer the node holds: the operation timer under [operationTimeout], a
    reconnect timer, of three seconds, under [reconnectTimeout].  So at
    most one timer of each kind is pending, and no second reconnect is
    ever under way. *)
Theorem pending_timers_are_held (printerIp code : string) (opts : CaptureOptions)
    (fs0 : FS) (w : World FS) (evs : list Event) :
  captureSingleFrameFromPrinter P printerIp code opts fs0 = Session w ->
  let w' := session_run P printerIp (capture_outputDir P opts) evs w in
  (forall t tm, timers w' !! t = Some tm -> timer_armed tm = true ->
     match timer_kind tm with
     | OperationTimer => operationTimeout (node w') = Some t
     | ReconnectTimer => reconnectTimeout (node w') = Some t /\ timer_delay tm = 3000
     end)
  /\ (forall t t' tm tm',
        timers w' !! t = Some tm -> timer_armed tm = true ->
        timers w' !! t' = Some tm' -> timer_armed tm' = true ->
        timer_kind tm = timer_kind tm' -> t = t').
Proof.
  intros Hl w'.
  pose proof (launch_timers _ _ _ _ _ Hl) as (HH & _ & _).
  pose proof (run_Held P printerIp (capture_outputDir P opts) evs w HH) as HH'.
  fold w' in HH'. split; [exact HH'|].
  intros t t' tm tm' Hl1 Ha1 Hl2 Ha2 Hk.
  pose proof (HH' _ _ Hl1 Ha1) as H1. pose proof (HH' _ _ Hl2 Ha2) as H2.
  rewrite Hk in H1. destruct (timer_kind tm'); destruct_and?; congruence.
Qed.

(** X13.  Once a session has settled the node is not alive, holds no socket and
    no timer, and no timer it ever set can still fire. *)
Theorem settled_session_holds_nothing (printerIp code : string) (opts : CaptureOptions)
    (fs0 : FS) (w : World FS) (evs : list Event) :
  captureSingleFrameFromPrinter P printerIp code opts fs0 = Session w ->
  let w' := session_run P printerIp (capture_outputDir P opts) evs w in
  hasResolvedOrRejected (node w') = true ->
  alive (node w') = false
  /\ socket (node w') = None
  /\ operationTimeout (node w') = None
  /\ reconnectTimeout (node w') = None
  /\ Forall (fun tm => timer_armed tm = false) (timers w').
Proof.
  intros Hl w' Hhr.
  pose proof (launch_Inv _ _ _ _ _ _ Hl) as HI.
  pose proof (launch_timers _ _ _ _ _ Hl) as (HH & _ & _).
  pose proof (run_Inv P printerIp (capture_outputDir P opts) evs w HI) as (_ & _ & Ha & Hs).
  pose proof (run_Held P printerIp (capture_outputDir P opts) evs w HH) as HH'.
  fold w' in Ha, Hs, HH'. specialize (Ha Hhr). destruct (Hs Ha) as (Hso & Hot & Hrt).
  repeat split; try done.
  apply Forall_lookup_2. intros t tm Hlk.
  destruct (timer_armed tm) eqn:Harm; [|done].
  specialize (HH' _ _ Hlk Harm). rewrite Hot, Hrt in HH'.
  destruct (timer_kind tm); destruct_and?; done.
Qed.

(** X14.  A session started with a positive timeout that is still alive when
    its operation timer expires is rejected with the timeout error naming
    the printer and the timeout, and is stopped: no file was written, the
    node holds no socket, and no timer is left to fire. *)
Theorem operation_timeout_rejects (printerIp code : string) (opts : CaptureOptions)
    (fs0 : FS) (w : World FS) (evs : list Event) :
  captureSingleFrameFromPrinter P printerIp code opts fs0 = Session w ->
  promise w = None ->
  let ms := default 30000 (opt_timeoutMs opts) in
  0 < ms ->
  let outputDir := capture_outputDir P opts in
  let w' := session_run P printerIp outputDir evs w in
  alive (node w') = true ->
  let w'' := session_step P printerIp outputDir (TimerFire 0) w' in
  results w'' = [Failure (ErrOperationTimeout printerIp ms)]
  /\ promise w'' = Some (Rejected (ErrOperationTimeout printerIp ms))
  /\ fs w'' = fs0
  /\ alive (node w'') = false
  /\ socket (node w'') = None
  /\ Forall (fun tm => timer_armed tm = false) (timers w'').
Proof.
  intros Hl Hpr ms Hms outputDir w' Hal w''.
  pose proof (launch_facts _ _ _ _ _ _ Hl) as (HI & _ & Hhr & Hres0 & Hfs & _ & Hho & Hto).
  pose proof (launch_timers _ _ _ _ _ Hl) as (HH & _ & HP). specialize (HP Hms).
  assert (Saved P printerIp outputDir fs0 w) as HS.
  { split; [done|]. rewrite Hres0. by split. }
  pose proof (run_Inv P printerIp outputDir evs w HI) as HI'.
  pose proof (run_Held P printerIp outputDir evs w HH) as HH'.
  pose proof (run_Pending P printerIp outputDir _ evs w HI HP) as (HP' & _).
  pose proof (run_Saved P printerIp outputDir fs0 evs w HI HS) as (HS' & _).
  pose proof (run_config P printerIp outputDir evs w) as (Hc1 & _ & _ & _ & Hc5).
  fold w' in HI', HH', HP', HS', Hc1, Hc5.
  destruct (HP' Hal) as [Hot Hlk].
  assert (hasResolvedOrRejected (node w') = false) as Hhr'.
  { destruct HI' as (_ & _ & Ha & _).
    destruct (hasResolvedOrRejected (node w')); [|done]. by rewrite Ha in Hal. }
  destruct (HS' Hhr') as [Hpr' Hfs'].
  assert (results w' = []) as Hres' by by apply HI'.
  pose proof (on_operationTimeout_unsettled printerIp 0 w' Hhr' Hpr') as Hto'.
  cbv zeta in Hto'. rewrite Hc1, Hc5, Hho, Hto, Hres', Hfs' in Hto'. fold ms in Hto'.
  assert (w'' = on_operationTimeout (Some (capture_reject printerIp)) (clearTimeout 0 w'))
    as Hw''.
  { subst w''. unfold session_step, step. by rewrite Hlk. }
  destruct Hto' as (Hr & Hp & Hf & Hh). rewrite <- Hw'' in Hr, Hp, Hf, Hh.
  pose proof (step_Inv P printerIp outputDir (TimerFire 0) w' HI') as (_ & _ & Ha & Hs).
  pose proof (step_Held P printerIp outputDir (TimerFire 0) w' HH') as HH''.
  fold w'' in Ha, Hs, HH''. specialize (Ha Hh). destruct (Hs Ha) as (Hso & Hot' & Hrt').
  repeat split; try done.
  apply Forall_lookup_2. intros t tm Hlk'.
  destruct (timer_armed tm) eqn:Harm; [|done].
  specialize (HH'' _ _ Hlk' Harm). rewrite Hot', Hrt' in HH''.
  destruct (timer_kind tm); destruct_and?; done.
Qed.

(** X15.  A node that is not alive stays so whatever its sockets and timers
    still report: it opens no socket, sets no timer and hands out no
    frame. *)
Theorem stopped_node_stays_silent (printerIp outputDir : string) (w : World FS)
    (evs : list Event) :
  alive (node w) = false ->
  let w' := session_run P printerIp outputDir evs w in
  alive (node w') = false
  /\ length (sockets w') = length (sockets w)
  /\ length (timers w') = length (timers w)
  /\ lastFrameData (node w') = lastFrameData (node w)
  /\ forall img, Success img ∈ results w' -> Success img ∈ results w.
Proof. intros Hal. by apply run_silent. Qed.

(** X16.  A username of more than 32 bytes with an access code of fewer than 32
    makes the operation fail before it connects: the range error of
    [_buildAuthData] rejects the promise, no socket is ever opened and no
    file is written, whatever happens later. *)
Theorem long_username_rejects_capture (printerIp code u : string)
    (opts : CaptureOptions) (fs0 : FS) :
  printerIp <> "" -> code <> "" ->
  opt_username opts = Some u ->
  (32 < String.length u)%nat ->
  (String.length code < 32)%nat ->
  let e := ErrOutOfRange ((16 + String.length u + String.length code) `max` 80) in
  exists w,
    captureSingleFrameFromPrinter P printerIp code opts fs0 = Session w
    /\ forall evs,
         let w' := session_run P printerIp (capture_outputDir P opts) evs w in
         promise w' = Some (Rejected e) /\ sockets w' = [] /\ fs w' = fs0.
Proof.
  intros Hip Hcode Hopt Hu Hc e. unfold captureSingleFrameFromPrinter.
  rewrite (bool_decide_eq_false_2 _ Hip), (bool_decide_eq_false_2 _ Hcode).
  cbn [orb]. rewrite Hopt.
  unfold start, new_world, new_PrinterCameraNode, _connect.
  cbn [node alive negb with_node set_alive set_hasResolvedOrRejected log options
       timeoutMs arg_timeoutMs hostname username accessCode default from_option id
       set_operationTimeout set_connectAttempts setTimeout set_timers fst snd].
  pose proof (buildAuthData_overflow u code Hu Hc) as Hb. fold e in Hb.
  destruct (0 <? _);
    cbn [node alive negb with_node set_alive set_hasResolvedOrRejected log options
         timeoutMs arg_timeoutMs hostname username accessCode
         set_operationTimeout set_connectAttempts setTimeout set_timers fst snd];
    rewrite Hb; wsimpl; eexists; (split; [reflexivity|]); intros evs;
    match goal with |- context [session_run _ _ _ _ ?x] =>
      destruct (run_Socketless P printerIp (capture_outputDir P opts) evs x (Rejected e))
        as ((Hs & _) & Hp & Hf);
      [ unfold Socketless; wsimpl; repeat split; repeat constructor
      | done
      | by cbv zeta ] end.
Qed.


Lemma launch_OnlyAuth (printerIp code : string) (opts : CaptureOptions)
    (fs0 : FS) (w : World FS) :
  captureSingleFrameFromPrinter P printerIp code opts fs0 = Session w ->
  (String.length (default "bblp" (opt_username opts)) <= 32)%nat ->
  (String.length code <= 32)%nat ->
  OnlyAuth printerIp (default 6000 (opt_port opts))
    (auth_record (default "bblp" (opt_username opts)) code) w.
Proof.
  intros Hl Hu Hc. revert Hl. unfold captureSingleFrameFromPrinter.
  destruct (_ || _); [done|].
  unfold start, new_world, new_PrinterCameraNode, _connect.
  cbn [node alive negb with_node set_alive set_hasResolvedOrRejected log options
       timeoutMs arg_timeoutMs hostname username accessCode
       set_operationTimeout set_connectAttempts setTimeout set_timers fst snd].
  assert (_buildAuthData (default "bblp" (opt_username opts)) code
          = Normal (auth_record (default "bblp" (opt_username opts)) code)) as Hb
    by (apply buildAuthData_fits; by rewrite length_Buffer_from_ascii).
  destruct (0 <? _);
    cbn [node alive negb with_node set_alive set_hasResolvedOrRejected log options
         timeoutMs arg_timeoutMs hostname username accessCode
         set_operationTimeout set_connectAttempts setTimeout set_timers fst snd];
    rewrite Hb.
  all: wsimpl; intros [= <-]; unfold OnlyAuth; wsimpl; repeat split; try done;
    repeat constructor; done.
Qed.

Lemma launch_Budget (printerIp code : string) (opts : CaptureOptions)
    (fs0 : FS) (w : World FS) :
  captureSingleFrameFromPrinter P printerIp code opts fs0 = Session w ->
  AttemptBudget w.
Proof.
  intros Hl.
  pose proof (launch_facts _ _ _ _ _ _ Hl) as (_ & _ & _ & Hres & _ & Hca & _).
  pose proof (launch_timers _ _ _ _ _ Hl) as (HH & _ & _).
  split; [lia|]. split.
  - intros t tm Hlk Ha Hk. specialize (HH _ _ Hlk Ha). rewrite Hk in HH.
    destruct HH as [HH _]. revert Hl HH. unfold captureSingleFrameFromPrinter.
    destruct (_ || _); [done|].
    unfold start, new_world, new_PrinterCameraNode, _connect.
    cbn [node alive negb with_node set_alive set_hasResolvedOrRejected log options
         timeoutMs arg_timeoutMs default from_option id hostname username accessCode].
    destruct (0 <? _); wsimpl;
      (destruct (_buildAuthData _ _); wsimpl; by intros [= <-]).
  - intros host n Hin. rewrite Hres in Hin. by apply elem_of_nil in Hin.
Qed.

(** X17.  Nothing but the authentication record is ever sent to the printer:
    every socket of a session is opened to the printer's address and
    port, and every write on it is the 80-byte record of the username and
    the access code. *)
Theorem only_auth_record_is_sent (printerIp code : string) (opts : CaptureOptions)
    (fs0 : FS) (w : World FS) (evs : list Event) :
  captureSingleFrameFromPrinter P printerIp code opts fs0 = Session w ->
  (String.length (default "bblp" (opt_username opts)) <= 32)%nat ->
  (String.length code <= 32)%nat ->
  let w' := session_run P printerIp (capture_outputDir P opts) evs w in
  Forall (fun s => sock_host s = printerIp
                   /\ sock_port s = default 6000 (opt_port opts)
                   /\ Forall (fun d => d = auth_record (default "bblp" (opt_username opts)) code)
                        (sock_written s)) (sockets w').
Proof.
  intros Hl Hu Hc w'.
  pose proof (launch_OnlyAuth _ _ _ _ _ Hl Hu Hc) as HW.
  pose proof (run_OnlyAuth P printerIp (capture_outputDir P opts) _ _ _ evs w HW)
    as (_ & _ & _ & HW').
  fold w' in HW'. eapply Forall_impl; [exact HW'|].
  intros s (? & ? & ? & ?). done.
Qed.

(** X18.  The attempt counter of a session stays between 0 and 3, and a session
    that gives up always reports three attempts. *)
Theorem attempts_stay_within_three (printerIp code : string) (opts : CaptureOptions)
    (fs0 : FS) (w : World FS) (evs : list Event) :
  captureSingleFrameFromPrinter P printerIp code opts fs0 = Session w ->
  let w' := session_run P printerIp (capture_outputDir P opts) evs w in
  0 <= connectAttempts (node w') <= 3
  /\ (forall host n, Failure (ErrConnectFailed host n) ∈ results w' -> n = 3).
Proof.
  intros Hl w'.
  pose proof (launch_Budget _ _ _ _ _ Hl) as HB.
  pose proof (launch_timers _ _ _ _ _ Hl) as (HH & _ & _).
  pose proof (run_Budget P printerIp (capture_outputDir P opts) evs w HH HB)
    as (H1 & _ & H3).
  by split.
Qed.

(** X19.  The promise of the operation is settled exactly when the node has set
    its flag, and the flag is set exactly when the node has handed out a
    result: no outcome of a session is lost on the way to the caller. *)
Theorem promise_follows_the_flag (printerIp code : string) (opts : CaptureOptions)
    (fs0 : FS) (w : World FS) (evs : list Event) :
  captureSingleFrameFromPrinter P printerIp code opts fs0 = Session w ->
  promise w = None ->
  let w' := session_run P printerIp (capture_outputDir P opts) evs w in
  (promise w' = None <-> hasResolvedOrRejected (node w') = false)
  /\ (results w' = [] <-> hasResolvedOrRejected (node w') = false).
Proof.
  intros Hl Hpr w'.
  pose proof (launch_facts _ _ _ _ _ _ Hl) as (HI & _ & Hhr & Hres0 & Hfs & _).
  assert (Saved P printerIp (capture_outputDir P opts) fs0 w) as HS.
  { split; [done|]. rewrite Hres0. by split. }
  assert (Answered w) as HA by (intros H; congruence).
  pose proof (run_Inv P printerIp (capture_outputDir P opts) evs w HI) as (HI1 & HI2 & _).
  pose proof (run_Saved P printerIp (capture_outputDir P opts) fs0 evs w HI HS)
    as (HS1 & HS2 & HS3).
  pose proof (run_Answered P printerIp (capture_outputDir P opts) evs w HA) as HA'.
  fold w' in HI1, HI2, HS1, HS2, HS3, HA'.
  assert (results w' = [] <-> hasResolvedOrRejected (node w') = false) as Hiff.
  { split; [|done]. intros Hnil.
    destruct (hasResolvedOrRejected (node w')) eqn:E; [|done]. by destruct (HA' E). }
  split; [|done]. split; [|by intros []%HS1].
  intros Hnone. apply Hiff.
  destruct (results w') as [|[img|e] [|r rest]]; cbn [length] in HI2; [done|..|lia| |lia].
  - destruct (HS2 img eq_refl) as [Hp _]. congruence.
  - destruct (HS3 e eq_refl) as [Hp _]. congruence.
Qed.

Lemma launch_Outcomes (printerIp code : string) (opts : CaptureOptions)
    (fs0 : FS) (w : World FS) :
  captureSingleFrameFromPrinter P printerIp code opts fs0 = Session w ->
  Outcomes printerIp (default 30000 (opt_timeoutMs opts)) w.
Proof.
  intros Hl.
  pose proof (launch_facts _ _ _ _ _ _ Hl) as (_ & Hal & _ & Hres & _ & _ & Hho & Hto).
  split; [done|]. split; [done|]. split; [by left|]. rewrite Hres. constructor.
Qed.

(** X20.  How the public operation can end when nobody stops the camera
    from outside.  Its promise is pending, or fulfilled with the path of the
    saved frame, or rejected with one of four errors: the failure after
    three connection attempts, the operation timeout, or what [mkdirSync]
    or [writeFileSync] threw while the frame was saved. *)
Theorem capture_outcomes (printerIp code : string) (opts : CaptureOptions)
    (fs0 : FS) (w : World FS) (evs : list Event) :
  captureSingleFrameFromPrinter P printerIp code opts fs0 = Session w ->
  promise w = None ->
  CallStop ∉ evs ->
  let outputDir := capture_outputDir P opts in
  let path := path_resolve P outputDir (safe_name printerIp +:+ ".jpg") in
  let ms := default 30000 (opt_timeoutMs opts) in
  let w' := session_run P printerIp outputDir evs w in
  promise w' = None
  \/ promise w' = Some (Fulfilled (VString path))
  \/ exists e, promise w' = Some (Rejected e)
       /\ (e = ErrConnectFailed printerIp 3
           \/ e = ErrOperationTimeout printerIp ms
           \/ (exists f, fs_mkdirSync P outputDir f = Throw e)
           \/ (exists f img, fs_writeFileSync P path img f = Throw e)).
Proof.
  intros Hl Hpr Hev outputDir path ms w'.
  pose proof (launch_facts _ _ _ _ _ _ Hl) as (HI & _ & Hhr & Hres0 & Hfs & _).
  pose proof (launch_timers _ _ _ _ _ Hl) as (HH & _ & _).
  pose proof (launch_Budget _ _ _ _ _ Hl) as HB.
  pose proof (launch_Outcomes _ _ _ _ _ Hl) as HO.
  assert (Saved P printerIp outputDir fs0 w) as HS.
  { split; [done|]. rewrite Hres0. by split. }
  assert (Answered w) as HA by (intros H; congruence).
  pose proof (run_Inv P printerIp outputDir evs w HI) as (_ & HI2 & _).
  pose proof (run_Saved P printerIp outputDir fs0 evs w HI HS) as (HS1 & HS2 & HS3).
  pose proof (run_Answered P printerIp outputDir evs w HA) as HA'.
  pose proof (run_Outcomes P printerIp outputDir _ _ evs w Hev HH HB HO)
    as (_ & _ & _ & HO').
  fold w' in HI2, HS1, HS2, HS3, HA', HO'.
  destruct (hasResolvedOrRejected (node w')) eqn:E; [|left; by apply HS1].
  specialize (HA' E).
  destruct (results w') as [|[img|e] [|r rest]]; cbn [length] in HI2; [done|..|lia| |lia].
  - destruct (HS2 img eq_refl) as [Hp _]. rewrite Hp.
    destruct (save_frame_cases P printerIp outputDir img fs0)
      as [(f1 & f2 & H1 & H2 & H3)|(e & f1 & [[_ H1]|[_ H1]] & H2)].
    + right; left. by rewrite H3.
    + right; right. exists e. rewrite H2. split; [done|]. right; right; left. eauto.
    + right; right. exists e. rewrite H2. split; [done|]. right; right; right. eauto.
  - destruct (HS3 e eq_refl) as [Hp _]. right; right. exists e. split; [done|].
    apply Forall_cons in HO' as [[->| ->] _]; [by left|by right; left].
Qed.

Lemma on_connect_ready (printerIp outputDir : string) (k k' : nat) (s : Socket)
    (w : World FS) :
  sockets w !! k = Some s -> socket (node w) = Some k' ->
  let w1 := session_step P printerIp outputDir (SockConnect k) w in
  alive (node w1) = alive (node w)
  /\ hasResolvedOrRejected (node w1) = hasResolvedOrRejected (node w)
  /\ isReceivingImage (node w1) = false
  /\ currentFrameBuffer (node w1) = []
  /\ results w1 = results w
  /\ length (sockets w1) = length (sockets w).
Proof.
  intros Hk Hs. cbv zeta. unfold session_step, step. rewrite Hk.
  destruct_world w. cbn [node socket] in Hs. subst. wsimpl.
  rewrite length_alter. by repeat split.
Qed.

(** X21.  The capture from end to end.  For credentials that fit the
    record, once the handshake of the first socket is done, the first data
    that holds a whole unit with a payload that passes the marker test
    ends the session: the payload is the one result and the last frame of
    the node, the node is stopped, and the promise and the file system are
    what saving the payload under the printer's name gives. *)
Theorem valid_unit_completes_capture (printerIp code : string) (opts : CaptureOptions)
    (fs0 : FS) (header payload trailing : Buffer) :
  printerIp <> "" -> code <> "" ->
  (String.length (default "bblp" (opt_username opts)) <= 32)%nat ->
  (String.length code <= 32)%nat ->
  length header = 16%nat ->
  0 < readUInt32LE header <= 15 * 1024 * 1024 ->
  Z.of_nat (length payload) = readUInt32LE header ->
  is_jpeg payload = true ->
  let outputDir := capture_outputDir P opts in
  exists w,
    captureSingleFrameFromPrinter P printerIp code opts fs0 = Session w
    /\ let w' := session_run P printerIp outputDir
                   [SockConnect 0; SockData 0 (header ++ payload ++ trailing)] w in
       results w' = [Success payload]
       /\ lastFrameData (node w') = Some payload
       /\ alive (node w') = false
       /\ promise w' = Some (save_frame P printerIp outputDir payload fs0).2
       /\ fs w' = (save_frame P printerIp outputDir payload fs0).1.1.
Proof.
  intros Hip Hcode Hu Hc Hhdr HL Hlen Hj outputDir.
  destruct (launch_state printerIp code opts fs0 Hip Hcode Hu Hc)
    as (w & Hl & Hss & Hso & _ & _ & Hpr & _).
  exists w. split; [done|]. intros w'.
  pose proof (launch_facts _ _ _ _ _ _ Hl) as (HI & Hal & Hhr & Hres0 & Hfs & _).
  assert (Saved P printerIp outputDir fs0 w) as HS.
  { split; [done|]. rewrite Hres0. by split. }
  assert (sockets w !! 0%nat = Some {| sock_host := printerIp;
            sock_port := default 6000 (opt_port opts);
            sock_authData := auth_record (default "bblp" (opt_username opts)) code;
            sock_destroyed := false; sock_written := [];
            sock_idleTimeout := Some 20000 |}) as Hk by by rewrite Hss.
  pose proof (on_connect_ready printerIp outputDir 0 0 _ w Hk Hso) as Hw1.
  cbv zeta in Hw1. set (w1 := session_step P printerIp outputDir (SockConnect 0) w) in *.
  destruct Hw1 as (Hal1 & Hhr1 & Hir1 & Hbuf1 & Hres1 & Hlen1).
  apply is_jpeg_spec in Hj as (_ & Hsoi & Heoi).
  pose proof (exact_extraction P printerIp outputDir w1 header payload trailing
                (readUInt32LE header)) as Hx.
  cbv zeta in Hx. destruct Hx as (Hres' & Hlast & _); try done; try congruence.
  assert (w' = on_data (Some (capture_resolve P printerIp outputDir))
                 (header ++ payload ++ trailing) w1) as Hw'.
  { subst w'. unfold session_run, run. cbn [foldl].
    change (step _ _ (SockConnect 0) w) with w1.
    unfold step. destruct (sockets w1 !! 0%nat) eqn:E; [done|].
    apply lookup_ge_None in E. rewrite Hlen1, Hss in E. cbn in E. lia. }
  rewrite <- Hw' in Hres', Hlast. rewrite Hres1, Hres0 in Hres'. cbn [app] in Hres'.
  pose proof (run_Inv P printerIp outputDir
                [SockConnect 0; SockData 0 (header ++ payload ++ trailing)] w HI)
    as (HI1 & _ & HI3 & _).
  pose proof (run_Saved P printerIp outputDir fs0
                [SockConnect 0; SockData 0 (header ++ payload ++ trailing)] w HI HS)
    as (_ & HS2 & _).
  fold w' in HI1, HI3, HS2. destruct (HS2 payload Hres') as [Hp Hf].
  repeat split; try done.
  apply HI3. destruct (hasResolvedOrRejected (node w')); [done|].
  specialize (HI1 eq_refl). congruence.
Qed.

End Capture.

(** ** The further properties on the example session *)

Lemma launch_defaults_witness :
  exists w,
    captureSingleFrameFromPrinter mem_host example_ip example_code default_options empty_fs
    = Session w
    /\ sockets w = [{| sock_host := example_ip; sock_port := 6000;
                       sock_authData := auth_record "bblp" example_code;
                       sock_destroyed := false; sock_written := [];
                       sock_idleTimeout := Some 20000 |}]
    /\ socket (node w) = Some 0%nat
    /\ timers w = [{| timer_kind := OperationTimer; timer_delay := 30000;
                      timer_armed := true |}]
    /\ console w = [LogStarting example_ip "single"; LogAttempt example_ip 1]
    /\ promise w = None /\ fs w = empty_fs /\ results w = [] /\ emitted w = [].
Proof.
  apply (launch_defaults mem_host example_ip example_code default_options empty_fs).
  - discriminate.
  - discriminate.
  - vm_compute. lia.
  - vm_compute. lia.
Defined.


Lemma failed_capture_writes_nothing_witness :
  let w' := session_run mem_host example_ip example_dir
              [SockError 0 econnrefused; TimerFire 0] example_started in
  (hasResolvedOrRejected (node w') = false -> promise w' = None /\ fs w' = empty_fs)
  /\ (forall e, results w' = [Failure e] -> promise w' = Some (Rejected e) /\ fs w' = empty_fs).
Proof.
  apply (failed_capture_writes_nothing mem_host example_ip example_code default_options empty_fs
           example_started [SockError 0 econnrefused; TimerFire 0]).
  - vm_compute. reflexivity.
  - reflexivity.
Defined.


Lemma captured_frames_are_jpeg_witness :
  let w' := session_run mem_host example_ip example_dir
              [SockConnect 0; SockData 0 (header10 ++ jpeg10)] example_started in
  (exists body, jpeg10 = JPEG_START_MARKER ++ body ++ JPEG_END_MARKER)
  /\ (6 <= length jpeg10)%nat
  /\ Z.of_nat (length jpeg10) <= 15 * 1024 * 1024
  /\ results w' = [Success jpeg10]
  /\ lastFrameData (node w') = Some jpeg10.
Proof.
  apply (captured_frames_are_jpeg mem_host example_ip example_code default_options empty_fs
           example_started [SockConnect 0; SockData 0 (header10 ++ jpeg10)] jpeg10).
  - vm_compute. reflexivity.
  - vm_compute. apply list_elem_of_singleton. reflexivity.
Defined.


Lemma pending_timers_are_held_witness :
  let w' := session_run mem_host example_ip example_dir
              [SockError 0 econnrefused; SockClose 0 true] example_started in
  timers w' !! 2%nat = Some {| timer_kind := ReconnectTimer; timer_delay := 3000;
                               timer_armed := true |}
  /\ reconnectTimeout (node w') = Some 2%nat /\ 3000 = 3000.
Proof.
  split; [vm_compute; reflexivity|].
  apply (proj1 (pending_timers_are_held mem_host example_ip example_code default_options empty_fs
                  example_started [SockError 0 econnrefused; SockClose 0 true]
                  ltac:(vm_compute; reflexivity))
           2%nat {| timer_kind := ReconnectTimer; timer_delay := 3000; timer_armed := true |}).
  - vm_compute. reflexivity.
  - reflexivity.
Defined.


Lemma settled_session_holds_nothing_witness :
  let w' := session_run mem_host example_ip example_dir
              [SockConnect 0; SockData 0 (header10 ++ jpeg10)] example_started in
  alive (node w') = false
  /\ socket (node w') = None
  /\ operationTimeout (node w') = None
  /\ reconnectTimeout (node w') = None
  /\ Forall (fun tm => timer_armed tm = false) (timers w').
Proof.
  apply (settled_session_holds_nothing mem_host example_ip example_code default_options empty_fs
           example_started [SockConnect 0; SockData 0 (header10 ++ jpeg10)]).
  - vm_compute. reflexivity.
  - vm_compute. reflexivity.
Defined.


Lemma operation_timeout_rejects_witness :
  let w' := session_run mem_host example_ip example_dir
              [SockConnect 0; SockData 0 header10] example_started in
  let w'' := session_step mem_host example_ip example_dir (TimerFire 0) w' in
  results w'' = [Failure (ErrOperationTimeout example_ip 30000)]
  /\ promise w'' = Some (Rejected (ErrOperationTimeout example_ip 30000))
  /\ fs w'' = empty_fs
  /\ alive (node w'') = false
  /\ socket (node w'') = None
  /\ Forall (fun tm => timer_armed tm = false) (timers w'').
Proof.
  apply (operation_timeout_rejects mem_host example_ip example_code default_options empty_fs
           example_started [SockConnect 0; SockData 0 header10]).
  - vm_compute. reflexivity.
  - reflexivity.
  - vm_compute. reflexivity.
  - vm_compute. reflexivity.
Defined.


Lemma stopped_node_stays_silent_witness :
  let w := stop example_connected in
  let w' := session_run mem_host example_ip example_dir
              [SockData 0 (header10 ++ jpeg10); SockClose 0 false; TimerFire 0] w in
  alive (node w') = false
  /\ length (sockets w') = length (sockets w)
  /\ length (timers w') = length (timers w)
  /\ lastFrameData (node w') = lastFrameData (node w)
  /\ forall img, Success img ∈ results w' -> Success img ∈ results w.
Proof.
  apply (stopped_node_stays_silent mem_host example_ip example_dir (stop example_connected)).
  reflexivity.
Defined.


Lemma long_username_rejects_capture_witness :
  exists w,
    captureSingleFrameFromPrinter mem_host example_ip example_code
      {| opt_port := None; opt_username := Some "a-user-name-of-thirty-three-bytes";
         opt_outputDir := None; opt_timeoutMs := None |} empty_fs = Session w
    /\ forall evs,
         let w' := session_run mem_host example_ip example_dir evs w in
         promise w' = Some (Rejected (ErrOutOfRange 80)) /\ sockets w' = [] /\ fs w' = empty_fs.
Proof.
  apply (long_username_rejects_capture mem_host example_ip example_code
           "a-user-name-of-thirty-three-bytes"
           {| opt_port := None; opt_username := Some "a-user-name-of-thirty-three-bytes";
              opt_outputDir := None; opt_timeoutMs := None |} empty_fs).
  - discriminate.
  - discriminate.
  - reflexivity.
  - vm_compute. lia.
  - vm_compute. lia.
Defined.

Lemma only_auth_record_is_sent_witness :
  let w' := session_run mem_host example_ip example_dir
              [SockConnect 0; SockClose 0 false; TimerFire 1; SockConnect 1] example_started in
  Forall (fun s => sock_host s = example_ip
                   /\ sock_port s = 6000
                   /\ Forall (fun d => d = auth_record "bblp" example_code) (sock_written s))
         (sockets w').
Proof.
  apply (only_auth_record_is_sent mem_host example_ip example_code default_options empty_fs
           example_started
           [SockConnect 0; SockClose 0 false; TimerFire 1; SockConnect 1]).
  - vm_compute. reflexivity.
  - vm_compute. lia.
  - vm_compute. lia.
Defined.

Lemma attempts_stay_within_three_witness :
  let w' := session_run mem_host example_ip example_dir
              [SockClose 0 false; TimerFire 1; SockClose 1 false; TimerFire 2;
               SockClose 2 false] example_started in
  0 <= connectAttempts (node w') <= 3
  /\ (forall host n, Failure (ErrConnectFailed host n) ∈ results w' -> n = 3).
Proof.
  apply (attempts_stay_within_three mem_host example_ip example_code default_options
           empty_fs example_started
           [SockClose 0 false; TimerFire 1; SockClose 1 false; TimerFire 2;
            SockClose 2 false]).
  vm_compute. reflexivity.
Defined.

Lemma promise_follows_the_flag_witness :
  let w' := session_run mem_host example_ip example_dir
              [SockConnect 0; SockData 0 (header10 ++ jpeg10)] example_started in
  (promise w' = None <-> hasResolvedOrRejected (node w') = false)
  /\ (results w' = [] <-> hasResolvedOrRejected (node w') = false).
Proof.
  apply (promise_follows_the_flag mem_host example_ip example_code default_options
           empty_fs example_started [SockConnect 0; SockData 0 (header10 ++ jpeg10)]).
  - vm_compute. reflexivity.
  - reflexivity.
Defined.

Lemma non_jpeg_unit_is_skipped_witness :
  let skipped := decoder_upd [] 0 false
                   [LogHeader example_ip 10; LogInvalidJpeg example_ip] example_connected in
  on_data example_resolve (header10 ++ replicate 10 x00 ++ header10 ++ jpeg10)
    example_connected
  = on_data example_resolve (header10 ++ jpeg10) skipped
  /\ on_data example_resolve (header10 ++ replicate 10 x00) example_connected = skipped
  /\ results skipped = results example_connected
  /\ promise skipped = promise example_connected.
Proof.
  apply (non_jpeg_unit_is_skipped mem_host example_ip example_dir example_connected
           header10 (replicate 10 x00) (header10 ++ jpeg10) 10).
  - reflexivity.
  - reflexivity.
  - reflexivity.
  - reflexivity.
  - reflexivity.
  - reflexivity.
  - lia.
  - reflexivity.
  - reflexivity.
Defined.

Lemma incomplete_unit_is_buffered_witness :
  on_data example_resolve (header10 ++ take 4 jpeg10) example_connected
  = decoder_upd (take 4 jpeg10) 10 true [LogHeader example_ip 10] example_connected.
Proof.
  apply (proj2 (incomplete_unit_is_buffered mem_host example_ip example_dir
                  example_connected eq_refl eq_refl eq_refl)
           header10 (take 4 jpeg10) 10).
  - reflexivity.
  - reflexivity.
  - reflexivity.
  - lia.
  - vm_compute. reflexivity.
Defined.

Lemma capture_outcomes_witness :
  let w' := session_run mem_host example_ip example_dir
              [SockClose 0 false; TimerFire 1; SockClose 1 false; TimerFire 2;
               SockClose 2 false] example_started in
  promise w' = None
  \/ promise w' = Some (Fulfilled (VString "/srv/bot/192_168_1_5.jpg"))
  \/ exists e, promise w' = Some (Rejected e)
       /\ (e = ErrConnectFailed example_ip 3
           \/ e = ErrOperationTimeout example_ip 30000
           \/ (exists f, mem_mkdir example_dir f = Throw e)
           \/ (exists f img, mem_write "/srv/bot/192_168_1_5.jpg" img f = Throw e)).
Proof.
  apply (capture_outcomes mem_host example_ip example_code default_options empty_fs
           example_started
           [SockClose 0 false; TimerFire 1; SockClose 1 false; TimerFire 2;
            SockClose 2 false]).
  - vm_compute. reflexivity.
  - reflexivity.
  - intros Hin. repeat (apply elem_of_cons in Hin as [Hin|Hin]; [discriminate|]).
    by apply elem_of_nil in Hin.
Defined.

Lemma valid_unit_completes_capture_witness :
  exists w,
    captureSingleFrameFromPrinter mem_host example_ip example_code default_options empty_fs
    = Session w
    /\ let w' := session_run mem_host example_ip example_dir
                   [SockConnect 0; SockData 0 (header10 ++ jpeg10 ++ [x01])] w in
       results w' = [Success jpeg10]
       /\ lastFrameData (node w') = Some jpeg10
       /\ alive (node w') = false
       /\ promise w' = Some (save_frame mem_host example_ip example_dir jpeg10 empty_fs).2
       /\ fs w' = (save_frame mem_host example_ip example_dir jpeg10 empty_fs).1.1.
Proof.
  apply (valid_unit_completes_capture mem_host example_ip example_code default_options
           empty_fs header10 jpeg10 [x01]).
  - discriminate.
  - discriminate.
  - vm_compute. lia.
  - vm_compute. lia.
  - reflexivity.
  - vm_compute. split; [reflexivity|discriminate].
  - reflexivity.
  - reflexivity.
Defined.

(** ** A transport on which no handshake completes *)

Section Failing.
Context {FS : Type} (P : Platform FS) (printerIp outputDir : string).

Local Abbreviation rs := (Some (capture_resolve P printerIp outputDir)).
Local Abbreviation rj := (Some (capture_reject printerIp)).




End Failing.

Section Bounded.
Context {FS : Type} (P : Platform FS).




End Bounded.


